(** * msal-common: response handling and the token-endpoint client

    A shallow embedding of
    - [lib/msal-common/src/response/ResponseHandler.ts] (class
      [ResponseHandler]) and
    - the [BaseClient] class (token-request headers and the POST to the token
      endpoint),
    with the properties of their specification proved about the embedding.

    Conventions.
    - A JavaScript slot holding a string is an [option string]: [None] is
      [undefined]/[null].  [truthy] is JavaScript truthiness on such a slot
      and [isEmpty] is [StringUtils.isEmpty].  A field is called _present_
      when it is truthy, which is how the source tests every field.
    - Numbers are [JsNumber]: the doubles that are integers, the two
      infinities and [NaN] (what arithmetic on [undefined] gives).  Sums and
      products are rounded as doubles are ([toDouble]): they are exact up to
      2^53 in magnitude, which is where the properties of expirations are
      stated.  [new Date] is [newDate], with its Invalid Date.
    - Code that is imported by the two classes but is not part of them
      (crypto, cache storage, persistence plug-in, scope sets, account
      factories, network, telemetry) is taken as a parameter; such a
      collaborator answers with a [Reply]: a value, or a failure that the
      caller sees as a thrown error tagged with the collaborator it came
      from ([Raised]), apart from the errors the two classes throw
      themselves.
    - Effects are explicit: a computation is a function from a state to an
      [Outcome] (a value or a thrown error) and the next state; an error
      keeps the effects that came before it.  The state carries the outside
      [world] (cache store, plug-in, clock) and a [trace] of the calls made
      to the stateful collaborators, each with its reply, oldest first.  An
      [await] is a sequence point: one call is followed from start to end.
    - Calls to the logger are left out: they do not influence control flow or
      any value. *)

From Stdlib Require Import ZArith Lia.
From stdpp Require Import base option strings list gmap.

Set Default Proof Using "Type".
#[local] Set Warnings "-clear-no-such-hyp".

(* ===================================================================== *)
(** ** JavaScript values *)
(* ===================================================================== *)

(** Truthiness of a string slot: defined and not the empty string. *)
Definition truthy (v : option string) : bool :=
  match v with
  | Some s => negb (String.eqb s "")
  | None => false
  end.

(** Modelled from the spec: [StringUtils.isEmpty] (utils/StringUtils is not
    among the sources) is the string-emptiness check of the mapping logic:
    [undefined], [null] and [""] are empty. *)
Definition isEmpty (v : option string) : bool :=
  match v with
  | None => true
  | Some s => String.eqb s ""
  end.

(** [a || b] on string slots. *)
Definition js_or (a b : option string) : option string :=
  if truthy a then a else b.

(** What a template literal prints for a string slot. *)
Definition template (v : option string) : string :=
  match v with
  | Some s => s
  | None => "undefined"
  end.

(** A JavaScript number is an IEEE 754 double.  The numbers of the two
    classes count seconds and milliseconds: [Num z] is the double whose
    value is the integer [z] (for a [z] that is the value of a double),
    beside the infinities and [NaN].  The zero of either sign is [Num 0]:
    the source does not divide by these numbers. *)
Inductive JsNumber :=
| Num (z : Z)
| Infinity (negative : bool)
| NaN.

(** The double nearest to an integer.  The integers up to 2^53 in magnitude
    are doubles.  A larger one is rounded to 53 significant bits, to
    nearest, a tie to the even significand; from 2^1024 - 2^970 on this is
    an infinity. *)
Definition toDouble (z : Z) : JsNumber :=
  let a := Z.abs z in
  if (a <=? 9007199254740992)%Z (* 2^53 *) then Num z
  else
    let e := (Z.log2 a - 52)%Z in
    let q := (a / 2 ^ e)%Z in
    let r := (a mod 2 ^ e)%Z in
    let half := (2 ^ (e - 1))%Z in
    let q' :=
      if (r <? half)%Z then q
      else if (half <? r)%Z then (q + 1)%Z
      else if Z.even q then q else (q + 1)%Z in
    let m := (q' * 2 ^ e)%Z in
    if (2 ^ 1024 <=? m)%Z then Infinity (z <? 0)%Z
    else Num (Z.sgn z * m).

(** The integers on which the sums and products below are exact. *)
Definition exactInteger (z : Z) : Prop := (Z.abs z ≤ 9007199254740992)%Z.

(** [a + b]: the sum of two doubles is the double nearest to their sum. *)
Definition js_add (a b : JsNumber) : JsNumber :=
  match a, b with
  | Num x, Num y => toDouble (x + y)
  | NaN, _ | _, NaN => NaN
  | Infinity s, Infinity t => if Bool.eqb s t then Infinity s else NaN
  | Infinity s, Num _ | Num _, Infinity s => Infinity s
  end.

(** [a * b]: likewise, the double nearest to the product. *)
Definition js_mul (a b : JsNumber) : JsNumber :=
  match a, b with
  | Num x, Num y => toDouble (x * y)
  | NaN, _ | _, NaN => NaN
  | Infinity s, Infinity t => Infinity (xorb s t)
  | Infinity s, Num y | Num y, Infinity s =>
      if (y =? 0)%Z then NaN else Infinity (xorb s (y <? 0)%Z)
  end.

(** A numeric field of a parsed JSON payload used as a number: the double
    of an integer literal, [NaN] for a field that is missing. *)
Definition toNumber (v : option Z) : JsNumber :=
  match v with
  | Some z => toDouble z
  | None => NaN
  end.

(** [new Date(ms)]: the time value [ms], or Invalid Date for a number that
    is not finite or is beyond 8.64e15 in magnitude. *)
Inductive Date :=
| DateOf (ms : Z)
| InvalidDate.

Definition newDate (ms : JsNumber) : Date :=
  match ms with
  | Num z => if (Z.abs z <=? 8640000000000000)%Z then DateOf z else InvalidDate
  | _ => InvalidDate
  end.

Lemma truthy_isEmpty v : truthy v = negb (isEmpty v).
Proof. by destruct v. Qed.

Lemma truthy_Some v : truthy v = true ↔ ∃ s, v = Some s ∧ s ≠ "".
Proof.
  destruct v as [s|]; simpl; split.
  - intros H. exists s. split; [done|]. intros ->. discriminate.
  - intros (s' & [= <-] & Hne). destruct (String.eqb_spec s ""); done.
  - discriminate.
  - intros (? & ? & ?). discriminate.
Qed.

Lemma js_or_truthy_l a b : truthy a = true → js_or a b = a.
Proof. unfold js_or. by intros ->. Qed.

Lemma toDouble_exact z : exactInteger z → toDouble z = Num z.
Proof.
  unfold exactInteger, toDouble. intros Hz.
  by destruct (Z.leb_spec (Z.abs z) 9007199254740992); [|lia].
Qed.

(** Rounding does not bring a number back below 2^53. *)
Lemma toDouble_large z :
  (9007199254740992 < Z.abs z)%Z →
  match toDouble z with
  | Num z' => (9007199254740992 ≤ Z.abs z')%Z
  | Infinity _ => True
  | NaN => False
  end.
Proof.
  unfold toDouble. intros Hz.
  destruct (Z.leb_spec (Z.abs z) 9007199254740992); [lia|].
  set (a := Z.abs z) in *. set (e := (Z.log2 a - 52)%Z).
  assert (53 ≤ Z.log2 a)%Z as Hlog.
  { change 53%Z with (Z.log2 9007199254740992). apply Z.log2_le_mono. lia. }
  assert (1 ≤ e)%Z as He by (unfold e; lia).
  assert (2 ^ 1 ≤ 2 ^ e)%Z as Hpow by (apply Z.pow_le_mono_r; lia).
  assert (4503599627370496 * 2 ^ e ≤ a)%Z as Hlow.
  { change 4503599627370496%Z with (2 ^ 52)%Z.
    rewrite <- Z.pow_add_r by lia.
    replace (52 + e)%Z with (Z.log2 a) by (unfold e; lia).
    apply Z.log2_spec. lia. }
  assert (4503599627370496 ≤ a / 2 ^ e)%Z as Hq.
  { apply Z.div_le_lower_bound; lia. }
  set (q := (a / 2 ^ e)%Z) in *.
  set (q' := if (_ <? _)%Z then q else _).
  assert (q ≤ q')%Z as Hq'.
  { unfold q'. repeat case_match; lia. }
  destruct (2 ^ 1024 <=? q' * 2 ^ e)%Z; [done|].
  assert (9007199254740992 ≤ q' * 2 ^ e)%Z by nia.
  destruct z; cbn [Z.sgn] in *; lia.
Qed.

Lemma js_add_exact x y :
  exactInteger (x + y) → js_add (Num x) (Num y) = Num (x + y).
Proof. apply toDouble_exact. Qed.

(** Epoch seconds as a date, in the words of the specification: the
    seconds converted to a date, which counts milliseconds; a date holds
    at most 8.64e15 of them. *)
Definition dateOfSeconds (seconds : JsNumber) : Date :=
  match seconds with
  | Num s =>
      if (Z.abs s <=? 8640000000000)%Z then DateOf (s * 1000) else InvalidDate
  | _ => InvalidDate
  end.

Lemma newDate_seconds seconds :
  newDate (js_mul seconds (Num 1000)) = dateOfSeconds seconds.
Proof.
  destruct seconds as [s| |]; [|done..]. unfold js_mul, dateOfSeconds.
  destruct (Z.leb_spec (Z.abs s) 8640000000000).
  - rewrite toDouble_exact by (unfold exactInteger; lia).
    unfold newDate. by destruct (Z.leb_spec (Z.abs (s * 1000)) 8640000000000000);
      [|lia].
  - destruct (Z.leb_spec (Z.abs (s * 1000)) 9007199254740992).
    + rewrite toDouble_exact by done. unfold newDate.
      by destruct (Z.leb_spec (Z.abs (s * 1000)) 8640000000000000); [lia|].
    + pose proof (toDouble_large (s * 1000) ltac:(lia)) as Hlarge.
      destruct (toDouble (s * 1000)) as [z'| |]; [|done..]. unfold newDate.
      by destruct (Z.leb_spec (Z.abs z') 8640000000000000); [lia|].
Qed.

(* ===================================================================== *)
(** ** Errors and effects *)
(* ===================================================================== *)

(** The collaborators whose failures can surface in the two classes. *)
Inductive Collaborator :=
| uriDecoder        (* decodeURIComponent *)
| clientInfoDecoder (* buildClientInfo *)
| idTokenDecoder    (* new AuthToken *)
| stateParser       (* ProtocolUtils.parseRequestState *)
| accountFactory    (* AccountEntity.createAccount / createGenericAccount *)
| scopeSetFactory   (* ScopeSet.fromString / new ScopeSet *)
| cacheStore        (* CacheManager *)
| cachePlugin       (* ICachePlugin *)
| popSigner         (* PopTokenGenerator.signPopToken *)
| network           (* NetworkManager.sendPostRequest *)
| telemetry         (* ServerTelemetryManager *).

(** Errors of [ClientAuthError], [ServerError] and
    [InteractionRequiredAuthError] that the classes throw themselves, the
    [TypeError] of a member access on [null], and errors raised by a
    collaborator. *)
Inductive Error :=
| StateMismatchError
| NonceMismatchError
| InvalidCacheEnvironmentError
| ClientInfoEmptyError
| InteractionRequiredAuthError (errorCode errorMessage subError : option string)
| ServerError (errorCode errorMessage subError : option string)
| TypeError
| Raised (who : Collaborator) (what : string).

Inductive Reply (A : Type) :=
| Fine (a : A)
| Failed (what : string).
Arguments Fine {A} a.
Arguments Failed {A} what.

Inductive Outcome (A : Type) :=
| Ok (a : A)
| Throw (e : Error).
Arguments Ok {A} a.
Arguments Throw {A} e.

(** How a [try] block is left when nothing was thrown: by falling through
    its end or by a [return] statement. *)
Inductive Flow (A : Type) :=
| Continue
| Return (v : A).
Arguments Continue {A}.
Arguments Return {A} v.

Module Eff.
Section Eff.
Context {Σ : Type}.

Definition M (A : Type) : Type := Σ → Outcome A * Σ.

Definition ret {A} (a : A) : M A := λ σ, (Ok a, σ).

Definition throw {A} (e : Error) : M A := λ σ, (Throw e, σ).

Definition bind {A B} (m : M A) (k : A → M B) : M B :=
  λ σ, match m σ with
       | (Ok a, σ') => k a σ'
       | (Throw e, σ') => (Throw e, σ')
       end.

(** [try { body } finally { fin }]: [fin] runs however [body] ends; an
    error thrown by [fin] replaces the completion of [body]. *)
Definition try_finally {A} (body : M A) (fin : M unit) : M A :=
  λ σ, match body σ with
       | (r, σ1) =>
           match fin σ1 with
           | (Ok _, σ2) => (r, σ2)
           | (Throw e, σ2) => (Throw e, σ2)
           end
       end.

Definition get : M Σ := λ σ, (Ok σ, σ).

Definition modify (f : Σ → Σ) : M unit := λ σ, (Ok tt, f σ).

(** A pure collaborator: its failure is thrown, tagged with its name. *)
Definition pure_call {A} (who : Collaborator) (r : Reply A) : M A :=
  match r with
  | Fine a => ret a
  | Failed what => throw (Raised who what)
  end.
End Eff.
Arguments M : clear implicits.
End Eff.
Import Eff.

Declare Scope eff_scope.
Delimit Scope eff_scope with eff.
Notation "'let!' x ':=' m 'in' k" := (bind m (λ x, k))
  (at level 10, x name, m at level 100, k at level 200) : eff_scope.
Notation "'run!' m 'in' k" := (bind m (λ _, k))
  (at level 10, m at level 100, k at level 200) : eff_scope.
Open Scope eff_scope.

Lemma bind_Ok {Σ A B} (m : M Σ A) (k : A → M Σ B) σ a σ' :
  m σ = (Ok a, σ') → bind m k σ = k a σ'.
Proof. unfold bind. by intros ->. Qed.

Lemma bind_Throw {Σ A B} (m : M Σ A) (k : A → M Σ B) σ e σ' :
  m σ = (Throw e, σ') → bind m k σ = (Throw e, σ').
Proof. unfold bind. by intros ->. Qed.

Lemma bind_Ok_inv {Σ A B} (m : M Σ A) (k : A → M Σ B) σ b σ' :
  bind m k σ = (Ok b, σ') →
  ∃ a σ1, m σ = (Ok a, σ1) ∧ k a σ1 = (Ok b, σ').
Proof.
  unfold bind. destruct (m σ) as [[a|e] σ1]; [eauto | discriminate].
Qed.

Lemma bind_Throw_inv {Σ A B} (m : M Σ A) (k : A → M Σ B) σ e σ' :
  bind m k σ = (Throw e, σ') →
  m σ = (Throw e, σ') ∨ ∃ a σ1, m σ = (Ok a, σ1) ∧ k a σ1 = (Throw e, σ').
Proof.
  unfold bind. destruct (m σ) as [[a|e'] σ1]; [eauto | intros [= -> ->]; eauto].
Qed.

Lemma pure_call_Ok_inv {Σ A} who (r : Reply A) (σ σ' : Σ) a :
  pure_call who r σ = (Ok a, σ') → r = Fine a ∧ σ' = σ.
Proof. destruct r; cbn; unfold ret, throw; by intros [= -> ->]. Qed.

Lemma pure_call_Throw_inv {Σ A} who (r : Reply A) (σ σ' : Σ) e :
  pure_call who r σ = (Throw e, σ') →
  ∃ what, r = Failed what ∧ e = Raised who what ∧ σ' = σ.
Proof. destruct r; cbn; unfold ret, throw; intros [= <- <-]; eauto. Qed.

(* ===================================================================== *)
(** ** BaseClient: token-request headers and the POST to the token endpoint *)
(* ===================================================================== *)

Module BaseClient.

(** Header names and values of [utils/Constants], which is not among the
    sources: they are parameters of the model. *)
Class HeaderNames := {
  CONTENT_TYPE : string;
  X_CLIENT_CURR_TELEM : string;
  X_CLIENT_LAST_TELEM : string
}.

Class AADServerParamKeys := {
  X_CLIENT_SKU : string;
  X_CLIENT_VER : string;
  X_CLIENT_OS : string;
  X_CLIENT_CPU : string
}.

Class Constants := {
  URL_FORM_CONTENT_TYPE : string
}.

Section BaseClient.
Context {W : Type}.
Context {ServerAuthorizationTokenResponse RequestThumbprint : Type}.
Context `{HeaderNames, AADServerParamKeys, Constants}.

Record LibraryInfo := {
  sku : string;
  version : string;
  cpu : string;
  os : string
}.

Record NetworkRequestOptions := {
  req_headers : gmap string string;
  req_body : string
}.

Record NetworkResponse := {
  headers : gmap string string;
  body : ServerAuthorizationTokenResponse;
  status : Z
}.

Record ServerTelemetryManager := {
  clearTelemetryCache : W → Reply unit * W
}.

Record NetworkManager := {
  sendPostRequest :
    RequestThumbprint → string → NetworkRequestOptions →
    W → Reply NetworkResponse * W
}.

Record ClientConfiguration := {
  libraryInfo : LibraryInfo;
  serverTelemetryManager : option ServerTelemetryManager
}.

Record BaseClient := {
  config : ClientConfiguration;
  networkManager : NetworkManager
}.

Inductive Event :=
| SendPostRequest (thumbprint : RequestThumbprint) (tokenEndpoint : string)
    (options : NetworkRequestOptions)
| ClearTelemetryCache.

Record State := {
  world : W;
  trace : list Event
}.

(** A call to a stateful collaborator: it is logged, acts on the world,
    and its failure is thrown. *)
Definition call {A} (who : Collaborator) (ev : Event)
    (f : W → Reply A * W) : M State A :=
  λ σ, let '(r, w) := f (world σ) in
       let σ' := {| world := w; trace := trace σ ++ [ev] |} in
       match r with
       | Fine a => (Ok a, σ')
       | Failed what => (Throw (Raised who what), σ')
       end.

(** [createDefaultTokenRequestHeaders] (part_000, lines 77-101).  The calls
    that add further headers are commented out in the source. *)
Definition createDefaultTokenRequestHeaders (this : BaseClient)
    : gmap string string :=
  let headers : gmap string string := ∅ in
  let headers := <[CONTENT_TYPE := URL_FORM_CONTENT_TYPE]> headers in
  headers.

(** [createDefaultLibraryHeaders] (part_000, lines 106-116). *)
Definition createDefaultLibraryHeaders (this : BaseClient)
    : gmap string string :=
  let headers : gmap string string := ∅ in
  let headers := <[X_CLIENT_SKU := sku (libraryInfo (config this))]> headers in
  let headers := <[X_CLIENT_VER := version (libraryInfo (config this))]> headers in
  let headers := <[X_CLIENT_OS := os (libraryInfo (config this))]> headers in
  let headers := <[X_CLIENT_CPU := cpu (libraryInfo (config this))]> headers in
  headers.

(** [executePostToTokenEndpoint] (part_000, lines 125-138). *)
Definition executePostToTokenEndpoint (this : BaseClient)
    (tokenEndpoint queryString : string) (headers : gmap string string)
    (thumbprint : RequestThumbprint) : M State NetworkResponse :=
  let options := {| req_body := queryString; req_headers := headers |} in
  let! response :=
    call network (SendPostRequest thumbprint tokenEndpoint options)
      (sendPostRequest (networkManager this) thumbprint tokenEndpoint options) in
  run! match serverTelemetryManager (config this) with
       | Some manager =>
           if (status response <? 500)%Z && negb (status response =? 429)%Z
           then call telemetry ClearTelemetryCache (clearTelemetryCache manager)
           else ret tt
       | None => ret tt
       end in
  ret response.

(** *** Properties *)

Lemma call_spec {A} who ev (f : W → Reply A * W) σ :
  (call who ev f σ).2 =
    {| world := (f (world σ)).2; trace := trace σ ++ [ev] |}.
Proof. unfold call. destruct (f (world σ)) as [[a|what] w]; done. Qed.

(** C9.  When a telemetry manager is configured and the POST yields a
    response, [clearTelemetryCache] is invoked if and only if the status is
    below 500 and is not 429; for a status of 500 or more, or 429, the call
    returns the response and leaves the world (the telemetry state with
    it) as the POST left it. *)
Theorem telemetry_cleared_iff_acknowledged
    (this : BaseClient) (manager : ServerTelemetryManager)
    (tokenEndpoint queryString : string) (hdrs : gmap string string)
    (thumbprint : RequestThumbprint) (σ : State)
    (response : NetworkResponse) (w1 : W) :
  serverTelemetryManager (config this) = Some manager →
  sendPostRequest (networkManager this) thumbprint tokenEndpoint
    {| req_body := queryString; req_headers := hdrs |} (world σ)
    = (Fine response, w1) →
  let post := SendPostRequest thumbprint tokenEndpoint
                {| req_body := queryString; req_headers := hdrs |} in
  let '(r, σ') :=
    executePostToTokenEndpoint this tokenEndpoint queryString hdrs thumbprint σ in
  ∃ evs, trace σ' = trace σ ++ post :: evs
    ∧ (ClearTelemetryCache ∈ evs ↔
         (status response < 500)%Z ∧ status response ≠ 429%Z)
    ∧ ((status response < 500)%Z ∧ status response ≠ 429%Z →
         evs = [ClearTelemetryCache]
         ∧ world σ' = (clearTelemetryCache manager w1).2)
    ∧ ((500 ≤ status response)%Z ∨ status response = 429%Z →
         evs = [] ∧ world σ' = w1 ∧ r = Ok response).
Proof.
  intros Hcfg Hpost post.
  unfold executePostToTokenEndpoint.
  set (opts := {| req_body := queryString; req_headers := hdrs |}) in *.
  unfold bind at 1. unfold call at 1. rewrite Hpost. cbn [world trace].
  rewrite Hcfg. unfold bind.
  destruct (status response <? 500)%Z eqn:Hlt;
    [destruct (status response =? 429)%Z eqn:Heq|]; cbn [andb negb].
  - apply Z.eqb_eq in Heq. unfold ret.
    exists []. split_and!.
    + done.
    + split; [intros Hin; by apply elem_of_nil in Hin | lia].
    + lia.
    + done.
  - apply Z.ltb_lt in Hlt. apply Z.eqb_neq in Heq.
    pose proof (call_spec telemetry ClearTelemetryCache
                  (clearTelemetryCache manager)
                  {| world := w1; trace := trace σ ++ [post] |}) as Hc.
    destruct (call telemetry ClearTelemetryCache _ _) as [[[]|e] σ2];
      cbn [snd world trace] in Hc; subst σ2; cbn [world trace];
      (exists [ClearTelemetryCache]; split_and!;
       [by rewrite <- app_assoc
       | split; [done | intros _; by apply list_elem_of_singleton]
       | done
       | lia]).
  - apply Z.ltb_ge in Hlt. unfold ret.
    exists []. split_and!.
    + done.
    + split; [intros Hin; by apply elem_of_nil in Hin | lia].
    + lia.
    + done.
Qed.

(** C10.  Whatever the client configuration (a telemetry manager or none),
    the default token-request headers are the single entry
    [CONTENT_TYPE -> URL_FORM_CONTENT_TYPE]: none of the client-identification
    header names and none of the telemetry header names is a key of it,
    these names being different from [CONTENT_TYPE].  The four
    client-identification headers are what [createDefaultLibraryHeaders]
    produces, which the token-request headers do not use. *)
Theorem token_request_headers_content_type_only (this : BaseClient) :
  CONTENT_TYPE ∉ [X_CLIENT_SKU; X_CLIENT_VER; X_CLIENT_OS; X_CLIENT_CPU;
                  X_CLIENT_CURR_TELEM; X_CLIENT_LAST_TELEM] →
  createDefaultTokenRequestHeaders this
    = {[ CONTENT_TYPE := URL_FORM_CONTENT_TYPE ]}
  ∧ map_to_list (createDefaultTokenRequestHeaders this)
    = [(CONTENT_TYPE, URL_FORM_CONTENT_TYPE)]
  ∧ Forall (λ k, createDefaultTokenRequestHeaders this !! k = None)
      [X_CLIENT_SKU; X_CLIENT_VER; X_CLIENT_OS; X_CLIENT_CPU;
       X_CLIENT_CURR_TELEM; X_CLIENT_LAST_TELEM]
  ∧ Forall (λ k, is_Some (createDefaultLibraryHeaders this !! k))
      [X_CLIENT_SKU; X_CLIENT_VER; X_CLIENT_OS; X_CLIENT_CPU].
Proof.
  intros Hne. unfold createDefaultTokenRequestHeaders.
  rewrite insert_empty. split_and!.
  - done.
  - apply map_to_list_singleton.
  - rewrite Forall_forall. intros k Hk.
    apply lookup_singleton_ne. intros <-. by apply Hne, list_elem_of_In.
  - unfold createDefaultLibraryHeaders.
    repeat constructor; rewrite !lookup_insert;
      repeat case_decide; eauto; congruence.
Qed.

(** *** Further properties of the POST to the token endpoint *)

Definition isSendEvent (ev : Event) : bool :=
  match ev with
  | SendPostRequest _ _ _ => true
  | ClearTelemetryCache => false
  end.

(** X1.  Every run of [executePostToTokenEndpoint] sends one POST, first,
    with the query string as body and the headers as given, and none after
    it; a response it returns is the one the network manager answered. *)
Theorem post_is_sent_once_as_given (this : BaseClient)
    (tokenEndpoint queryString : string) (hdrs : gmap string string)
    (thumbprint : RequestThumbprint) (σ : State) :
  let run := executePostToTokenEndpoint this tokenEndpoint queryString hdrs
               thumbprint σ in
  let options := {| req_body := queryString; req_headers := hdrs |} in
  (∃ evs,
     trace run.2 = trace σ ++ SendPostRequest thumbprint tokenEndpoint options :: evs
     ∧ forallb (λ ev, negb (isSendEvent ev)) evs = true)
  ∧ (∀ response, run.1 = Ok response →
       (sendPostRequest (networkManager this) thumbprint tokenEndpoint options
          (world σ)).1 = Fine response).
Proof.
  intros run options. subst run. unfold executePostToTokenEndpoint.
  fold options. unfold bind, call, ret.
  destruct (sendPostRequest _ _ _ _ _) as [[response|what] w1]; cbn.
  - destruct (serverTelemetryManager (config this)) as [manager|];
      [destruct ((status response <? 500)%Z && negb (status response =? 429)%Z)|];
      cbn;
      try (destruct (clearTelemetryCache manager w1) as [[[]|what] w2]; cbn);
      rewrite <- ?app_assoc; cbn [app].
    all: split; [eexists; split; [reflexivity|done]|].
    all: intros ? [=]; by subst.
  - split; [by exists []|]. by intros ? [=].
Qed.

(** X2.  When the POST fails, the error of the network reaches the caller
    and the telemetry cache is not cleared, whatever is configured. *)
Theorem network_failure_keeps_telemetry (this : BaseClient)
    (tokenEndpoint queryString : string) (hdrs : gmap string string)
    (thumbprint : RequestThumbprint) (σ : State) (what : string) (w1 : W) :
  let options := {| req_body := queryString; req_headers := hdrs |} in
  sendPostRequest (networkManager this) thumbprint tokenEndpoint options
    (world σ) = (Failed what, w1) →
  executePostToTokenEndpoint this tokenEndpoint queryString hdrs thumbprint σ
  = (Throw (Raised network what),
     {| world := w1;
        trace := trace σ ++ [SendPostRequest thumbprint tokenEndpoint options] |}).
Proof.
  intros options Hpost. unfold executePostToTokenEndpoint. fold options.
  unfold bind, call. by rewrite Hpost.
Qed.

(** X3.  Without a telemetry manager the response is returned and nothing is
    cleared, for every status. *)
Theorem no_manager_never_clears (this : BaseClient)
    (tokenEndpoint queryString : string) (hdrs : gmap string string)
    (thumbprint : RequestThumbprint) (σ : State)
    (response : NetworkResponse) (w1 : W) :
  let options := {| req_body := queryString; req_headers := hdrs |} in
  serverTelemetryManager (config this) = None →
  sendPostRequest (networkManager this) thumbprint tokenEndpoint options
    (world σ) = (Fine response, w1) →
  executePostToTokenEndpoint this tokenEndpoint queryString hdrs thumbprint σ
  = (Ok response,
     {| world := w1;
        trace := trace σ ++ [SendPostRequest thumbprint tokenEndpoint options] |}).
Proof.
  intros options Hcfg Hpost. unfold executePostToTokenEndpoint. fold options.
  unfold bind, call. rewrite Hpost. cbn. by rewrite Hcfg.
Qed.

(** X4.  When the status asks for the telemetry cache to be cleared and
    clearing fails, the call fails with the error of the telemetry manager:
    the response that was received is not returned. *)
Theorem clear_failure_loses_response (this : BaseClient)
    (manager : ServerTelemetryManager)
    (tokenEndpoint queryString : string) (hdrs : gmap string string)
    (thumbprint : RequestThumbprint) (σ : State)
    (response : NetworkResponse) (w1 w2 : W) (what : string) :
  let options := {| req_body := queryString; req_headers := hdrs |} in
  serverTelemetryManager (config this) = Some manager →
  sendPostRequest (networkManager this) thumbprint tokenEndpoint options
    (world σ) = (Fine response, w1) →
  (status response < 500)%Z → status response ≠ 429%Z →
  clearTelemetryCache manager w1 = (Failed what, w2) →
  executePostToTokenEndpoint this tokenEndpoint queryString hdrs thumbprint σ
  = (Throw (Raised telemetry what),
     {| world := w2;
        trace := trace σ ++ [SendPostRequest thumbprint tokenEndpoint options;
                             ClearTelemetryCache] |}).
Proof.
  intros options Hcfg Hpost Hlt Hne Hclear.
  unfold executePostToTokenEndpoint. fold options.
  unfold bind, call. rewrite Hpost. cbn. rewrite Hcfg.
  apply Z.ltb_lt in Hlt. apply Z.eqb_neq in Hne. rewrite Hlt, Hne. cbn.
  rewrite Hclear. cbn. by rewrite <- app_assoc.
Qed.

(** X5.  The library headers carry the four fields of the library
    information under their header names: the CPU under [X_CLIENT_CPU]
    always (it is assigned last), and each of the others under its name
    when the four names are different; there is no other header. *)
Theorem library_headers_carry_library_info (this : BaseClient) :
  let headers := createDefaultLibraryHeaders this in
  let info := libraryInfo (config this) in
  headers !! X_CLIENT_CPU = Some (cpu info)
  ∧ (∀ name, is_Some (headers !! name) →
       name ∈ [X_CLIENT_SKU; X_CLIENT_VER; X_CLIENT_OS; X_CLIENT_CPU])
  ∧ (NoDup [X_CLIENT_SKU; X_CLIENT_VER; X_CLIENT_OS; X_CLIENT_CPU] →
     headers !! X_CLIENT_SKU = Some (sku info)
     ∧ headers !! X_CLIENT_VER = Some (version info)
     ∧ headers !! X_CLIENT_OS = Some (os info)
     ∧ size headers = 4).
Proof.
  intros headers info. subst headers info.
  unfold createDefaultLibraryHeaders. split_and!.
  - by rewrite lookup_insert_eq.
  - intros name. rewrite !lookup_insert, lookup_empty.
    repeat case_decide; subst; intros Hsome;
      try (by apply is_Some_None in Hsome); set_solver.
  - intros Hnd.
    apply NoDup_cons in Hnd as [Hsku Hnd].
    apply NoDup_cons in Hnd as [Hver Hnd].
    apply NoDup_cons in Hnd as [Hos _].
    set_unfold.
    split_and!.
    + rewrite !lookup_insert. repeat case_decide; naive_solver.
    + rewrite !lookup_insert. repeat case_decide; naive_solver.
    + rewrite !lookup_insert. repeat case_decide; naive_solver.
    + rewrite !map_size_insert_None, map_size_empty; [done|..];
        rewrite ?lookup_insert, ?lookup_empty; repeat case_decide;
        naive_solver.
Qed.
End BaseClient.
End BaseClient.

(* ===================================================================== *)
(** ** ResponseHandler *)
(* ===================================================================== *)

Module ResponseHandler.

Inductive AuthorityType := Default | Adfs.

(** [AuthenticationScheme.POP] of [utils/Constants], which is not among the
    sources. *)
Class AuthenticationScheme := {
  POP : string
}.

Section ResponseHandler.
(** The outside world, and the types of objects that the handler only
    passes on. *)
Context {W ICrypto ISerializableTokenCache : Type}.
Context {AccountEntity AccountInfo ScopeSet : Type}.
Context `{AuthenticationScheme}.

(** *** Payloads *)

Record ServerAuthorizationCodeResponse := {
  hash_code : option string;
  hash_client_info : option string;
  hash_state : option string;
  hash_error : option string;
  hash_error_description : option string;
  hash_suberror : option string
}.

Record ServerAuthorizationTokenResponse := {
  token_type : option string;
  scope : option string;
  expires_in : option Z;
  ext_expires_in : option Z;
  access_token : option string;
  refresh_token : option string;
  id_token : option string;
  client_info : option string;
  foci : option string;
  error : option string;
  error_description : option string;
  error_codes : option (list string);
  suberror : option string;
  timestamp : option string;
  trace_id : option string;
  correlation_id : option string
}.

Record ClientInfo := {
  uid : option string;
  utid : option string
}.

Record TokenClaims := {
  nonce : option string;
  sub : option string;
  oid : option string;
  tid : option string
}.

Record AuthToken := {
  rawToken : option string;
  claims : TokenClaims
}.

Record LibraryStateObject := {
  ls_id : string;
  ts : Z
}.

Record RequestStateObject := {
  userRequestState : option string;
  libraryState : option LibraryStateObject
}.

Record Authority := {
  authorityType : AuthorityType;
  protocolMode : string;
  tenant : option string;
  canonicalAuthority : string
}.

Record TokenCacheContext := {
  tokenCache : ISerializableTokenCache;
  hasChanged : bool
}.

(** *** Cache entities

    The entity classes are not among the sources.  Accounts stay abstract
    ([AccountEntity], with the operations of [Imports] below); the
    credential and metadata entities are records of what their factory is
    given. *)

Record IdTokenEntity := {
  it_homeAccountId : option string;
  it_environment : option string;
  it_secret : option string;
  it_clientId : string;
  it_realm : option string;
  it_oboAssertion : option string
}.

Record AccessTokenEntity := {
  at_homeAccountId : option string;
  at_environment : option string;
  at_secret : option string;
  at_clientId : string;
  at_realm : option string;
  at_target : option string;
  at_expiresOn : JsNumber;
  at_extendedExpiresOn : JsNumber;
  at_tokenType : option string;
  at_oboAssertion : option string
}.

Record RefreshTokenEntity := {
  rt_homeAccountId : option string;
  rt_environment : option string;
  rt_secret : option string;
  rt_clientId : string;
  rt_familyId : option string;
  rt_oboAssertion : option string
}.

Record AppMetadataEntity := {
  am_clientId : string;
  am_environment : option string;
  am_familyId : option string
}.

(** Modelled from the spec: [IdTokenEntity.createIdTokenEntity] (not among
    the sources) builds the credential keyed by home account id,
    environment, client id and realm, holding the raw token as its
    secret. *)
Definition createIdTokenEntity (homeAccountId environment idToken : option string)
    (clientId : string) (tenantId oboAssertion : option string) : IdTokenEntity :=
  {| it_homeAccountId := homeAccountId; it_environment := environment;
     it_secret := idToken; it_clientId := clientId; it_realm := tenantId;
     it_oboAssertion := oboAssertion |}.

(** Modelled from the spec: [AccessTokenEntity.createAccessTokenEntity]
    (not among the sources) builds the credential keyed by home account
    id, environment, client id, realm and target, carrying [expiresOn] and
    [extendedExpiresOn] in epoch seconds and the [tokenType]. *)
Definition createAccessTokenEntity (homeAccountId environment accessToken : option string)
    (clientId : string) (tenantId scopes : option string)
    (expiresOn extExpiresOn : JsNumber) (tokenType oboAssertion : option string)
    : AccessTokenEntity :=
  {| at_homeAccountId := homeAccountId; at_environment := environment;
     at_secret := accessToken; at_clientId := clientId; at_realm := tenantId;
     at_target := scopes; at_expiresOn := expiresOn;
     at_extendedExpiresOn := extExpiresOn; at_tokenType := tokenType;
     at_oboAssertion := oboAssertion |}.

(** Modelled from the spec: [RefreshTokenEntity.createRefreshTokenEntity]
    (not among the sources) builds the credential holding the refresh
    token and the family id. *)
Definition createRefreshTokenEntity (homeAccountId environment refreshToken : option string)
    (clientId : string) (familyId oboAssertion : option string) : RefreshTokenEntity :=
  {| rt_homeAccountId := homeAccountId; rt_environment := environment;
     rt_secret := refreshToken; rt_clientId := clientId;
     rt_familyId := familyId; rt_oboAssertion := oboAssertion |}.

(** Modelled from the spec: [AppMetadataEntity.createAppMetadataEntity]
    (not among the sources) records the family of client ids per client id
    and environment. *)
Definition createAppMetadataEntity (clientId : string)
    (environment familyId : option string) : AppMetadataEntity :=
  {| am_clientId := clientId; am_environment := environment;
     am_familyId := familyId |}.

Record CacheRecord := {
  account : option AccountEntity;
  idToken : option IdTokenEntity;
  accessToken : option AccessTokenEntity;
  refreshToken : option RefreshTokenEntity;
  appMetadata : option AppMetadataEntity
}.

Record AuthenticationResult := {
  res_uniqueId : option string;
  res_tenantId : option string;
  res_scopes : list string;
  res_account : option AccountInfo;
  res_idToken : option string;
  res_idTokenClaims : option TokenClaims;
  res_accessToken : option string;
  res_fromCache : bool;
  res_expiresOn : option Date;
  res_extExpiresOn : option Date;
  res_familyId : option string;
  res_tokenType : option string;
  res_state : option string
}.

(** *** Collaborators *)

(** The functions the class imports from modules that are not among the
    sources. *)
Class Imports := {
  decodeURIComponent : string → Reply string;
  isInteractionRequiredError : option string → option string → option string → bool;
  buildClientInfo : option string → ICrypto → Reply ClientInfo;
  newAuthToken : option string → ICrypto → Reply AuthToken;
  parseRequestState : ICrypto → option string → Reply RequestStateObject;
  generateEnvironmentFromAuthority : Authority → option string;
  createAccount :
    option string → Authority → AuthToken → ICrypto → option string →
    Reply AccountEntity;
  createGenericAccount :
    Authority → AuthToken → option string → Reply AccountEntity;
  generateAccountKey : AccountEntity → string;
  getAccountInfo : AccountEntity → AccountInfo;
  ScopeSet_fromString : option string → Reply ScopeSet;
  ScopeSet_new : list string → Reply ScopeSet;
  printScopes : ScopeSet → string;
  asArray : ScopeSet → list string;
  nowSeconds : W → Z;
  signPopToken :
    ICrypto → option string → option string → option string →
    W → Reply (option string) * W
}.
Context `{Imports}.

(** [CacheManager]: [getAccount] is a query, [saveCacheRecord] a command;
    either can fail. *)
Record CacheManager := {
  getAccount : string → W → Reply (option AccountEntity);
  saveCacheRecord : CacheRecord → W → Reply unit * W
}.

Record ICachePlugin := {
  beforeCacheAccess : TokenCacheContext → W → Reply unit * W;
  afterCacheAccess : TokenCacheContext → W → Reply unit * W
}.

(** The fields of the class that are set once, by the constructor. *)
Record ResponseHandler := {
  clientId : string;
  cacheStorage : CacheManager;
  cryptoObj : ICrypto;
  serializableCache : option ISerializableTokenCache;
  persistencePlugin : option ICachePlugin
}.

(** The calls to the stateful collaborators, each with the reply it got. *)
Inductive Event :=
| BeforeCacheAccess (cacheContext : TokenCacheContext) (reply : Reply unit)
| AfterCacheAccess (cacheContext : TokenCacheContext) (reply : Reply unit)
| GetAccount (key : string) (reply : Reply (option AccountEntity))
| SaveCacheRecord (cacheRecord : CacheRecord) (reply : Reply unit)
| SignPopToken (secret resourceRequestMethod resourceRequestUri : option string)
    (reply : Reply (option string)).

(** The state a call runs in: the world, the trace, the two fields of the
    class that [handleServerTokenResponse] assigns ([undefined] in a new
    handler), and its local variable [cacheContext]. *)
Record State := {
  world : W;
  trace : list Event;
  clientInfo : option ClientInfo;
  homeAccountIdentifier : option string;
  cacheContext : option TokenCacheContext
}.

Definition set_clientInfo (v : option ClientInfo) (σ : State) : State :=
  {| world := world σ; trace := trace σ; clientInfo := v;
     homeAccountIdentifier := homeAccountIdentifier σ;
     cacheContext := cacheContext σ |}.

Definition set_homeAccountIdentifier (v : option string) (σ : State) : State :=
  {| world := world σ; trace := trace σ; clientInfo := clientInfo σ;
     homeAccountIdentifier := v; cacheContext := cacheContext σ |}.

Definition set_cacheContext (v : option TokenCacheContext) (σ : State) : State :=
  {| world := world σ; trace := trace σ; clientInfo := clientInfo σ;
     homeAccountIdentifier := homeAccountIdentifier σ; cacheContext := v |}.

Definition set_world (w : W) (ev : Event) (σ : State) : State :=
  {| world := w; trace := trace σ ++ [ev]; clientInfo := clientInfo σ;
     homeAccountIdentifier := homeAccountIdentifier σ;
     cacheContext := cacheContext σ |}.

(** A command sent to a stateful collaborator: it acts on the world, is
    logged with its reply, and its failure is thrown. *)
Definition call {A} (who : Collaborator) (ev : Reply A → Event)
    (f : W → Reply A * W) : M State A :=
  λ σ, let '(r, w) := f (world σ) in
       match r with
       | Fine a => (Ok a, set_world w (ev r) σ)
       | Failed what => (Throw (Raised who what), set_world w (ev r) σ)
       end.

(** A query: it is logged with its reply and leaves the world as it is. *)
Definition query {A} (who : Collaborator) (ev : Reply A → Event)
    (f : W → Reply A) : M State A :=
  λ σ, let r := f (world σ) in
       match r with
       | Fine a => (Ok a, set_world (world σ) (ev r) σ)
       | Failed what => (Throw (Raised who what), set_world (world σ) (ev r) σ)
       end.

(** *** Validation *)

(** [validateServerAuthorizationCodeResponse] (lines 63-80).
    [decodeURIComponent] prints an [undefined] argument before decoding. *)
Definition validateServerAuthorizationCodeResponse (this : ResponseHandler)
    (serverResponseHash : ServerAuthorizationCodeResponse)
    (cachedState : option string) (cryptoObj : ICrypto) : M State unit :=
  let! responseState :=
    pure_call uriDecoder
      (decodeURIComponent (template (hash_state serverResponseHash))) in
  let! requestState :=
    pure_call uriDecoder (decodeURIComponent (template cachedState)) in
  if negb (String.eqb responseState requestState) then
    throw StateMismatchError
  else
  (* Check for error *)
  if truthy (hash_error serverResponseHash)
     || truthy (hash_error_description serverResponseHash)
     || truthy (hash_suberror serverResponseHash) then
    if isInteractionRequiredError (hash_error serverResponseHash)
         (hash_error_description serverResponseHash)
         (hash_suberror serverResponseHash) then
      throw (InteractionRequiredAuthError (hash_error serverResponseHash)
               (hash_error_description serverResponseHash)
               (hash_suberror serverResponseHash))
    else
      throw (ServerError (hash_error serverResponseHash)
               (hash_error_description serverResponseHash)
               (hash_suberror serverResponseHash))
  else
  if truthy (hash_client_info serverResponseHash) then
    run! pure_call clientInfoDecoder
           (buildClientInfo (hash_client_info serverResponseHash) cryptoObj) in
    ret tt
  else ret tt.

(** What a template literal prints for an array of strings. *)
Definition template_array (v : option (list string)) : string :=
  match v with
  | Some l => String.concat "," l
  | None => "undefined"
  end.

(** [validateTokenResponse] (lines 86-96). *)
Definition validateTokenResponse (this : ResponseHandler)
    (serverResponse : ServerAuthorizationTokenResponse) : M State unit :=
  (* Check for error *)
  if truthy (error serverResponse)
     || truthy (error_description serverResponse)
     || truthy (suberror serverResponse) then
    if isInteractionRequiredError (error serverResponse)
         (error_description serverResponse) (suberror serverResponse) then
      throw (InteractionRequiredAuthError (error serverResponse)
               (error_description serverResponse) (suberror serverResponse))
    else
      let errString :=
        template_array (error_codes serverResponse) +:+ " - [" +:+
        template (timestamp serverResponse) +:+ "]: " +:+
        template (error_description serverResponse) +:+
        " - Correlation ID: " +:+ template (correlation_id serverResponse) +:+
        " - Trace ID: " +:+ template (trace_id serverResponse) in
      throw (ServerError (error serverResponse) (Some errString) None)
  else ret tt.

(** *** Mapping a response to cache entities *)

(** [generateAccountEntity] (lines 285-302). *)
Definition generateAccountEntity (this : ResponseHandler)
    (serverTokenResponse : ServerAuthorizationTokenResponse)
    (idToken : AuthToken) (authority : Authority)
    (oboAssertion : option string) : M State AccountEntity :=
  let authorityType := authorityType authority in
  (* ADFS does not require client_info in the response *)
  match authorityType with
  | Adfs =>
      pure_call accountFactory
        (createGenericAccount authority idToken oboAssertion)
  | Default =>
      if isEmpty (client_info serverTokenResponse)
         && String.eqb (protocolMode authority) "AAD" then
        throw ClientInfoEmptyError
      else if truthy (client_info serverTokenResponse) then
        pure_call accountFactory
          (createAccount (client_info serverTokenResponse) authority idToken
             (cryptoObj this) oboAssertion)
      else
        pure_call accountFactory
          (createGenericAccount authority idToken oboAssertion)
  end.

(** [generateCacheRecord] (lines 198-277). *)
Definition generateCacheRecord (this : ResponseHandler)
    (serverTokenResponse : ServerAuthorizationTokenResponse)
    (idTokenObj : option AuthToken) (authority : Authority)
    (libraryState : option LibraryStateObject)
    (requestScopes : option (list string)) (oboAssertion : option string)
    : M State CacheRecord :=
  let env := generateEnvironmentFromAuthority authority in
  if isEmpty env then throw InvalidCacheEnvironmentError else
  (* IdToken: non AAD scenarios can have empty realm *)
  let! identity :=
    if negb (isEmpty (id_token serverTokenResponse)) then
      match idTokenObj with
      | None => throw TypeError (* idTokenObj.claims on null *)
      | Some token =>
          let! σ := get in
          let cachedIdToken :=
            createIdTokenEntity (homeAccountIdentifier σ) env
              (id_token serverTokenResponse) (clientId this)
              (js_or (tid (claims token)) (Some "")) oboAssertion in
          let! cachedAccount :=
            generateAccountEntity this serverTokenResponse token authority
              oboAssertion in
          ret (Some cachedIdToken, Some cachedAccount)
      end
    else ret (None, None) in
  (* AccessToken *)
  let! cachedAccessToken :=
    if negb (isEmpty (access_token serverTokenResponse)) then
      (* If scopes not returned in server response, use request scopes *)
      let! responseScopes :=
        if truthy (scope serverTokenResponse) then
          pure_call scopeSetFactory
            (ScopeSet_fromString (scope serverTokenResponse))
        else
          pure_call scopeSetFactory
            (ScopeSet_new (default [] requestScopes)) in
      (* Expiration calculation *)
      let! σ := get in
      let currentTime := nowSeconds (world σ) in
      let timestamp :=
        match libraryState with
        | Some state => toDouble (ts state)
        | None => toDouble currentTime
        end in
      let tokenExpirationSeconds :=
        js_add timestamp (toNumber (expires_in serverTokenResponse)) in
      let extendedTokenExpirationSeconds :=
        js_add tokenExpirationSeconds
          (toNumber (ext_expires_in serverTokenResponse)) in
      (* non AAD scenarios can have empty realm *)
      ret (Some (createAccessTokenEntity (homeAccountIdentifier σ) env
                   (access_token serverTokenResponse) (clientId this)
                   match idTokenObj with
                   | Some token => js_or (tid (claims token)) (Some "")
                   | None => tenant authority
                   end
                   (Some (printScopes responseScopes))
                   tokenExpirationSeconds extendedTokenExpirationSeconds
                   (token_type serverTokenResponse) oboAssertion))
    else ret None in
  (* refreshToken *)
  let! σ := get in
  let cachedRefreshToken :=
    if negb (isEmpty (refresh_token serverTokenResponse)) then
      Some (createRefreshTokenEntity (homeAccountIdentifier σ) env
              (refresh_token serverTokenResponse) (clientId this)
              (foci serverTokenResponse) oboAssertion)
    else None in
  (* appMetadata *)
  let cachedAppMetadata :=
    if negb (isEmpty (foci serverTokenResponse)) then
      Some (createAppMetadataEntity (clientId this) env
              (foci serverTokenResponse))
    else None in
  ret {| account := identity.2; idToken := identity.1;
         accessToken := cachedAccessToken;
         refreshToken := cachedRefreshToken;
         appMetadata := cachedAppMetadata |}.

(** *** Assembling the result *)

(** [generateAuthenticationResult] (lines 314-351). *)
Definition generateAuthenticationResult (cryptoObj : ICrypto)
    (cacheRecord : CacheRecord) (idTokenObj : option AuthToken)
    (fromTokenCache : bool) (requestState : option RequestStateObject)
    (resourceRequestMethod resourceRequestUri : option string)
    : M State AuthenticationResult :=
  let! fromAccessToken :=
    match accessToken cacheRecord with
    | Some cached =>
        let! accessToken :=
          if bool_decide (at_tokenType cached = Some POP) then
            call popSigner
              (SignPopToken (at_secret cached) resourceRequestMethod
                 resourceRequestUri)
              (signPopToken cryptoObj (at_secret cached)
                 resourceRequestMethod resourceRequestUri)
          else ret (at_secret cached) in
        let! responseScopes :=
          pure_call scopeSetFactory (ScopeSet_fromString (at_target cached)) in
        let expiresOn := newDate (js_mul (at_expiresOn cached) (Num 1000)) in
        let extExpiresOn :=
          newDate (js_mul (at_extendedExpiresOn cached) (Num 1000)) in
        ret (accessToken, asArray responseScopes,
             Some expiresOn, Some extExpiresOn)
    | None => ret (Some "", [], None, None)
    end in
  let '(accessToken, responseScopes, expiresOn, extExpiresOn) :=
    fromAccessToken in
  let familyId :=
    match appMetadata cacheRecord with
    | Some metadata =>
        if truthy (am_familyId metadata) then am_familyId metadata else None
    | None => None
    end in
  let uid :=
    match idTokenObj with
    | Some token => js_or (oid (claims token)) (sub (claims token))
    | None => Some ""
    end in
  let tid :=
    match idTokenObj with
    | Some token => tid (claims token)
    | None => Some ""
    end in
  ret {| res_uniqueId := uid;
         res_tenantId := tid;
         res_scopes := responseScopes;
         res_account := getAccountInfo <$> account cacheRecord;
         res_idToken :=
           match idTokenObj with
           | Some token => rawToken token
           | None => Some ""
           end;
         res_idTokenClaims := claims <$> idTokenObj;
         res_accessToken := accessToken;
         res_fromCache := fromTokenCache;
         res_expiresOn := expiresOn;
         res_extExpiresOn := extExpiresOn;
         res_familyId := familyId;
         res_tokenType :=
           match ResponseHandler.accessToken cacheRecord with
           | Some cached => at_tokenType cached
           | None => Some ""
           end;
         res_state :=
           match requestState with
           | Some state => userRequestState state
           | None => Some ""
           end |}.

(** *** handleServerTokenResponse (lines 103-190), block by block *)

(** Lines 114-123: the home account id from [client_info]. *)
Definition homeAccountIdFromClientInfo (this : ResponseHandler)
    (serverTokenResponse : ServerAuthorizationTokenResponse) : M State unit :=
  if truthy (client_info serverTokenResponse) then
    let! info :=
      pure_call clientInfoDecoder
        (buildClientInfo (client_info serverTokenResponse) (cryptoObj this)) in
    run! modify (set_clientInfo (Some info)) in
    if negb (isEmpty (uid info)) && negb (isEmpty (utid info)) then
      modify (set_homeAccountIdentifier
                (Some (template (uid info) +:+ "." +:+ template (utid info))))
    else ret tt
  else
    modify (set_homeAccountIdentifier (Some "")).

(** Lines 125-136: the id token object and the nonce check. *)
Definition decodeIdToken (this : ResponseHandler)
    (serverTokenResponse : ServerAuthorizationTokenResponse)
    (cachedNonce : option string) : M State (option AuthToken) :=
  if negb (isEmpty (id_token serverTokenResponse)) then
    (* create an idToken object (not entity) *)
    let! idTokenObj :=
      pure_call idTokenDecoder
        (newAuthToken (id_token serverTokenResponse) (cryptoObj this)) in
    (* token nonce check *)
    if negb (isEmpty cachedNonce) then
      if bool_decide (nonce (claims idTokenObj) ≠ cachedNonce) then
        throw NonceMismatchError
      else ret (Some idTokenObj)
    else ret (Some idTokenObj)
  else ret None.

(** Lines 144-153: the fallback to the [sub] claim. *)
Definition homeAccountIdFromSubClaim (idTokenObj : option AuthToken)
    : M State unit :=
  let! σ := get in
  if negb (truthy (homeAccountIdentifier σ)) then
    match idTokenObj with
    | Some token =>
        if truthy (sub (claims token)) then
          let tokenSub := sub (claims token) in
          modify (set_homeAccountIdentifier tokenSub)
        else ret tt
    | None => ret tt
    end
  else ret tt.

(** Lines 114-153: the home account id and the id token object. *)
Definition identify (this : ResponseHandler)
    (serverTokenResponse : ServerAuthorizationTokenResponse)
    (cachedNonce : option string) : M State (option AuthToken) :=
  (* generate homeAccountId *)
  run! homeAccountIdFromClientInfo this serverTokenResponse in
  let! idTokenObj := decodeIdToken this serverTokenResponse cachedNonce in
  run! homeAccountIdFromSubClaim idTokenObj in
  ret idTokenObj.

(** Lines 155-159: the request state. *)
Definition parseCachedState (this : ResponseHandler)
    (cachedState : option string) : M State (option RequestStateObject) :=
  if negb (isEmpty cachedState) then
    let! requestStateObj :=
      pure_call stateParser (parseRequestState (cryptoObj this) cachedState) in
    ret (Some requestStateObj)
  else ret None.

(** Lines 162-188: the access to the store, between the hooks of the
    persistence plug-in. *)
Definition accessStore (this : ResponseHandler) (cacheRecord : CacheRecord)
    (handlingRefreshTokenResponse : bool)
    : M State (Flow (option AuthenticationResult)) :=
  run! modify (set_cacheContext None) in
  try_finally
    (run! match persistencePlugin this, serializableCache this with
          | Some plugin, Some cache =>
              let context := {| tokenCache := cache; hasChanged := true |} in
              run! modify (set_cacheContext (Some context)) in
              call cachePlugin (BeforeCacheAccess context)
                (beforeCacheAccess plugin context)
          | _, _ => ret tt
          end in
     let! guard :=
       match handlingRefreshTokenResponse, account cacheRecord with
       | true, Some cachedAccount =>
           let key := generateAccountKey cachedAccount in
           let! account :=
             query cacheStore (GetAccount key)
               (getAccount (cacheStorage this) key) in
           match account with
           | None => ret (Return None)
           | Some _ => ret Continue
           end
       | _, _ => ret Continue
       end in
     match guard with
     | Return result => ret (Return result)
     | Continue =>
         run! call cacheStore (SaveCacheRecord cacheRecord)
                (saveCacheRecord (cacheStorage this) cacheRecord) in
         ret Continue
     end)
    (let! σ := get in
     match persistencePlugin this, serializableCache this, cacheContext σ with
     | Some plugin, Some _, Some context =>
         call cachePlugin (AfterCacheAccess context)
           (afterCacheAccess plugin context)
     | _, _, _ => ret tt
     end).

(** Lines 114-161: everything before the store is touched. *)
Definition buildCacheRecord (this : ResponseHandler)
    (serverTokenResponse : ServerAuthorizationTokenResponse)
    (authority : Authority) (cachedNonce cachedState : option string)
    (requestScopes : option (list string)) (oboAssertion : option string)
    : M State (option AuthToken * option RequestStateObject * CacheRecord) :=
  let! idTokenObj := identify this serverTokenResponse cachedNonce in
  (* save the response tokens *)
  let! requestStateObj := parseCachedState this cachedState in
  let! cacheRecord :=
    generateCacheRecord this serverTokenResponse idTokenObj authority
      (requestStateObj ≫= libraryState) requestScopes oboAssertion in
  ret (idTokenObj, requestStateObj, cacheRecord).

Definition handleServerTokenResponse (this : ResponseHandler)
    (serverTokenResponse : ServerAuthorizationTokenResponse)
    (authority : Authority)
    (resourceRequestMethod resourceRequestUri : option string)
    (cachedNonce cachedState : option string)
    (requestScopes : option (list string)) (oboAssertion : option string)
    (handlingRefreshTokenResponse : bool)
    : M State (option AuthenticationResult) :=
  let! built :=
    buildCacheRecord this serverTokenResponse authority cachedNonce
      cachedState requestScopes oboAssertion in
  let '(idTokenObj, requestStateObj, cacheRecord) := built in
  let! flow := accessStore this cacheRecord handlingRefreshTokenResponse in
  match flow with
  | Return result => ret result
  | Continue =>
      let! result :=
        generateAuthenticationResult (cryptoObj this) cacheRecord idTokenObj
          false requestStateObj resourceRequestMethod resourceRequestUri in
      ret (Some result)
  end.

(** *** Properties of validation *)

(** An error the server reported, as the validation functions raise it. *)
Definition serverReported (r : Outcome unit) : Prop :=
  ∃ code message suberror,
    r = Throw (InteractionRequiredAuthError code message suberror)
    ∨ r = Throw (ServerError code message suberror).

(** One of [error], [error_description], [suberror] is present. *)
Definition errorPresent (e d s : option string) : bool :=
  truthy e || truthy d || truthy s.

Ltac eff :=
  repeat (progress (unfold bind, ret, throw, modify, get, pure_call, call,
                      query, try_finally in *;
                    cbn beta iota zeta in *)).

Ltac cases := repeat (first [case_match | progress simplify_eq/=]).

Lemma validateTokenResponse_spec this serverResponse σ :
  validateTokenResponse this serverResponse σ =
    (if errorPresent (error serverResponse) (error_description serverResponse)
          (suberror serverResponse)
     then
       if isInteractionRequiredError (error serverResponse)
            (error_description serverResponse) (suberror serverResponse)
       then Throw (InteractionRequiredAuthError (error serverResponse)
                     (error_description serverResponse)
                     (suberror serverResponse))
       else Throw (ServerError (error serverResponse)
                     (Some (template_array (error_codes serverResponse) +:+ " - [" +:+
                            template (timestamp serverResponse) +:+ "]: " +:+
                            template (error_description serverResponse) +:+
                            " - Correlation ID: " +:+
                            template (correlation_id serverResponse) +:+
                            " - Trace ID: " +:+
                            template (trace_id serverResponse)))
                     None)
     else Ok tt, σ).
Proof.
  unfold validateTokenResponse, errorPresent.
  repeat case_match; done.
Qed.

(** C3.  [validateServerAuthorizationCodeResponse] fails with
    [StateMismatchError] exactly when the two states decode and the
    decoded values differ, whatever the error fields and [client_info]
    are; when the decoded states agree it raises a server-reported error
    exactly when one of [error], [error_description], [suberror] is
    present, and [validateTokenResponse] does so for every response: an
    [InteractionRequiredAuthError] when the triple has an
    interaction-required signature, a [ServerError] otherwise.  With none
    of the three present [validateTokenResponse] does nothing.  Neither
    function changes the state. *)
Theorem validation_errors this serverResponseHash cachedState cryptoObj
    serverResponse σ :
  let code := validateServerAuthorizationCodeResponse this serverResponseHash
                cachedState cryptoObj σ in
  let token := validateTokenResponse this serverResponse σ in
  (code.1 = Throw StateMismatchError ↔
     ∃ a b, decodeURIComponent (template (hash_state serverResponseHash)) = Fine a
            ∧ decodeURIComponent (template cachedState) = Fine b
            ∧ a ≠ b)
  ∧ (∀ a, decodeURIComponent (template (hash_state serverResponseHash)) = Fine a →
          decodeURIComponent (template cachedState) = Fine a →
      let present := errorPresent (hash_error serverResponseHash)
                       (hash_error_description serverResponseHash)
                       (hash_suberror serverResponseHash) in
      let required := isInteractionRequiredError (hash_error serverResponseHash)
                        (hash_error_description serverResponseHash)
                        (hash_suberror serverResponseHash) in
      (serverReported code.1 ↔ present = true)
      ∧ (present = true → required = true →
           code.1 = Throw (InteractionRequiredAuthError
                             (hash_error serverResponseHash)
                             (hash_error_description serverResponseHash)
                             (hash_suberror serverResponseHash)))
      ∧ (present = true → required = false →
           code.1 = Throw (ServerError
                             (hash_error serverResponseHash)
                             (hash_error_description serverResponseHash)
                             (hash_suberror serverResponseHash))))
  ∧ (let present := errorPresent (error serverResponse)
                      (error_description serverResponse)
                      (suberror serverResponse) in
     let required := isInteractionRequiredError (error serverResponse)
                       (error_description serverResponse)
                       (suberror serverResponse) in
     (serverReported token.1 ↔ present = true)
     ∧ (present = true → required = true →
          token.1 = Throw (InteractionRequiredAuthError (error serverResponse)
                             (error_description serverResponse)
                             (suberror serverResponse)))
     ∧ (present = true → required = false →
          ∃ message, token.1 = Throw (ServerError (error serverResponse)
                                        (Some message) None))
     ∧ (present = false → token = (Ok tt, σ)))
  ∧ code.2 = σ ∧ token.2 = σ.
Proof.
  intros code token. subst code token.
  rewrite validateTokenResponse_spec.
  unfold validateServerAuthorizationCodeResponse, serverReported.
  fold (errorPresent (hash_error serverResponseHash)
          (hash_error_description serverResponseHash)
          (hash_suberror serverResponseHash)).
  split; [|split; [|split; [|split]]].
  - eff.
    destruct (decodeURIComponent (template (hash_state serverResponseHash)))
      as [a|?]; [|cbn; split; [done | by intros (?&?&?&?&?)]].
    destruct (decodeURIComponent (template cachedState)) as [b|?];
      [|cbn; split; [done | by intros (?&?&?&?&?)]].
    destruct (String.eqb_spec a b) as [->|Hne]; cbn [negb fst].
    + split; [|by intros (?&?&[= <-]&[= <-]&?)].
      cases; done.
    + split; [|done]. intros _. by exists a, b.
  - intros a Ha Hb. eff. rewrite Ha, Hb, String.eqb_refl. cbn [negb].
    destruct (errorPresent _ _ _) eqn:Hp;
      [destruct (isInteractionRequiredError _ _ _) eqn:Hr|]; cbn.
    + split; [split; [done|intros _; eauto 10] | done].
    + split; [split; [done|intros _; eauto 10] | done].
    + split; [|done].
      split; [|done]. intros (c & m & s & [Hs|Hs]); cases; done.
  - cbn zeta.
    destruct (errorPresent _ _ _) eqn:Hp;
      [destruct (isInteractionRequiredError _ _ _) eqn:Hr|]; cbn.
    + split; [split; [done|intros _; eauto 10] | split_and!; eauto; done].
    + split; [split; [done|intros _; eauto 10] | split_and!; eauto; done].
    + split; [|split_and!; eauto; done].
      split; [|done]. by intros (c & m & s & [Hs|Hs]).
  - eff. cases; done.
  - cases; done.
Qed.

(** *** Properties of the mapping to cache entities *)

(** What [pure_call] makes of a collaborator's reply. *)
Definition outcome_of {A} (who : Collaborator) (r : Reply A) : Outcome A :=
  match r with
  | Fine a => Ok a
  | Failed what => Throw (Raised who what)
  end.

Lemma pure_call_spec {A} who (r : Reply A) (σ : State) :
  pure_call who r σ = (outcome_of who r, σ).
Proof. by destruct r. Qed.

(** The scope set of the access token: the one the response declares when
    it declares one, else the one of the request. *)
Definition responseScopesOf (serverTokenResponse : ServerAuthorizationTokenResponse)
    (requestScopes : option (list string)) : Reply ScopeSet :=
  if truthy (scope serverTokenResponse)
  then ScopeSet_fromString (scope serverTokenResponse)
  else ScopeSet_new (default [] requestScopes).

(** The account rules, in the words of the specification: an ADFS authority
    gives a generic account; otherwise an empty [client_info] under the AAD
    protocol mode is a [ClientInfoEmptyError]; otherwise the account is built
    from [client_info] when it is present, else it is a generic account. *)
Definition accountRule (this : ResponseHandler)
    (serverTokenResponse : ServerAuthorizationTokenResponse)
    (idToken : AuthToken) (authority : Authority)
    (oboAssertion : option string) : Outcome AccountEntity :=
  let generic :=
    outcome_of accountFactory
      (createGenericAccount authority idToken oboAssertion) in
  let fromClientInfo :=
    outcome_of accountFactory
      (createAccount (client_info serverTokenResponse) authority idToken
         (cryptoObj this) oboAssertion) in
  match authorityType authority with
  | Adfs => generic
  | Default =>
      if isEmpty (client_info serverTokenResponse)
         && String.eqb (protocolMode authority) "AAD"
      then Throw ClientInfoEmptyError
      else if truthy (client_info serverTokenResponse) then fromClientInfo
      else generic
  end.

Lemma generateAccountEntity_spec this serverTokenResponse idToken authority
    oboAssertion σ :
  generateAccountEntity this serverTokenResponse idToken authority oboAssertion σ
  = (accountRule this serverTokenResponse idToken authority oboAssertion, σ).
Proof.
  unfold generateAccountEntity, accountRule.
  cases; rewrite ?pure_call_spec; done.
Qed.

(** Computations that leave the state as it is. *)
Definition readonly {A} (m : M State A) : Prop := ∀ σ, (m σ).2 = σ.

Lemma readonly_ret {A} (a : A) : readonly (ret a).
Proof. done. Qed.

Lemma readonly_throw {A} e : readonly (throw (A:=A) e).
Proof. done. Qed.

Lemma readonly_get : readonly get.
Proof. done. Qed.

Lemma readonly_pure_call {A} who (r : Reply A) : readonly (pure_call who r).
Proof. intros σ. by rewrite pure_call_spec. Qed.

Lemma readonly_bind {A B} (m : M State A) (k : A → M State B) :
  readonly m → (∀ a, readonly (k a)) → readonly (bind m k).
Proof.
  intros Hm Hk σ. unfold bind. specialize (Hm σ).
  destruct (m σ) as [[a|e] σ1]; cbn in *; subst; [apply Hk | done].
Qed.

Lemma readonly_generateAccountEntity this r t a o :
  readonly (generateAccountEntity this r t a o).
Proof. intros σ. by rewrite generateAccountEntity_spec. Qed.

Ltac readonly :=
  cbn zeta;
  repeat first
    [ apply readonly_ret | apply readonly_throw | apply readonly_get
    | apply readonly_pure_call | apply readonly_generateAccountEntity
    | apply readonly_bind; [|intros ?]
    | case_match ].

Lemma readonly_generateCacheRecord this r t a l s o :
  readonly (generateCacheRecord this r t a l s o).
Proof. unfold generateCacheRecord. readonly. Qed.

Lemma readonly_run {A} (m : M State A) σ : readonly m → m σ = ((m σ).1, σ).
Proof. intros Hm. rewrite <- (Hm σ) at 3. by destruct (m σ). Qed.


(** The timestamp expirations are counted from. *)
Definition baselineOf (libraryState : option LibraryStateObject) (w : W) : Z :=
  match libraryState with
  | Some state => ts state
  | None => nowSeconds w
  end.

(** The realm of the access token. *)
Definition realmOf (idTokenObj : option AuthToken) (authority : Authority)
    : option string :=
  match idTokenObj with
  | Some token => js_or (tid (claims token)) (Some "")
  | None => tenant authority
  end.

(** What a successful run of [generateCacheRecord] has done. *)
Lemma generateCacheRecord_Ok this serverTokenResponse idTokenObj authority
    libraryState requestScopes oboAssertion σ cacheRecord σ' :
  generateCacheRecord this serverTokenResponse idTokenObj authority
    libraryState requestScopes oboAssertion σ = (Ok cacheRecord, σ') →
  let env := generateEnvironmentFromAuthority authority in
  let home := homeAccountIdentifier σ in
  σ' = σ
  ∧ isEmpty env = false
  ∧ (if truthy (id_token serverTokenResponse)
     then ∃ token cachedAccount,
       idTokenObj = Some token
       ∧ accountRule this serverTokenResponse token authority oboAssertion
         = Ok cachedAccount
       ∧ idToken cacheRecord
         = Some (createIdTokenEntity home env (id_token serverTokenResponse)
                   (clientId this) (js_or (tid (claims token)) (Some ""))
                   oboAssertion)
       ∧ account cacheRecord = Some cachedAccount
     else idToken cacheRecord = None ∧ account cacheRecord = None)
  ∧ (if truthy (access_token serverTokenResponse)
     then ∃ responseScopes,
       responseScopesOf serverTokenResponse requestScopes = Fine responseScopes
       ∧ accessToken cacheRecord
         = Some (createAccessTokenEntity home env
                   (access_token serverTokenResponse) (clientId this)
                   (realmOf idTokenObj authority)
                   (Some (printScopes responseScopes))
                   (js_add (toDouble (baselineOf libraryState (world σ)))
                      (toNumber (expires_in serverTokenResponse)))
                   (js_add
                      (js_add (toDouble (baselineOf libraryState (world σ)))
                         (toNumber (expires_in serverTokenResponse)))
                      (toNumber (ext_expires_in serverTokenResponse)))
                   (token_type serverTokenResponse) oboAssertion)
     else accessToken cacheRecord = None)
  ∧ refreshToken cacheRecord
    = (if truthy (refresh_token serverTokenResponse)
       then Some (createRefreshTokenEntity home env
                    (refresh_token serverTokenResponse) (clientId this)
                    (foci serverTokenResponse) oboAssertion)
       else None)
  ∧ appMetadata cacheRecord
    = (if truthy (foci serverTokenResponse)
       then Some (createAppMetadataEntity (clientId this) env
                    (foci serverTokenResponse))
       else None).
Proof.
  intros Hrun env home.
  assert (σ' = σ) as ->.
  { pose proof (readonly_generateCacheRecord this serverTokenResponse
      idTokenObj authority libraryState requestScopes oboAssertion σ) as Hro.
    by rewrite Hrun in Hro. }
  unfold generateCacheRecord in Hrun. fold env in Hrun.
  rewrite !truthy_isEmpty.
  destruct (isEmpty env) eqn:Henv; [discriminate|].
  apply bind_Ok_inv in Hrun as (identity & σ1 & Hid & Hrun).
  apply bind_Ok_inv in Hrun as (cached & σ2 & Hat & Hrun).
  apply bind_Ok_inv in Hrun as (σ3 & σ4 & Hget & Hrun).
  assert (σ1 = σ) as ->.
  { revert Hid. match goal with |- ?m σ = _ → _ =>
      intros Hid; assert (readonly m) as Hro by readonly;
      specialize (Hro σ); by rewrite Hid in Hro end. }
  assert (σ2 = σ) as ->.
  { revert Hat. match goal with |- ?m σ = _ → _ =>
      intros Hat; assert (readonly m) as Hro by readonly;
      specialize (Hro σ); by rewrite Hat in Hro end. }
  unfold get, ret in Hget, Hrun. simplify_eq/=.
  split; [done|]. split; [done|]. split_and!; [| |done|done].
  - destruct (isEmpty (id_token serverTokenResponse)); cbn [negb] in *.
    + unfold ret in Hid. by simplify_eq/=.
    + destruct idTokenObj as [token|]; [|discriminate].
      apply bind_Ok_inv in Hid as (σ5 & σ6 & Hget & Hid).
      unfold get in Hget. simplify_eq/=.
      apply bind_Ok_inv in Hid as (acct & σ7 & Hacct & Hid).
      rewrite generateAccountEntity_spec in Hacct.
      unfold ret in Hid. simplify_eq/=. eauto 10.
  - destruct (isEmpty (access_token serverTokenResponse)); cbn [negb] in *.
    + unfold ret in Hat. by simplify_eq/=.
    + apply bind_Ok_inv in Hat as (sc & σ5 & Hsc & Hat).
      apply bind_Ok_inv in Hat as (σ6 & σ7 & Hget & Hat).
      unfold get, ret in Hget, Hat. simplify_eq/=.
      exists sc. split;
        [|unfold home, realmOf, baselineOf; by destruct libraryState].
      unfold responseScopesOf.
      destruct (truthy (scope serverTokenResponse));
        by apply pure_call_Ok_inv in Hsc as [-> _].
Qed.

(** The errors of [generateCacheRecord] and where they come from. *)
Lemma generateCacheRecord_Throw this serverTokenResponse idTokenObj authority
    libraryState requestScopes oboAssertion σ e σ' :
  generateCacheRecord this serverTokenResponse idTokenObj authority
    libraryState requestScopes oboAssertion σ = (Throw e, σ') →
  let env := generateEnvironmentFromAuthority authority in
  (isEmpty env = true ∧ e = InvalidCacheEnvironmentError)
  ∨ (isEmpty env = false
     ∧ truthy (id_token serverTokenResponse) = true
     ∧ ((idTokenObj = None ∧ e = TypeError)
        ∨ ∃ token, idTokenObj = Some token
            ∧ accountRule this serverTokenResponse token authority oboAssertion
              = Throw e))
  ∨ (isEmpty env = false
     ∧ truthy (access_token serverTokenResponse) = true
     ∧ ∃ what, responseScopesOf serverTokenResponse requestScopes = Failed what
         ∧ e = Raised scopeSetFactory what).
Proof.
  intros Hrun env. unfold generateCacheRecord in Hrun. fold env in Hrun.
  rewrite !truthy_isEmpty.
  destruct (isEmpty env) eqn:Henv.
  { left. unfold throw in Hrun. by simplify_eq. }
  right. apply bind_Throw_inv in Hrun as [Hid|(identity & σ1 & _ & Hrun)].
  - left. split; [done|].
    destruct (isEmpty (id_token serverTokenResponse)); cbn [negb] in *;
      [discriminate|]. split; [done|].
    destruct idTokenObj as [token|];
      [|left; unfold throw in Hid; by simplify_eq].
    right. exists token. split; [done|].
    apply bind_Throw_inv in Hid as [Hget|(σ2 & σ3 & Hget & Hid)];
      [discriminate|].
    unfold get in Hget. simplify_eq.
    apply bind_Throw_inv in Hid as [Hacct|(acct & σ4 & _ & Hid)];
      [|discriminate].
    rewrite generateAccountEntity_spec in Hacct. by simplify_eq.
  - right. split; [done|].
    apply bind_Throw_inv in Hrun as [Hat|(cached & σ2 & _ & Hrun)].
    + destruct (isEmpty (access_token serverTokenResponse)); cbn [negb] in *;
        [discriminate|]. split; [done|].
      apply bind_Throw_inv in Hat as [Hsc|(sc & σ3 & _ & Hat)].
      * unfold responseScopesOf.
        destruct (truthy (scope serverTokenResponse));
          apply pure_call_Throw_inv in Hsc as (what & -> & -> & _); eauto.
      * apply bind_Throw_inv in Hat as [Hget|(? & ? & _ & Hat)]; discriminate.
    + apply bind_Throw_inv in Hrun as [Hget|(? & ? & _ & Hrun)]; discriminate.
Qed.

(** When [generateCacheRecord] succeeds. *)
Lemma generateCacheRecord_total this serverTokenResponse idTokenObj authority
    libraryState requestScopes oboAssertion σ :
  isEmpty (generateEnvironmentFromAuthority authority) = false →
  (truthy (id_token serverTokenResponse) = true →
   ∃ token cachedAccount, idTokenObj = Some token
     ∧ accountRule this serverTokenResponse token authority oboAssertion
       = Ok cachedAccount) →
  (truthy (access_token serverTokenResponse) = true →
   ∃ responseScopes,
     responseScopesOf serverTokenResponse requestScopes = Fine responseScopes) →
  ∃ cacheRecord,
    generateCacheRecord this serverTokenResponse idTokenObj authority
      libraryState requestScopes oboAssertion σ = (Ok cacheRecord, σ).
Proof.
  intros Henv Hid Hat.
  destruct (generateCacheRecord this serverTokenResponse idTokenObj authority
              libraryState requestScopes oboAssertion σ) as [[rec|e] σ'] eqn:Hrun.
  - apply generateCacheRecord_Ok in Hrun as Hok. destruct Hok as [-> _]. eauto.
  - exfalso. apply generateCacheRecord_Throw in Hrun.
    destruct Hrun as [[? _]|[(_ & Ht & Hrun)|(_ & Ht & what & Hsc & _)]].
    + congruence.
    + destruct (Hid Ht) as (token & acct & -> & Hacct).
      destruct Hrun as [[? _]|(? & [= <-] & ?)]; congruence.
    + destruct (Hat Ht) as (sc & ?). congruence.
Qed.

Lemma accountRule_Throw this serverTokenResponse idToken authority oboAssertion e :
  accountRule this serverTokenResponse idToken authority oboAssertion = Throw e →
  e = ClientInfoEmptyError ∨ ∃ what, e = Raised accountFactory what.
Proof.
  unfold accountRule, outcome_of. intros Hrule.
  repeat case_match; simplify_eq; eauto.
Qed.

(** C7.  [generateCacheRecord] fails with [InvalidCacheEnvironmentError]
    exactly when the environment of the authority is empty.  A record it
    returns has an id token entity and an account exactly when [id_token] is
    present, the account being the one of the account rules ([accountRule],
    which is what [generateAccountEntity] computes); an access token entity
    exactly when [access_token] is present, with the scopes of the response
    when it declares some and those of the request otherwise; a refresh
    token entity exactly when [refresh_token] is present; an app metadata
    entity exactly when [foci] is present.  It returns a record whenever the
    environment is not empty and the collaborators it needs answer. *)
Theorem cache_record_slots this serverTokenResponse idTokenObj authority
    libraryState requestScopes oboAssertion σ :
  let env := generateEnvironmentFromAuthority authority in
  let run := generateCacheRecord this serverTokenResponse idTokenObj authority
               libraryState requestScopes oboAssertion σ in
  (run.1 = Throw InvalidCacheEnvironmentError ↔ isEmpty env = true)
  ∧ (∀ cacheRecord, run.1 = Ok cacheRecord →
       (is_Some (idToken cacheRecord) ↔ truthy (id_token serverTokenResponse) = true)
       ∧ (is_Some (account cacheRecord) ↔ truthy (id_token serverTokenResponse) = true)
       ∧ (∀ cachedAccount, account cacheRecord = Some cachedAccount →
            ∃ token, idTokenObj = Some token
              ∧ accountRule this serverTokenResponse token authority oboAssertion
                = Ok cachedAccount)
       ∧ (is_Some (accessToken cacheRecord) ↔
            truthy (access_token serverTokenResponse) = true)
       ∧ (∀ cached, accessToken cacheRecord = Some cached →
            ∃ responseScopes,
              responseScopesOf serverTokenResponse requestScopes = Fine responseScopes
              ∧ at_target cached = Some (printScopes responseScopes)
              ∧ at_secret cached = access_token serverTokenResponse)
       ∧ (is_Some (refreshToken cacheRecord) ↔
            truthy (refresh_token serverTokenResponse) = true)
       ∧ (is_Some (appMetadata cacheRecord) ↔
            truthy (foci serverTokenResponse) = true))
  ∧ (∀ token,
       generateAccountEntity this serverTokenResponse token authority
         oboAssertion σ
       = (accountRule this serverTokenResponse token authority oboAssertion, σ))
  ∧ (isEmpty env = false →
     (truthy (id_token serverTokenResponse) = true →
      ∃ token cachedAccount, idTokenObj = Some token
        ∧ accountRule this serverTokenResponse token authority oboAssertion
          = Ok cachedAccount) →
     (truthy (access_token serverTokenResponse) = true →
      ∃ responseScopes,
        responseScopesOf serverTokenResponse requestScopes = Fine responseScopes) →
     ∃ cacheRecord, run = (Ok cacheRecord, σ)).
Proof.
  intros env run.
  pose proof (readonly_run _ σ
    (readonly_generateCacheRecord this serverTokenResponse idTokenObj
       authority libraryState requestScopes oboAssertion)) as Hrun.
  fold run in Hrun.
  split; [|split; [|split]].
  - split.
    + intros Hthrow. rewrite Hthrow in Hrun.
      apply generateCacheRecord_Throw in Hrun.
      destruct Hrun as [[? _]|[(_ & _ & Hid)|(_ & _ & what & _ & ?)]];
        [done| |done].
      destruct Hid as [[_ ?]|(token & _ & Hacct)]; [done|].
      apply accountRule_Throw in Hacct as [?|[? ?]]; done.
    + intros Henv. subst run. unfold generateCacheRecord.
      fold env. by rewrite Henv.
  - intros cacheRecord Hok. rewrite Hok in Hrun.
    apply generateCacheRecord_Ok in Hrun
      as (_ & _ & Hid & Hat & Hrt & Ham).
    rewrite Hrt, Ham.
    destruct (truthy (id_token serverTokenResponse));
      destruct (truthy (access_token serverTokenResponse));
      destruct (truthy (refresh_token serverTokenResponse));
      destruct (truthy (foci serverTokenResponse));
      repeat match goal with
             | H : ∃ _, _ |- _ => destruct H
             | H : _ ∧ _ |- _ => destruct H
             end;
      repeat match goal with
             | H : _ cacheRecord = _ |- _ => rewrite H
             end;
      split_and!;
      try (split; [by intros []|done]);
      try (split; [done|eauto]);
      try (intros ? [= <-]; cbn; eauto);
      try done.
  - intros token. apply generateAccountEntity_spec.
  - intros Henv Hid Hat. by apply generateCacheRecord_total.
Qed.

(** *** The blocks of handleServerTokenResponse *)

(** Computations that neither touch the world nor call a stateful
    collaborator. *)
Definition silent {A} (m : M State A) : Prop :=
  ∀ σ, world (m σ).2 = world σ ∧ trace (m σ).2 = trace σ.

Lemma silent_readonly {A} (m : M State A) : readonly m → silent m.
Proof. intros Hm σ. by rewrite Hm. Qed.

Lemma silent_modify (f : State → State) :
  (∀ σ, world (f σ) = world σ ∧ trace (f σ) = trace σ) → silent (modify f).
Proof. intros Hf σ. apply Hf. Qed.

Lemma silent_bind {A B} (m : M State A) (k : A → M State B) :
  silent m → (∀ a, silent (k a)) → silent (bind m k).
Proof.
  intros Hm Hk σ. unfold bind. specialize (Hm σ).
  destruct (m σ) as [[a|e] σ1]; cbn in *; [|done].
  destruct (Hk a σ1) as [-> ->]. done.
Qed.

Ltac silent :=
  cbn zeta;
  repeat first
    [ apply silent_modify; done
    | apply silent_readonly; solve [readonly]
    | apply silent_bind; [|intros ?]
    | case_match ].

Lemma homeAccountIdFromClientInfo_spec this serverTokenResponse σ :
  homeAccountIdFromClientInfo this serverTokenResponse σ =
    if truthy (client_info serverTokenResponse) then
      match buildClientInfo (client_info serverTokenResponse) (cryptoObj this) with
      | Fine info =>
          (Ok tt,
           if negb (isEmpty (uid info)) && negb (isEmpty (utid info))
           then set_homeAccountIdentifier
                  (Some (template (uid info) +:+ "." +:+ template (utid info)))
                  (set_clientInfo (Some info) σ)
           else set_clientInfo (Some info) σ)
      | Failed what => (Throw (Raised clientInfoDecoder what), σ)
      end
    else (Ok tt, set_homeAccountIdentifier (Some "") σ).
Proof.
  unfold homeAccountIdFromClientInfo.
  destruct (truthy (client_info serverTokenResponse)); [|done].
  unfold bind. rewrite pure_call_spec.
  destruct (buildClientInfo _ _) as [info|what]; cbn; [|done].
  by destruct (negb (isEmpty (uid info)) && negb (isEmpty (utid info))).
Qed.

(** What the nonce check lets through. *)
Definition nonceAccepted (cachedNonce : option string) (token : AuthToken) : Prop :=
  isEmpty cachedNonce = true ∨ nonce (claims token) = cachedNonce.

Lemma decodeIdToken_spec this serverTokenResponse cachedNonce σ :
  decodeIdToken this serverTokenResponse cachedNonce σ =
    (if truthy (id_token serverTokenResponse) then
       match newAuthToken (id_token serverTokenResponse) (cryptoObj this) with
       | Fine token =>
           if truthy cachedNonce
              && bool_decide (nonce (claims token) ≠ cachedNonce)
           then Throw NonceMismatchError
           else Ok (Some token)
       | Failed what => Throw (Raised idTokenDecoder what)
       end
     else Ok None, σ).
Proof.
  unfold decodeIdToken. rewrite !truthy_isEmpty.
  destruct (isEmpty (id_token serverTokenResponse)); [done|]. cbn [negb].
  unfold bind. rewrite pure_call_spec.
  destruct (newAuthToken _ _) as [token|what]; cbn; [|done].
  destruct (isEmpty cachedNonce); cbn; [done|]. by case_bool_decide.
Qed.

Lemma homeAccountIdFromSubClaim_spec idTokenObj σ :
  homeAccountIdFromSubClaim idTokenObj σ =
    (Ok tt,
     if truthy (homeAccountIdentifier σ) then σ
     else match idTokenObj with
          | Some token =>
              if truthy (sub (claims token))
              then set_homeAccountIdentifier (sub (claims token)) σ
              else σ
          | None => σ
          end).
Proof.
  unfold homeAccountIdFromSubClaim, bind, get.
  destruct (truthy (homeAccountIdentifier σ)); [done|]. cbn [negb].
  destruct idTokenObj as [token|]; [|done].
  by destruct (truthy (sub (claims token))).
Qed.

Lemma parseCachedState_spec this cachedState σ :
  parseCachedState this cachedState σ =
    (if truthy cachedState then
       match parseRequestState (cryptoObj this) cachedState with
       | Fine requestStateObj => Ok (Some requestStateObj)
       | Failed what => Throw (Raised stateParser what)
       end
     else Ok None, σ).
Proof.
  unfold parseCachedState. rewrite truthy_isEmpty.
  destruct (isEmpty cachedState); [done|]. cbn [negb].
  unfold bind. rewrite pure_call_spec.
  by destruct (parseRequestState _ _).
Qed.

Lemma silent_identify this serverTokenResponse cachedNonce :
  silent (identify this serverTokenResponse cachedNonce).
Proof.
  unfold identify. apply silent_bind; [|intros _; apply silent_bind; [|intros tok]].
  - intros σ. rewrite homeAccountIdFromClientInfo_spec. by cases.
  - intros σ. by rewrite decodeIdToken_spec.
  - apply silent_bind; [|intros ?; by apply silent_readonly].
    intros σ. rewrite homeAccountIdFromSubClaim_spec. by cases.
Qed.

Lemma silent_buildCacheRecord this serverTokenResponse authority cachedNonce
    cachedState requestScopes oboAssertion :
  silent (buildCacheRecord this serverTokenResponse authority cachedNonce
            cachedState requestScopes oboAssertion).
Proof.
  unfold buildCacheRecord.
  apply silent_bind; [apply silent_identify|intros tok].
  apply silent_bind; [|intros rso].
  - intros σ. by rewrite parseCachedState_spec.
  - apply silent_bind; [|intros ?; by apply silent_readonly].
    apply silent_readonly, readonly_generateCacheRecord.
Qed.

(** A successful run of the blocks before the store is touched. *)
Lemma buildCacheRecord_Ok this serverTokenResponse authority cachedNonce
    cachedState requestScopes oboAssertion σ idTokenObj requestStateObj
    cacheRecord σ1 :
  buildCacheRecord this serverTokenResponse authority cachedNonce cachedState
    requestScopes oboAssertion σ
    = (Ok (idTokenObj, requestStateObj, cacheRecord), σ1) →
  identify this serverTokenResponse cachedNonce σ = (Ok idTokenObj, σ1)
  ∧ parseCachedState this cachedState σ1 = (Ok requestStateObj, σ1)
  ∧ generateCacheRecord this serverTokenResponse idTokenObj authority
      (requestStateObj ≫= libraryState) requestScopes oboAssertion σ1
    = (Ok cacheRecord, σ1).
Proof.
  unfold buildCacheRecord. intros Hrun.
  apply bind_Ok_inv in Hrun as (tok & σa & Hid & Hrun).
  apply bind_Ok_inv in Hrun as (rso & σb & Hst & Hrun).
  apply bind_Ok_inv in Hrun as (rec & σc & Hrec & Hrun).
  unfold ret in Hrun. simplify_eq.
  assert (σb = σa) as ->.
  { rewrite parseCachedState_spec in Hst. by simplify_eq. }
  apply generateCacheRecord_Ok in Hrec as Hσ. destruct Hσ as [-> _].
  done.
Qed.

Lemma identify_Ok this serverTokenResponse cachedNonce σ idTokenObj σ1 :
  identify this serverTokenResponse cachedNonce σ = (Ok idTokenObj, σ1) →
  ∃ σa,
    homeAccountIdFromClientInfo this serverTokenResponse σ = (Ok tt, σa)
    ∧ decodeIdToken this serverTokenResponse cachedNonce σa = (Ok idTokenObj, σa)
    ∧ homeAccountIdFromSubClaim idTokenObj σa = (Ok tt, σ1).
Proof.
  unfold identify. intros Hrun.
  apply bind_Ok_inv in Hrun as ([] & σa & Hci & Hrun).
  apply bind_Ok_inv in Hrun as (tok & σb & Htok & Hrun).
  apply bind_Ok_inv in Hrun as ([] & σc & Hsub & Hrun).
  unfold ret in Hrun. simplify_eq.
  assert (σb = σa) as ->.
  { rewrite decodeIdToken_spec in Htok. by simplify_eq. }
  eauto.
Qed.

(** *** The access to the store *)

Definition isStoreEvent (ev : Event) : bool :=
  match ev with
  | GetAccount _ _ | SaveCacheRecord _ _ => true
  | _ => false
  end.

Definition isSaveEvent (ev : Event) : bool :=
  match ev with
  | SaveCacheRecord _ _ => true
  | _ => false
  end.

Definition isSignEvent (ev : Event) : bool :=
  match ev with
  | SignPopToken _ _ _ _ => true
  | _ => false
  end.

Ltac explode := repeat (case_match; cbn in *; simplify_eq).

Ltac list_eq H :=
  rewrite <- ?app_assoc in H; cbn [app] in H;
  apply app_inv_head in H; subst.

(** The events of the store access when the persistence plug-in and the
    serializable cache are configured: the two hooks, once each and with
    the same context, around the calls to the store; a failure of the store
    reaches the caller if [afterCacheAccess] succeeds. *)
Lemma accessStore_hooks this plugin cache cacheRecord handling σ :
  persistencePlugin this = Some plugin →
  serializableCache this = Some cache →
  let context := {| tokenCache := cache; hasChanged := true |} in
  let run := accessStore this cacheRecord handling σ in
  ∃ before mid after,
    trace run.2
    = trace σ ++ BeforeCacheAccess context before :: mid
        ++ [AfterCacheAccess context after]
    ∧ forallb isStoreEvent mid = true
    ∧ (∀ what, run.1 = Throw (Raised cacheStore what) →
         before = Fine tt ∧ after = Fine tt
         ∧ ∃ mid' failed, mid = mid' ++ [failed]
             ∧ (failed = SaveCacheRecord cacheRecord (Failed what)
                ∨ ∃ key, failed = GetAccount key (Failed what)))
    ∧ (∀ what, after = Fine tt →
         (SaveCacheRecord cacheRecord (Failed what) ∈ mid
          ∨ ∃ key, GetAccount key (Failed what) ∈ mid) →
         run.1 = Throw (Raised cacheStore what)).
Proof.
  intros Hp Hc context run. subst context run.
  unfold accessStore. rewrite Hp, Hc. eff. explode.
  all: cbn; rewrite <- ?app_assoc; cbn [app].
  all: repeat match goal with u : unit |- _ => destruct u end.
  all: first [ eexists _, [], _; split; [reflexivity|]
             | eexists _, [_], _; split; [reflexivity|]
             | eexists _, [_; _], _; split; [reflexivity|] ].
  all: (split; [done|]).
  all: split; [intros ? [=]; subst; split_and!; try done|].
  all: try (by eexists [], _; split; [reflexivity|]; eauto).
  all: try (by eexists [_], _; split; [reflexivity|]; eauto).
  all: intros ? ? ?; set_unfold; naive_solver.
Qed.

(** The store access in general: what it logs, and what it hands on. *)
Lemma accessStore_events this cacheRecord handling σ :
  let run := accessStore this cacheRecord handling σ in
  ∃ evs, trace run.2 = trace σ ++ evs
    ∧ forallb (λ ev, negb (isSignEvent ev)) evs = true
    ∧ (∀ saved reply, SaveCacheRecord saved reply ∈ evs → saved = cacheRecord)
    ∧ (∀ result, run.1 = Ok (Return result) → result = None)
    ∧ (run.1 = Ok Continue → SaveCacheRecord cacheRecord (Fine tt) ∈ evs)
    ∧ (persistencePlugin this = None ∨ serializableCache this = None →
       forallb isStoreEvent evs = true).
Proof.
  intros run. subst run. unfold accessStore. eff. explode.
  all: cbn; rewrite <- ?app_assoc; cbn [app].
  all: repeat match goal with u : unit |- _ => destruct u end.
  all: first [ eexists; split; [reflexivity|]
             | exists []; split; [by rewrite app_nil_r|] ].
  all: split_and!; try done.
  all: try (intros ? ? ?; set_unfold; naive_solver).
  all: try (intros ?; set_unfold; naive_solver).
  all: try (intros [?|?]; congruence).
Qed.

(** *** Properties of the assembled result *)

(** The part of the result that is read off the access token entity. *)
Lemma generateAuthenticationResult_Ok cryptoObj cacheRecord idTokenObj
    fromTokenCache requestState resourceRequestMethod resourceRequestUri σ
    result σ' :
  generateAuthenticationResult cryptoObj cacheRecord idTokenObj fromTokenCache
    requestState resourceRequestMethod resourceRequestUri σ = (Ok result, σ') →
  res_account result = getAccountInfo <$> account cacheRecord
  ∧ res_state result
    = match requestState with
      | Some state => userRequestState state
      | None => Some ""
      end
  ∧ res_fromCache result = fromTokenCache
  ∧ match accessToken cacheRecord with
    | Some cached =>
        res_expiresOn result
          = Some (newDate (js_mul (at_expiresOn cached) (Num 1000)))
        ∧ res_extExpiresOn result
          = Some (newDate (js_mul (at_extendedExpiresOn cached) (Num 1000)))
        ∧ res_tokenType result = at_tokenType cached
        ∧ (∃ responseScopes,
             ScopeSet_fromString (at_target cached) = Fine responseScopes
             ∧ res_scopes result = asArray responseScopes)
        ∧ (if bool_decide (at_tokenType cached = Some POP)
           then ∃ w,
             signPopToken cryptoObj (at_secret cached) resourceRequestMethod
               resourceRequestUri (world σ)
             = (Fine (res_accessToken result), w)
             ∧ σ' = set_world w
                      (SignPopToken (at_secret cached) resourceRequestMethod
                         resourceRequestUri (Fine (res_accessToken result))) σ
           else res_accessToken result = at_secret cached ∧ σ' = σ)
    | None =>
        res_expiresOn result = None ∧ res_extExpiresOn result = None
        ∧ res_tokenType result = Some "" ∧ res_scopes result = []
        ∧ res_accessToken result = Some "" ∧ σ' = σ
    end.
Proof.
  unfold generateAuthenticationResult. eff. intros Hrun.
  explode; split_and!; eauto.
Qed.

(** The result is assembled whenever the signer (for a PoP token) and the
    scope set answer. *)
Lemma generateAuthenticationResult_total cryptoObj cacheRecord idTokenObj
    fromTokenCache requestState resourceRequestMethod resourceRequestUri σ :
  match accessToken cacheRecord with
  | Some cached =>
      (∃ responseScopes,
         ScopeSet_fromString (at_target cached) = Fine responseScopes)
      ∧ (at_tokenType cached = Some POP →
         ∃ signed w,
           signPopToken cryptoObj (at_secret cached) resourceRequestMethod
             resourceRequestUri (world σ) = (Fine signed, w))
  | None => True
  end →
  ∃ result σ',
    generateAuthenticationResult cryptoObj cacheRecord idTokenObj fromTokenCache
      requestState resourceRequestMethod resourceRequestUri σ = (Ok result, σ').
Proof.
  unfold generateAuthenticationResult. eff.
  destruct (accessToken cacheRecord) as [cached|]; [|eauto].
  intros [[sc Hsc] Hpop]. rewrite Hsc.
  case_bool_decide as Ht; [|eauto].
  destruct (Hpop Ht) as (signed & w & ->). eauto.
Qed.

Lemma generateAuthenticationResult_events cryptoObj cacheRecord idTokenObj
    fromTokenCache requestState resourceRequestMethod resourceRequestUri σ :
  let run := generateAuthenticationResult cryptoObj cacheRecord idTokenObj
               fromTokenCache requestState resourceRequestMethod
               resourceRequestUri σ in
  ∃ evs, trace run.2 = trace σ ++ evs
    ∧ forallb isSignEvent evs = true
    ∧ (∀ who what, run.1 = Throw (Raised who what) →
       who = popSigner ∨ who = scopeSetFactory)
    ∧ (∀ e, run.1 = Throw e → ∃ who what, e = Raised who what).
Proof.
  intros run. subst run. unfold generateAuthenticationResult. eff.
  explode; cbn.
  all: first [ eexists; split; [reflexivity|]
             | exists []; split; [by rewrite app_nil_r|] ].
  all: split_and!; try done; intros; simplify_eq; eauto.
Qed.

(** *** The whole of handleServerTokenResponse *)

Lemma handleServerTokenResponse_cases this serverTokenResponse authority
    resourceRequestMethod resourceRequestUri cachedNonce cachedState
    requestScopes oboAssertion handling σ :
  let run := handleServerTokenResponse this serverTokenResponse authority
               resourceRequestMethod resourceRequestUri cachedNonce cachedState
               requestScopes oboAssertion handling σ in
  match buildCacheRecord this serverTokenResponse authority cachedNonce
          cachedState requestScopes oboAssertion σ with
  | (Throw e, σ1) => run = (Throw e, σ1)
  | (Ok (idTokenObj, requestStateObj, cacheRecord), σ1) =>
      match accessStore this cacheRecord handling σ1 with
      | (Throw e, σ2) => run = (Throw e, σ2)
      | (Ok (Return result), σ2) => run = (Ok result, σ2)
      | (Ok Continue, σ2) =>
          match generateAuthenticationResult (cryptoObj this) cacheRecord
                  idTokenObj false requestStateObj resourceRequestMethod
                  resourceRequestUri σ2 with
          | (Ok result, σ3) => run = (Ok (Some result), σ3)
          | (Throw e, σ3) => run = (Throw e, σ3)
          end
      end
  end.
Proof.
  intros run. subst run. unfold handleServerTokenResponse, bind.
  destruct (buildCacheRecord _ _ _ _ _ _ _ _) as [[[[tok rso] rec]|e] σ1];
    [|done].
  destruct (accessStore _ _ _ _) as [[[|result]|e] σ2]; [|done|done].
  by destruct (generateAuthenticationResult _ _ _ _ _ _ _ _) as [[res|e] σ3].
Qed.

(** The events of a call: none while the record is built, then those of the
    store access, then those of the assembly of the result. *)
Lemma handleServerTokenResponse_trace this serverTokenResponse authority
    resourceRequestMethod resourceRequestUri cachedNonce cachedState
    requestScopes oboAssertion handling σ evs :
  let run := handleServerTokenResponse this serverTokenResponse authority
               resourceRequestMethod resourceRequestUri cachedNonce cachedState
               requestScopes oboAssertion handling σ in
  trace run.2 = trace σ ++ evs →
  match buildCacheRecord this serverTokenResponse authority cachedNonce
          cachedState requestScopes oboAssertion σ with
  | (Throw e, σ1) =>
      evs = [] ∧ run = (Throw e, σ1) ∧ world σ1 = world σ
  | (Ok (idTokenObj, requestStateObj, cacheRecord), σ1) =>
      let store := accessStore this cacheRecord handling σ1 in
      world σ1 = world σ ∧ trace σ1 = trace σ
      ∧ ∃ evs1 evs2,
          evs = evs1 ++ evs2
          ∧ trace store.2 = trace σ1 ++ evs1
          ∧ forallb isSignEvent evs2 = true
          ∧ match store.1 with
            | Throw e => run = (Throw e, store.2) ∧ evs2 = []
            | Ok (Return result) => run = (Ok result, store.2) ∧ evs2 = []
            | Ok Continue =>
                (∀ who what, run.1 = Throw (Raised who what) →
                   who = popSigner ∨ who = scopeSetFactory)
                ∧ (∀ result, run.1 = Ok result → is_Some result)
                ∧ run =
                  match generateAuthenticationResult (cryptoObj this)
                          cacheRecord idTokenObj false requestStateObj
                          resourceRequestMethod resourceRequestUri store.2 with
                  | (Ok result, σ3) => (Ok (Some result), σ3)
                  | (Throw e, σ3) => (Throw e, σ3)
                  end
            end
  end.
Proof.
  intros run Htrace.
  pose proof (handleServerTokenResponse_cases this serverTokenResponse
    authority resourceRequestMethod resourceRequestUri cachedNonce cachedState
    requestScopes oboAssertion handling σ) as Hcases.
  pose proof (silent_buildCacheRecord this serverTokenResponse authority
    cachedNonce cachedState requestScopes oboAssertion σ) as [Hw Ht].
  cbn zeta in Hcases. fold run in Hcases.
  destruct (buildCacheRecord _ _ _ _ _ _ _ _) as [[[[tok rso] rec]|e] σ1];
    cbn [snd] in Hw, Ht.
  - split; [done|]. split; [done|].
    destruct (accessStore_events this rec handling σ1)
      as (evs1 & Hev1 & Hns & _).
    destruct (accessStore this rec handling σ1) as [[[|result]|e] σ2] eqn:Hst;
      cbn [fst snd] in *.
    + destruct (generateAuthenticationResult_events (cryptoObj this) rec tok
                  false rso resourceRequestMethod resourceRequestUri σ2)
        as (evs2 & Hev2 & Hs & Hwho & _).
      exists evs1, evs2.
      destruct (generateAuthenticationResult _ _ _ _ _ _ _ _)
        as [[res|e] σ3]; cbn [fst snd] in *;
        rewrite Hcases in Htrace; cbn [snd] in Htrace;
        rewrite Hev2, Hev1, Ht, <- app_assoc in Htrace;
        apply app_inv_head in Htrace as <-;
        rewrite Hcases; cbn [fst]; split_and!; try done.
      * by intros ? [= <-].
      * intros who what [= ->]. eauto.
    + exists evs1, []. rewrite Hcases in Htrace. cbn [snd] in Htrace.
      rewrite Hev1, Ht in Htrace. apply app_inv_head in Htrace as <-.
      by rewrite app_nil_r.
    + exists evs1, []. rewrite Hcases in Htrace. cbn [snd] in Htrace.
      rewrite Hev1, Ht in Htrace. apply app_inv_head in Htrace as <-.
      by rewrite app_nil_r.
  - rewrite Hcases in Htrace. cbn [snd] in Htrace.
    rewrite Ht in Htrace. rewrite <- (app_nil_r (trace σ)) in Htrace at 1.
    apply app_inv_head in Htrace as <-. done.
Qed.

(** *** The refresh guard *)

(** The store access of a refresh when the store has no account under the
    key of the record: the lookup, and nothing else between the hooks. *)
Lemma accessStore_absent this cacheRecord cachedAccount σ :
  account cacheRecord = Some cachedAccount →
  let key := generateAccountKey cachedAccount in
  match persistencePlugin this, serializableCache this with
  | Some plugin, Some cache =>
      let context := {| tokenCache := cache; hasChanged := true |} in
      ∀ w1,
        beforeCacheAccess plugin context (world σ) = (Fine tt, w1) →
        getAccount (cacheStorage this) key w1 = Fine None →
        let released := afterCacheAccess plugin context w1 in
        accessStore this cacheRecord true σ
        = (match released.1 with
           | Fine _ => Ok (Return None)
           | Failed what => Throw (Raised cachePlugin what)
           end,
           {| world := released.2;
              trace := trace σ ++ [BeforeCacheAccess context (Fine tt);
                                   GetAccount key (Fine None);
                                   AfterCacheAccess context released.1];
              clientInfo := clientInfo σ;
              homeAccountIdentifier := homeAccountIdentifier σ;
              cacheContext := Some context |})
  | _, _ =>
      getAccount (cacheStorage this) key (world σ) = Fine None →
      accessStore this cacheRecord true σ
      = (Ok (Return None),
         {| world := world σ;
            trace := trace σ ++ [GetAccount key (Fine None)];
            clientInfo := clientInfo σ;
            homeAccountIdentifier := homeAccountIdentifier σ;
            cacheContext := None |})
  end.
Proof.
  intros Hacct key. unfold accessStore. eff. rewrite Hacct. fold key.
  destruct (persistencePlugin this) as [plugin|];
    [destruct (serializableCache this) as [cache|]|]; cbn.
  - intros w1 Hbefore Habsent. rewrite Hbefore. cbn. rewrite Habsent. cbn.
    destruct (afterCacheAccess plugin _ w1) as [[[]|what] w2]; cbn;
      unfold set_world, set_cacheContext; cbn;
      by rewrite <- !app_assoc.
  - intros ->. by unfold set_world, set_cacheContext.
  - intros ->. by unfold set_world, set_cacheContext.
Qed.

(** The store access when [beforeCacheAccess] fails: the two hooks, and the
    error of the one that failed last. *)
Lemma accessStore_locked this cacheRecord handling σ plugin cache what w1 :
  persistencePlugin this = Some plugin →
  serializableCache this = Some cache →
  let context := {| tokenCache := cache; hasChanged := true |} in
  beforeCacheAccess plugin context (world σ) = (Failed what, w1) →
  let released := afterCacheAccess plugin context w1 in
  accessStore this cacheRecord handling σ
  = (Throw (Raised cachePlugin
              match released.1 with
              | Fine _ => what
              | Failed what' => what'
              end),
     {| world := released.2;
        trace := trace σ ++ [BeforeCacheAccess context (Failed what);
                             AfterCacheAccess context released.1];
        clientInfo := clientInfo σ;
        homeAccountIdentifier := homeAccountIdentifier σ;
        cacheContext := Some context |}).
Proof.
  intros Hp Hc context Hbefore. unfold accessStore. eff. rewrite Hp, Hc. cbn.
  fold context. rewrite Hbefore. cbn.
  destruct (afterCacheAccess plugin context w1) as [[[]|what'] w2]; cbn;
    unfold set_world, set_cacheContext; cbn;
    by rewrite <- !app_assoc.
Qed.

(** C1, as amended.  In a call that handles a refresh-token response and
    whose record names an account, when the store has no account under the
    key of that account: [saveCacheRecord] is not invoked, and the call
    returns [null] unless a hook of the persistence plug-in fails, in which
    case the call fails with the error of the hook.  In detail: without a
    plug-in the store is asked for the key, this is the only event, the
    world stays as it was and the call returns [null]; with a plug-in whose
    [beforeCacheAccess] succeeds the store is asked for the key between the
    two hooks (the account being absent in the world the first hook
    leaves), and the call returns [null] unless [afterCacheAccess] fails;
    with a plug-in whose [beforeCacheAccess] fails the store is not called
    at all. *)
Theorem refresh_guard_writes_nothing this serverTokenResponse authority
    resourceRequestMethod resourceRequestUri cachedNonce cachedState
    requestScopes oboAssertion σ idTokenObj requestStateObj cacheRecord σ1
    cachedAccount :
  let run := handleServerTokenResponse this serverTokenResponse authority
               resourceRequestMethod resourceRequestUri cachedNonce cachedState
               requestScopes oboAssertion true σ in
  let key := generateAccountKey cachedAccount in
  buildCacheRecord this serverTokenResponse authority cachedNonce cachedState
    requestScopes oboAssertion σ
  = (Ok (idTokenObj, requestStateObj, cacheRecord), σ1) →
  account cacheRecord = Some cachedAccount →
  match persistencePlugin this, serializableCache this with
  | Some plugin, Some cache =>
      let context := {| tokenCache := cache; hasChanged := true |} in
      ∀ acquired w1,
        beforeCacheAccess plugin context (world σ) = (acquired, w1) →
        let released := afterCacheAccess plugin context w1 in
        match acquired with
        | Fine _ =>
            getAccount (cacheStorage this) key w1 = Fine None →
            ∃ evs,
              trace run.2 = trace σ ++ evs
              ∧ evs = [BeforeCacheAccess context (Fine tt);
                       GetAccount key (Fine None);
                       AfterCacheAccess context released.1]
              ∧ forallb (λ ev, negb (isSaveEvent ev)) evs = true
              ∧ world run.2 = released.2
              ∧ run.1 = match released.1 with
                        | Fine _ => Ok None
                        | Failed what => Throw (Raised cachePlugin what)
                        end
        | Failed what =>
            ∃ evs,
              trace run.2 = trace σ ++ evs
              ∧ evs = [BeforeCacheAccess context (Failed what);
                       AfterCacheAccess context released.1]
              ∧ forallb (λ ev, negb (isSaveEvent ev)) evs = true
              ∧ world run.2 = released.2
              ∧ run.1 = Throw (Raised cachePlugin
                                 match released.1 with
                                 | Fine _ => what
                                 | Failed what' => what'
                                 end)
        end
  | _, _ =>
      getAccount (cacheStorage this) key (world σ) = Fine None →
      ∃ evs,
        trace run.2 = trace σ ++ evs
        ∧ evs = [GetAccount key (Fine None)]
        ∧ forallb (λ ev, negb (isSaveEvent ev)) evs = true
        ∧ world run.2 = world σ
        ∧ run.1 = Ok None
  end.
Proof.
  intros run key Hbuilt Hacct.
  pose proof (handleServerTokenResponse_cases this serverTokenResponse
    authority resourceRequestMethod resourceRequestUri cachedNonce cachedState
    requestScopes oboAssertion true σ) as Hcases.
  pose proof (silent_buildCacheRecord this serverTokenResponse authority
    cachedNonce cachedState requestScopes oboAssertion σ) as [Hw Ht].
  cbn zeta in Hcases. fold run in Hcases.
  rewrite Hbuilt in Hcases, Hw, Ht. cbn [snd] in Hw, Ht.
  pose proof (accessStore_absent this cacheRecord cachedAccount σ1 Hacct)
    as Hstore. cbn zeta in Hstore. fold key in Hstore. rewrite Hw in Hstore.
  destruct (persistencePlugin this) as [plugin|] eqn:Hp;
    [destruct (serializableCache this) as [cache|] eqn:Hc|].
  - cbn zeta. intros [[]|what] w1 Hbefore.
    + intros Habsent. rewrite (Hstore w1 Hbefore Habsent) in Hcases.
      destruct (afterCacheAccess plugin _ w1) as [[[]|what] w2];
        cbn [fst snd] in *; rewrite Hcases; cbn;
        (eexists; split; [by rewrite Ht|done]).
    + rewrite <- Hw in Hbefore.
      rewrite (accessStore_locked this cacheRecord true σ1 plugin cache what
                 w1 Hp Hc Hbefore) in Hcases.
      destruct (afterCacheAccess plugin _ w1) as [[[]|what'] w2];
        cbn [fst snd] in *; rewrite Hcases; cbn;
        (eexists; split; [by rewrite Ht|done]).
  - intros Habsent. rewrite (Hstore Habsent) in Hcases. rewrite Hcases. cbn.
    eexists. split; [by rewrite Ht|]. done.
  - intros Habsent. rewrite (Hstore Habsent) in Hcases. rewrite Hcases. cbn.
    eexists. split; [by rewrite Ht|]. done.
Qed.

(** *** The hooks of the persistence plug-in *)

(** C2.  With a persistence plug-in and a serializable cache configured, a
    call in which [beforeCacheAccess] is invoked invokes [afterCacheAccess]
    too, once and with the same context, after every call to the store and
    however the store access ends: the write, the early return of the
    refresh guard, a failure of the hook, of the lookup or of the write.  An
    error of the store reaches the caller only with [afterCacheAccess] as the
    last event, and does reach it when that hook succeeds. *)
Theorem hooks_are_matched this plugin cache serverTokenResponse authority
    resourceRequestMethod resourceRequestUri cachedNonce cachedState
    requestScopes oboAssertion handling σ evs :
  persistencePlugin this = Some plugin →
  serializableCache this = Some cache →
  let context := {| tokenCache := cache; hasChanged := true |} in
  let run := handleServerTokenResponse this serverTokenResponse authority
               resourceRequestMethod resourceRequestUri cachedNonce cachedState
               requestScopes oboAssertion handling σ in
  trace run.2 = trace σ ++ evs →
  (∃ c reply, BeforeCacheAccess c reply ∈ evs) →
  ∃ before mid after post,
    evs = BeforeCacheAccess context before :: mid
            ++ AfterCacheAccess context after :: post
    ∧ forallb isStoreEvent mid = true
    ∧ forallb isSignEvent post = true
    ∧ (∀ what, run.1 = Throw (Raised cacheStore what) →
         post = [] ∧ after = Fine tt
         ∧ ∃ mid' failed, mid = mid' ++ [failed]
             ∧ ((∃ saved, failed = SaveCacheRecord saved (Failed what))
                ∨ ∃ key, failed = GetAccount key (Failed what)))
    ∧ (∀ what, after = Fine tt →
         ((∃ saved, SaveCacheRecord saved (Failed what) ∈ mid)
          ∨ ∃ key, GetAccount key (Failed what) ∈ mid) →
         run.1 = Throw (Raised cacheStore what)).
Proof.
  intros Hp Hc context run Htrace [c [reply Hin]].
  pose proof (handleServerTokenResponse_trace this serverTokenResponse
    authority resourceRequestMethod resourceRequestUri cachedNonce cachedState
    requestScopes oboAssertion handling σ evs Htrace) as Hshape.
  fold run in Hshape.
  destruct (buildCacheRecord _ _ _ _ _ _ _ _) as [[[[tok rso] rec]|e] σ1];
    [|destruct Hshape as [-> _]; by apply elem_of_nil in Hin].
  destruct Hshape as (Hw & Ht & evs1 & evs2 & -> & Hev1 & Hsign & Hrun).
  destruct (accessStore_hooks this plugin cache rec handling σ1 Hp Hc)
    as (before & mid & after & Hev & Hmid & Hfail & Hprop).
  fold context in Hev. rewrite Hev1 in Hev.
  apply app_inv_head in Hev as ->.
  destruct (accessStore_events this rec handling σ1)
    as (evs1' & Hev1' & _ & Hsaved & _).
  rewrite Hev1 in Hev1'. apply app_inv_head in Hev1' as <-.
  exists before, mid, after, evs2.
  split; [by cbn [app]; rewrite <- app_assoc|].
  split; [done|]. split; [done|].
  assert (∀ what, (accessStore this rec handling σ1).1
                  = Throw (Raised cacheStore what) ↔
                  run.1 = Throw (Raised cacheStore what)) as Hiff.
  { intros what.
    destruct ((accessStore this rec handling σ1).1) as [[|result]|e].
    - destruct Hrun as (Hwho & _ & _). split; [done|].
      intros Hr. destruct (Hwho _ _ Hr); done.
    - destruct Hrun as [Hr _]. rewrite Hr. cbn. by split.
    - destruct Hrun as [Hr _]. rewrite Hr. cbn. split; by intros [= ->]. }
  split.
  - intros what Hr. apply Hiff in Hr as Hst.
    destruct (Hfail what Hst) as (_ & -> & mid' & failed & -> & Hfailed).
    rewrite Hst in Hrun. destruct Hrun as [_ ->].
    split; [done|]. split; [done|]. exists mid', failed. split; [done|].
    destruct Hfailed as [->|?]; eauto.
  - intros what Hafter Hmem. apply Hiff, Hprop; [done|].
    destruct Hmem as [[saved Hmem]|?]; [left|by right].
    assert (saved = rec) as ->; [|done].
    apply (Hsaved saved (Failed what)).
    set_unfold. eauto.
Qed.

(** *** Validation comes before the cache *)

(** An error of steps 1 to 3: decoding [client_info], decoding the id token
    and checking its nonce, parsing the request state. *)
Definition validationFails (this : ResponseHandler)
    (serverTokenResponse : ServerAuthorizationTokenResponse)
    (cachedNonce cachedState : option string) (σ : State) (e : Error)
    (σ1 : State) : Prop :=
  identify this serverTokenResponse cachedNonce σ = (Throw e, σ1)
  ∨ ∃ idTokenObj σa,
      identify this serverTokenResponse cachedNonce σ = (Ok idTokenObj, σa)
      ∧ parseCachedState this cachedState σa = (Throw e, σ1).

Lemma identify_Throw this serverTokenResponse cachedNonce σ e σ1 :
  identify this serverTokenResponse cachedNonce σ = (Throw e, σ1) →
  e = NonceMismatchError
  ∨ ∃ what, e = Raised clientInfoDecoder what ∨ e = Raised idTokenDecoder what.
Proof.
  unfold identify. intros Hrun.
  apply bind_Throw_inv in Hrun as [Hci|([] & σa & _ & Hrun)].
  { rewrite homeAccountIdFromClientInfo_spec in Hci.
    repeat case_match; simplify_eq; eauto. }
  apply bind_Throw_inv in Hrun as [Htok|(tok & σb & _ & Hrun)].
  { rewrite decodeIdToken_spec in Htok.
    repeat case_match; simplify_eq; eauto. }
  apply bind_Throw_inv in Hrun as [Hsub|(? & ? & _ & ?)]; [|done].
  rewrite homeAccountIdFromSubClaim_spec in Hsub. done.
Qed.

Lemma validationFails_run this serverTokenResponse authority
    resourceRequestMethod resourceRequestUri cachedNonce cachedState
    requestScopes oboAssertion handling σ e σ1 :
  validationFails this serverTokenResponse cachedNonce cachedState σ e σ1 →
  handleServerTokenResponse this serverTokenResponse authority
    resourceRequestMethod resourceRequestUri cachedNonce cachedState
    requestScopes oboAssertion handling σ = (Throw e, σ1)
  ∧ world σ1 = world σ ∧ trace σ1 = trace σ
  ∧ (e = NonceMismatchError
     ∨ ∃ what, e = Raised clientInfoDecoder what
               ∨ e = Raised idTokenDecoder what
               ∨ e = Raised stateParser what).
Proof.
  intros Hfail.
  assert (buildCacheRecord this serverTokenResponse authority cachedNonce
            cachedState requestScopes oboAssertion σ = (Throw e, σ1)) as Hb.
  { unfold buildCacheRecord.
    destruct Hfail as [Hid|(tok & σa & Hid & Hst)].
    - by apply bind_Throw.
    - rewrite (bind_Ok _ _ _ _ _ Hid). by apply bind_Throw. }
  pose proof (silent_buildCacheRecord this serverTokenResponse authority
    cachedNonce cachedState requestScopes oboAssertion σ) as Hs.
  rewrite Hb in Hs. destruct Hs as [Hw Ht].
  split; [unfold handleServerTokenResponse; by apply bind_Throw|].
  split; [done|]. split; [done|].
  destruct Hfail as [Hid|(tok & σa & Hid & Hst)].
  - apply identify_Throw in Hid as [->|(what & [->| ->])]; eauto.
  - rewrite parseCachedState_spec in Hst.
    repeat case_match; simplify_eq; eauto.
Qed.

(** C4.  Once [client_info] is dealt with and the id token of the response
    is decoded, a nonce claim that differs from a non-empty [cachedNonce]
    fails the call with [NonceMismatchError].  Every error of steps 1 to 3
    is the error of the call, which then has not touched the world nor
    called the store or the plug-in. *)
Theorem validation_precedes_cache this serverTokenResponse authority
    resourceRequestMethod resourceRequestUri cachedNonce cachedState
    requestScopes oboAssertion handling σ :
  let run := handleServerTokenResponse this serverTokenResponse authority
               resourceRequestMethod resourceRequestUri cachedNonce cachedState
               requestScopes oboAssertion handling σ in
  (∀ σa token,
     homeAccountIdFromClientInfo this serverTokenResponse σ = (Ok tt, σa) →
     truthy (id_token serverTokenResponse) = true →
     newAuthToken (id_token serverTokenResponse) (cryptoObj this) = Fine token →
     truthy cachedNonce = true →
     nonce (claims token) ≠ cachedNonce →
     run = (Throw NonceMismatchError, σa)
     ∧ world σa = world σ ∧ trace σa = trace σ)
  ∧ (∀ e σ1,
       validationFails this serverTokenResponse cachedNonce cachedState σ e σ1 →
       run = (Throw e, σ1) ∧ world σ1 = world σ ∧ trace σ1 = trace σ).
Proof.
  intros run. split.
  - intros σa token Hci Hid Htok Hnonce Hne.
    assert (validationFails this serverTokenResponse cachedNonce cachedState
              σ NonceMismatchError σa) as Hfail.
    { left. unfold identify. rewrite (bind_Ok _ _ _ _ _ Hci).
      apply bind_Throw. rewrite decodeIdToken_spec, Hid, Htok, Hnonce.
      by rewrite bool_decide_true. }
    eapply validationFails_run in Hfail as (Hrun & Hw & Ht & _).
    split_and!; [apply Hrun|done|done].
  - intros e σ1 Hfail.
    eapply validationFails_run in Hfail as (Hrun & Hw & Ht & _).
    split_and!; [apply Hrun|done|done].
Qed.

(** *** The home account identifier *)



(** *** Expiration of the cached access token *)

(** The baseline timestamp, in the words of the specification: the timestamp
    of the library state when one was parsed from the state the caller
    supplied, the current time in seconds otherwise. *)
Definition baselineTimestamp (this : ResponseHandler)
    (cachedState : option string) (w : W) : Z :=
  let parsed :=
    if truthy cachedState then
      match parseRequestState (cryptoObj this) cachedState with
      | Fine requestStateObj => libraryState requestStateObj
      | Failed _ => None
      end
    else None in
  match parsed with
  | Some state => ts state
  | None => nowSeconds w
  end.

Lemma baselineOf_parsed this cachedState requestStateObj σ1 w :
  parseCachedState this cachedState σ1 = (Ok requestStateObj, σ1) →
  baselineOf (requestStateObj ≫= libraryState) w
  = baselineTimestamp this cachedState w.
Proof.
  rewrite parseCachedState_spec. unfold baselineTimestamp, baselineOf.
  destruct (truthy cachedState); [|by intros; simplify_eq].
  destruct (parseRequestState _ _); by intros; simplify_eq.
Qed.

(** The record a call hands to [saveCacheRecord] is the one it built. *)
Lemma saved_record_is_built this serverTokenResponse authority
    resourceRequestMethod resourceRequestUri cachedNonce cachedState
    requestScopes oboAssertion handling σ evs saved reply :
  let run := handleServerTokenResponse this serverTokenResponse authority
               resourceRequestMethod resourceRequestUri cachedNonce cachedState
               requestScopes oboAssertion handling σ in
  trace run.2 = trace σ ++ evs →
  SaveCacheRecord saved reply ∈ evs →
  ∃ idTokenObj requestStateObj σ1,
    buildCacheRecord this serverTokenResponse authority cachedNonce cachedState
      requestScopes oboAssertion σ
    = (Ok (idTokenObj, requestStateObj, saved), σ1)
    ∧ world σ1 = world σ.
Proof.
  intros run Htrace Hin.
  pose proof (handleServerTokenResponse_trace this serverTokenResponse
    authority resourceRequestMethod resourceRequestUri cachedNonce cachedState
    requestScopes oboAssertion handling σ evs Htrace) as Hshape.
  destruct (buildCacheRecord _ _ _ _ _ _ _ _) as [[[[tok rso] rec]|e] σ1];
    [|destruct Hshape as [-> _]; by apply elem_of_nil in Hin].
  destruct Hshape as (Hw & Ht & evs1 & evs2 & -> & Hev1 & Hsign & _).
  destruct (accessStore_events this rec handling σ1)
    as (evs1' & Hev1' & _ & Hsaved & _).
  rewrite Hev1 in Hev1'. apply app_inv_head in Hev1' as <-.
  apply elem_of_app in Hin as [Hin|Hin].
  - apply Hsaved in Hin as ->. eauto.
  - rewrite forallb_forall in Hsign.
    apply list_elem_of_In, Hsign in Hin. done.
Qed.

(** The expirations a record is built with, in the range where the sums of
    doubles are exact. *)
Lemma expirations_exact (baseline lifetime extended : Z) :
  exactInteger baseline → exactInteger lifetime → exactInteger extended →
  exactInteger (baseline + lifetime) →
  exactInteger (baseline + lifetime + extended) →
  js_add (toDouble baseline) (toNumber (Some lifetime))
  = Num (baseline + lifetime)
  ∧ js_add (js_add (toDouble baseline) (toNumber (Some lifetime)))
      (toNumber (Some extended))
    = Num (baseline + lifetime + extended).
Proof.
  intros Hb Hl He Hbl Hble. cbn [toNumber].
  rewrite !toDouble_exact by done.
  rewrite js_add_exact by done. by rewrite js_add_exact.
Qed.

(** C6, as amended.  In the record a call saves for a response with an
    access token, the access token expires at the baseline timestamp plus
    [expires_in], and its extended expiration is that value plus
    [ext_expires_in], when these five numbers are at most 2^53 in
    magnitude: the sums are sums of doubles, which beyond that are
    rounded. *)
Theorem access_token_expiration this serverTokenResponse authority
    resourceRequestMethod resourceRequestUri cachedNonce cachedState
    requestScopes oboAssertion handling σ evs saved reply
    (lifetime extended : Z) :
  let run := handleServerTokenResponse this serverTokenResponse authority
               resourceRequestMethod resourceRequestUri cachedNonce cachedState
               requestScopes oboAssertion handling σ in
  let baseline := baselineTimestamp this cachedState (world σ) in
  trace run.2 = trace σ ++ evs →
  SaveCacheRecord saved reply ∈ evs →
  truthy (access_token serverTokenResponse) = true →
  expires_in serverTokenResponse = Some lifetime →
  ext_expires_in serverTokenResponse = Some extended →
  exactInteger baseline → exactInteger lifetime → exactInteger extended →
  exactInteger (baseline + lifetime) →
  exactInteger (baseline + lifetime + extended) →
  ∃ cached,
    accessToken saved = Some cached
    ∧ at_expiresOn cached = Num (baseline + lifetime)
    ∧ at_extendedExpiresOn cached = Num (baseline + lifetime + extended).
Proof.
  intros run baseline Htrace Hin Hat Hexp Hext Hb Hl He Hbl Hble.
  destruct (saved_record_is_built _ _ _ _ _ _ _ _ _ _ _ _ _ _ Htrace Hin)
    as (tok & rso & σ1 & Hbuilt & Hw).
  apply buildCacheRecord_Ok in Hbuilt as (_ & Hst & Hrec).
  apply generateCacheRecord_Ok in Hrec as (_ & _ & _ & Hcached & _).
  rewrite Hat, Hexp, Hext in Hcached.
  destruct Hcached as (sc & _ & ->).
  eexists. split; [done|]. cbn [at_expiresOn at_extendedExpiresOn
    createAccessTokenEntity].
  rewrite (baselineOf_parsed _ _ _ _ _ Hst), Hw. fold baseline.
  by apply expirations_exact.
Qed.

(** *** The authentication result *)

(** The bearer-token response of the scenario of the specification. *)
Definition bearerResponse : ServerAuthorizationTokenResponse :=
  {| token_type := Some "Bearer"; scope := Some "User.Read";
     expires_in := Some 3600%Z; ext_expires_in := Some 7200%Z;
     access_token := Some "AT1"; refresh_token := None; id_token := None;
     client_info := None; foci := None; error := None;
     error_description := None; error_codes := None; suberror := None;
     timestamp := None; trace_id := None; correlation_id := None |}.

Definition onlyAccessToken (cacheRecord : CacheRecord) : Prop :=
  account cacheRecord = None ∧ idToken cacheRecord = None
  ∧ is_Some (accessToken cacheRecord)
  ∧ refreshToken cacheRecord = None ∧ appMetadata cacheRecord = None.

Lemma identify_no_identity this serverTokenResponse cachedNonce σ :
  client_info serverTokenResponse = None →
  id_token serverTokenResponse = None →
  identify this serverTokenResponse cachedNonce σ
  = (Ok None, set_homeAccountIdentifier (Some "") σ).
Proof.
  intros Hci Hid. unfold identify.
  erewrite bind_Ok;
    [|by rewrite homeAccountIdFromClientInfo_spec, Hci].
  erewrite bind_Ok; [|by rewrite decodeIdToken_spec, Hid].
  erewrite bind_Ok; [|by rewrite homeAccountIdFromSubClaim_spec].
  done.
Qed.

Lemma bearerResponse_record this authority cachedNonce cachedState
    requestScopes oboAssertion σ responseScopes :
  isEmpty (generateEnvironmentFromAuthority authority) = false →
  ScopeSet_fromString (Some "User.Read") = Fine responseScopes →
  (truthy cachedState = true →
   ∃ requestStateObj,
     parseRequestState (cryptoObj this) cachedState = Fine requestStateObj) →
  ∃ requestStateObj cacheRecord,
    buildCacheRecord this bearerResponse authority cachedNonce cachedState
      requestScopes oboAssertion σ
    = (Ok (None, requestStateObj, cacheRecord),
       set_homeAccountIdentifier (Some "") σ)
    ∧ onlyAccessToken cacheRecord
    ∧ ∃ cached, accessToken cacheRecord = Some cached
        ∧ at_tokenType cached = Some "Bearer"
        ∧ at_target cached = Some (printScopes responseScopes)
        ∧ at_secret cached = Some "AT1".
Proof.
  intros Henv Hsc Hstate. unfold buildCacheRecord.
  erewrite bind_Ok; [|by apply identify_no_identity].
  set (σ1 := set_homeAccountIdentifier (Some "") σ).
  assert (∃ rso, parseCachedState this cachedState σ1 = (Ok rso, σ1))
    as [rso Hrso].
  { rewrite parseCachedState_spec.
    destruct (truthy cachedState); [|eauto].
    destruct Hstate as [rso ->]; eauto. }
  erewrite bind_Ok; [|exact Hrso].
  destruct (generateCacheRecord_total this bearerResponse None authority
              (rso ≫= libraryState) requestScopes oboAssertion σ1 Henv)
    as [rec Hrec]; [done|by intros _; exists responseScopes|].
  erewrite bind_Ok; [|exact Hrec].
  exists rso, rec. split; [done|].
  apply generateCacheRecord_Ok in Hrec as (_ & _ & Hid & Hat & Hrt & Ham).
  cbn in Hid, Hat, Hrt, Ham. destruct Hid as [Hid Hacct].
  destruct Hat as (sc & Hsc' & Hat).
  unfold responseScopesOf in Hsc'. cbn in Hsc'.
  rewrite Hsc in Hsc'. injection Hsc' as <-.
  split; [by unfold onlyAccessToken; rewrite Hat|].
  eexists. split; [done|]. done.
Qed.

(** C8.  [generateAuthenticationResult] gives, as the access token of the
    result, what [signPopToken] returns in this call for the cached secret
    and the method and URI of the resource request when the cached token is
    of the PoP scheme, and the cached secret itself otherwise, without a
    call to the signer.  Every result has a [null] account when the record
    has none, the expirations of the cached token as dates ([dateOfSeconds]:
    the date of 1000 milliseconds for each of the epoch seconds, Invalid
    Date when there are more than a date can hold), and the user state of
    the request.  The
    bearer response of the scenario, with no id token and no client info, is
    mapped to a record with only an access token entity, and the result of
    the call, when it is not handling a refresh-token response, has a
    [null] account and the scopes [User.Read]. *)
Theorem authentication_result cryptoObj cacheRecord idTokenObj fromTokenCache
    requestState resourceRequestMethod resourceRequestUri σ :
  let run := generateAuthenticationResult cryptoObj cacheRecord idTokenObj
               fromTokenCache requestState resourceRequestMethod
               resourceRequestUri σ in
  (∀ cached responseScopes signed w,
     accessToken cacheRecord = Some cached →
     at_tokenType cached = Some POP →
     ScopeSet_fromString (at_target cached) = Fine responseScopes →
     signPopToken cryptoObj (at_secret cached) resourceRequestMethod
       resourceRequestUri (world σ) = (Fine signed, w) →
     ∃ result,
       run.1 = Ok result ∧ res_accessToken result = signed
       ∧ world run.2 = w
       ∧ trace run.2
         = trace σ ++ [SignPopToken (at_secret cached) resourceRequestMethod
                         resourceRequestUri (Fine signed)])
  ∧ (∀ cached responseScopes,
       accessToken cacheRecord = Some cached →
       at_tokenType cached ≠ Some POP →
       ScopeSet_fromString (at_target cached) = Fine responseScopes →
       ∃ result,
         run = (Ok result, σ) ∧ res_accessToken result = at_secret cached)
  ∧ (∀ result, run.1 = Ok result →
       (account cacheRecord = None → res_account result = None)
       ∧ (∀ cached, accessToken cacheRecord = Some cached →
            res_expiresOn result = Some (dateOfSeconds (at_expiresOn cached))
            ∧ res_extExpiresOn result
              = Some (dateOfSeconds (at_extendedExpiresOn cached)))
       ∧ (∀ state, requestState = Some state →
            res_state result = userRequestState state))
  ∧ (∀ this authority cachedNonce cachedState requestScopes oboAssertion
       responseScopes,
       isEmpty (generateEnvironmentFromAuthority authority) = false →
       POP ≠ "Bearer" →
       ScopeSet_fromString (Some "User.Read") = Fine responseScopes →
       printScopes responseScopes = "User.Read" →
       asArray responseScopes = ["User.Read"] →
       (truthy cachedState = true →
        ∃ requestStateObj,
          parseRequestState (ResponseHandler.cryptoObj this) cachedState
          = Fine requestStateObj) →
       ∃ requestStateObj built σ1,
         buildCacheRecord this bearerResponse authority cachedNonce
           cachedState requestScopes oboAssertion σ
         = (Ok (None, requestStateObj, built), σ1)
         ∧ onlyAccessToken built
         ∧ ∀ σ2,
             accessStore this built false σ1 = (Ok Continue, σ2) →
             ∃ result,
               handleServerTokenResponse this bearerResponse authority
                 resourceRequestMethod resourceRequestUri cachedNonce
                 cachedState requestScopes oboAssertion false σ
               = (Ok (Some result), σ2)
               ∧ res_account result = None
               ∧ res_scopes result = ["User.Read"]).
Proof.
  intros run. split_and!.
  - intros cached sc signed w Hat Hpop Hsc Hsign.
    destruct (generateAuthenticationResult_total cryptoObj cacheRecord
                idTokenObj fromTokenCache requestState resourceRequestMethod
                resourceRequestUri σ) as (result & σ' & Hrun).
    { rewrite Hat. split; [eauto|]. intros _. eauto. }
    fold run in Hrun. exists result. rewrite Hrun. cbn [fst snd].
    apply generateAuthenticationResult_Ok in Hrun as (_ & _ & _ & Hrun).
    rewrite Hat in Hrun. destruct Hrun as (_ & _ & _ & _ & Hrun).
    rewrite bool_decide_true in Hrun by done.
    destruct Hrun as (w' & Hsign' & ->). rewrite Hsign in Hsign'.
    injection Hsign' as <- <-. done.
  - intros cached sc Hat Hpop Hsc.
    destruct (generateAuthenticationResult_total cryptoObj cacheRecord
                idTokenObj fromTokenCache requestState resourceRequestMethod
                resourceRequestUri σ) as (result & σ' & Hrun).
    { rewrite Hat. split; [eauto|]. intros ?. done. }
    fold run in Hrun. exists result. rewrite Hrun.
    apply generateAuthenticationResult_Ok in Hrun as (_ & _ & _ & Hrun).
    rewrite Hat in Hrun. destruct Hrun as (_ & _ & _ & _ & Hrun).
    rewrite bool_decide_false in Hrun by done.
    by destruct Hrun as [-> ->].
  - intros result Hok.
    assert (run = (Ok result, run.2)) as Hrun
      by (rewrite <- Hok; by destruct run).
    apply generateAuthenticationResult_Ok in Hrun as (Hacct & Hstate & _ & Hrun).
    split_and!.
    + intros Hnone. by rewrite Hacct, Hnone.
    + intros cached Hat. rewrite Hat in Hrun.
      destruct Hrun as (-> & -> & _). by rewrite !newDate_seconds.
    + intros state ->. done.
  - intros this authority cachedNonce cachedState requestScopes oboAssertion
      sc Henv Hpop Hsc Hprint Harr Hstate.
    destruct (bearerResponse_record this authority cachedNonce cachedState
                requestScopes oboAssertion σ sc Henv Hsc Hstate)
      as (rso & built & Hb & Honly & cached & Hat & Htype & Htarget & Hsecret).
    eexists rso, built, _. split; [exact Hb|]. split; [done|].
    intros σ2 Hstore.
    pose proof (handleServerTokenResponse_cases this bearerResponse authority
      resourceRequestMethod resourceRequestUri cachedNonce cachedState
      requestScopes oboAssertion false σ) as Hcases.
    cbn zeta in Hcases. rewrite Hb, Hstore in Hcases.
    destruct (generateAuthenticationResult_total
                (ResponseHandler.cryptoObj this) built None false rso
                resourceRequestMethod resourceRequestUri σ2)
      as (result & σ3 & Hres).
    { rewrite Hat. split.
      - rewrite Htarget, Hprint. eauto.
      - rewrite Htype. intros [= Heq]. by destruct Hpop. }
    rewrite Hres in Hcases.
    apply generateAuthenticationResult_Ok in Hres
      as (Hacct & _ & _ & Hres).
    rewrite Hat in Hres.
    destruct Hres as (_ & _ & _ & (sc' & Hsc' & Hscopes) & Hpath).
    rewrite bool_decide_false in Hpath
      by (rewrite Htype; intros [= Heq]; by destruct Hpop).
    destruct Hpath as [_ ->].
    exists result. split; [done|]. split.
    + destruct Honly as [Hnone _]. by rewrite Hacct, Hnone.
    + rewrite Htarget, Hprint, Hsc in Hsc'. injection Hsc' as <-.
      by rewrite Hscopes.
Qed.

(** *** Further properties of validation *)

(** X6.  [validateServerAuthorizationCodeResponse] accepts a response
    exactly when the two states decode to the same string, none of [error],
    [error_description], [suberror] is present, and [client_info] is absent
    or can be decoded. *)
Theorem code_response_accepted_iff this serverResponseHash cachedState
    cryptoObj σ :
  validateServerAuthorizationCodeResponse this serverResponseHash cachedState
    cryptoObj σ = (Ok tt, σ)
  ↔ (∃ decoded,
       decodeURIComponent (template (hash_state serverResponseHash))
       = Fine decoded
       ∧ decodeURIComponent (template cachedState) = Fine decoded)
    ∧ errorPresent (hash_error serverResponseHash)
        (hash_error_description serverResponseHash)
        (hash_suberror serverResponseHash) = false
    ∧ (truthy (hash_client_info serverResponseHash) = true →
       ∃ info,
         buildClientInfo (hash_client_info serverResponseHash) cryptoObj
         = Fine info).
Proof.
  unfold validateServerAuthorizationCodeResponse.
  fold (errorPresent (hash_error serverResponseHash)
          (hash_error_description serverResponseHash)
          (hash_suberror serverResponseHash)).
  eff.
  destruct (decodeURIComponent (template (hash_state serverResponseHash)))
    as [a|?]; [|split; [done|by intros [(? & ? & _) _]]].
  destruct (decodeURIComponent (template cachedState)) as [b|?];
    [|split; [done|by intros [(? & _ & ?) _]]].
  destruct (String.eqb_spec a b) as [->|Hne]; cbn [negb];
    [|split; [done|intros [(? & [= <-] & [= <-]) _]; done]].
  destruct (errorPresent _ _ _);
    [split; [by destruct (isInteractionRequiredError _ _ _)
            |by intros (_ & ? & _)]|].
  destruct (truthy (hash_client_info serverResponseHash));
    [|split; [intros _; split_and!; [eauto|done|done] | done]].
  destruct (buildClientInfo _ _) as [info|what].
  - split; [intros _; split_and!; eauto|done].
  - split; [done|]. intros (_ & _ & Hinfo). by destruct Hinfo as [? ?].
Qed.

(** X7.  The states are compared as they print: a state that is missing is
    the string [undefined], so a response and a request that are both
    without a state (or whose states print alike) are never a
    [StateMismatchError]. *)
Theorem states_are_compared_as_printed this serverResponseHash cachedState
    cryptoObj σ :
  template (hash_state serverResponseHash) = template cachedState →
  (validateServerAuthorizationCodeResponse this serverResponseHash cachedState
     cryptoObj σ).1 ≠ Throw StateMismatchError.
Proof.
  intros Hprint. unfold validateServerAuthorizationCodeResponse. eff.
  rewrite Hprint.
  destruct (decodeURIComponent (template cachedState)) as [a|?]; [|done].
  rewrite String.eqb_refl. cbn [negb]. cases; done.
Qed.

(** *** Further properties of the store access *)

Definition isLookupEvent (ev : Event) : bool :=
  match ev with
  | GetAccount _ _ => true
  | _ => false
  end.

Definition isHookEvent (ev : Event) : bool :=
  match ev with
  | BeforeCacheAccess _ _ | AfterCacheAccess _ _ => true
  | _ => false
  end.

Ltac in_list :=
  solve [repeat first [apply list_elem_of_here | apply list_elem_of_further]].

(** The paths through the store access. *)
Lemma accessStore_paths this cacheRecord handling σ evs :
  let run := accessStore this cacheRecord handling σ in
  trace run.2 = trace σ ++ evs →
  (handling = false ∨ account cacheRecord = None →
   forallb (λ ev, negb (isLookupEvent ev)) evs = true)
  ∧ (∀ key found, GetAccount key (Fine (Some found)) ∈ evs →
       ∃ reply, SaveCacheRecord cacheRecord reply ∈ evs)
  ∧ (∀ c what, BeforeCacheAccess c (Failed what) ∈ evs →
       forallb (λ ev, negb (isStoreEvent ev)) evs = true
       ∧ ∃ what', run.1 = Throw (Raised cachePlugin what'))
  ∧ length (List.filter isSaveEvent evs) ≤ 1
  ∧ (∀ result, run.1 = Ok (Return result) →
       handling = true
       ∧ forallb (λ ev, negb (isSaveEvent ev)) evs = true
       ∧ ∃ key, GetAccount key (Fine None) ∈ evs)
  ∧ (persistencePlugin this = None ∨ serializableCache this = None →
     forallb (λ ev, negb (isHookEvent ev)) evs = true)
  ∧ (∀ e, run.1 = Throw e →
       ∃ what, e = Raised cacheStore what ∨ e = Raised cachePlugin what)
  ∧ (run.1 = Ok Continue →
     ∃ before, evs = before ++ [SaveCacheRecord cacheRecord (Fine tt)]
               ∨ ∃ c, evs = before ++ [SaveCacheRecord cacheRecord (Fine tt);
                                        AfterCacheAccess c (Fine tt)]).
Proof.
  intros run. subst run. unfold accessStore. eff. explode.
  all: cbn; intros Htrace; list_eq Htrace.
  all: repeat match goal with u : unit |- _ => destruct u end.
  all: split_and!; try done.
  all: try (intros [?|?]; congruence).
  all: try (intros ? ? Hin; set_unfold in Hin; destruct_or?; simplify_eq;
            eexists; in_list).
  all: try (intros ? ? Hin; set_unfold in Hin; destruct_or?; simplify_eq;
            split; [done|eauto]; fail).
  all: try (cbn; lia).
  all: try (intros ? [=]; subst; split_and!; [done|done|];
            eexists; in_list).
  all: try (intros ? [=]; subst; eauto; fail).
  all: try (intros _; first
              [ by exists []; left
              | by eexists [_]; left
              | by eexists [_; _]; left
              | by exists []; right; eexists
              | by eexists [_]; right; eexists
              | by eexists [_; _]; right; eexists ]).
Qed.

Lemma forallb_impl {A} (f g : A → bool) (l : list A) :
  (∀ x, f x = true → g x = true) →
  forallb f l = true → forallb g l = true.
Proof.
  intros Hfg. rewrite !forallb_forall. intros Hf x Hx. apply Hfg, Hf, Hx.
Qed.

Lemma forallb_elem_of {A} (f : A → bool) (l : list A) x :
  forallb f l = true → x ∈ l → f x = true.
Proof.
  rewrite forallb_forall. intros Hf Hx. by apply Hf, list_elem_of_In.
Qed.

(** A call, taken apart: the record is not built and nothing has happened,
    or it is built, the store is accessed, and, unless the access ends the
    call, the result is assembled. *)
Lemma handleServerTokenResponse_parts this serverTokenResponse authority
    resourceRequestMethod resourceRequestUri cachedNonce cachedState
    requestScopes oboAssertion handling σ evs :
  let run := handleServerTokenResponse this serverTokenResponse authority
               resourceRequestMethod resourceRequestUri cachedNonce cachedState
               requestScopes oboAssertion handling σ in
  trace run.2 = trace σ ++ evs →
  (∃ e σ1,
     buildCacheRecord this serverTokenResponse authority cachedNonce
       cachedState requestScopes oboAssertion σ = (Throw e, σ1)
     ∧ evs = [] ∧ run = (Throw e, σ1) ∧ world σ1 = world σ)
  ∨ (∃ idTokenObj requestStateObj cacheRecord σ1 evs1 evs2,
       let store := accessStore this cacheRecord handling σ1 in
       let assembly :=
         generateAuthenticationResult (cryptoObj this) cacheRecord idTokenObj
           false requestStateObj resourceRequestMethod resourceRequestUri
           store.2 in
       buildCacheRecord this serverTokenResponse authority cachedNonce
         cachedState requestScopes oboAssertion σ
       = (Ok (idTokenObj, requestStateObj, cacheRecord), σ1)
       ∧ world σ1 = world σ ∧ trace σ1 = trace σ
       ∧ evs = evs1 ++ evs2
       ∧ trace store.2 = trace σ1 ++ evs1
       ∧ forallb (λ ev, negb (isSignEvent ev)) evs1 = true
       ∧ forallb isSignEvent evs2 = true
       ∧ ((∃ e, store.1 = Throw e ∧ run = (Throw e, store.2) ∧ evs2 = [])
          ∨ (∃ result, store.1 = Ok (Return result)
               ∧ run = (Ok result, store.2) ∧ evs2 = [])
          ∨ (store.1 = Ok Continue
             ∧ trace assembly.2 = trace store.2 ++ evs2
             ∧ run = (match assembly.1 with
                      | Ok result => Ok (Some result)
                      | Throw e => Throw e
                      end, assembly.2)))).
Proof.
  intros run Htrace.
  pose proof (handleServerTokenResponse_trace this serverTokenResponse
    authority resourceRequestMethod resourceRequestUri cachedNonce cachedState
    requestScopes oboAssertion handling σ evs Htrace) as Hshape.
  fold run in Hshape.
  destruct (buildCacheRecord _ _ _ _ _ _ _ _) as [[[[tok rso] rec]|e] σ1];
    [|left; destruct Hshape as (-> & Hrun & Hw); eauto 10].
  right. destruct Hshape as (Hw & Ht & evs1 & evs2 & -> & Hev1 & Hsign & Hrun).
  destruct (accessStore_events this rec handling σ1)
    as (evs1' & Hev1' & Hnosign & _).
  rewrite Hev1 in Hev1'. apply app_inv_head in Hev1' as <-.
  exists tok, rso, rec, σ1, evs1, evs2. cbn zeta.
  split; [done|]. split; [done|]. split; [done|]. split; [done|].
  split; [done|]. split; [done|]. split; [done|].
  destruct ((accessStore this rec handling σ1).1) as [[|result]|e] eqn:Hst.
  - right. right. split; [done|]. destruct Hrun as (_ & _ & Hrun).
    destruct (generateAuthenticationResult _ _ _ _ _ _ _ _)
      as [[res|e] σ3] eqn:Hres; cbn [fst snd];
      (split; [|done]); rewrite Hrun in Htrace; cbn [snd] in Htrace;
      rewrite Htrace, Hev1, Ht; by rewrite app_assoc.
  - right. left. destruct Hrun as [Hrun ->]. eauto.
  - left. destruct Hrun as [Hrun ->]. eauto.
Qed.

(** X8.  A handler without a persistence plug-in, or without a serializable
    cache, invokes neither [beforeCacheAccess] nor [afterCacheAccess]. *)
Theorem hooks_need_plugin_and_cache this serverTokenResponse authority
    resourceRequestMethod resourceRequestUri cachedNonce cachedState
    requestScopes oboAssertion handling σ evs :
  let run := handleServerTokenResponse this serverTokenResponse authority
               resourceRequestMethod resourceRequestUri cachedNonce cachedState
               requestScopes oboAssertion handling σ in
  trace run.2 = trace σ ++ evs →
  persistencePlugin this = None ∨ serializableCache this = None →
  forallb (λ ev, negb (isHookEvent ev)) evs = true.
Proof.
  intros run Htrace Hcfg.
  destruct (handleServerTokenResponse_parts _ _ _ _ _ _ _ _ _ _ _ _ Htrace)
    as [(e & σ1 & _ & -> & _)
       |(tok & rso & rec & σ1 & evs1 & evs2 & _ & _ & _ & -> & Hev1 & _
         & Hsign & _)]; [done|].
  rewrite forallb_app.
  destruct (accessStore_paths this rec handling σ1 evs1 Hev1)
    as (_ & _ & _ & _ & _ & Hhooks & _).
  rewrite (Hhooks Hcfg). cbn.
  revert Hsign. apply forallb_impl. by intros [].
Qed.

(** X9.  The store is queried only by the refresh guard: a call that is
    not handling a refresh-token response, or whose response has no id
    token (so that the record names no account), never calls
    [getAccount]. *)
Theorem lookup_only_when_refreshing this serverTokenResponse authority
    resourceRequestMethod resourceRequestUri cachedNonce cachedState
    requestScopes oboAssertion handling σ evs :
  let run := handleServerTokenResponse this serverTokenResponse authority
               resourceRequestMethod resourceRequestUri cachedNonce cachedState
               requestScopes oboAssertion handling σ in
  trace run.2 = trace σ ++ evs →
  handling = false ∨ truthy (id_token serverTokenResponse) = false →
  forallb (λ ev, negb (isLookupEvent ev)) evs = true.
Proof.
  intros run Htrace Hno.
  destruct (handleServerTokenResponse_parts _ _ _ _ _ _ _ _ _ _ _ _ Htrace)
    as [(e & σ1 & _ & -> & _)
       |(tok & rso & rec & σ1 & evs1 & evs2 & Hb & _ & _ & -> & Hev1 & _
         & Hsign & _)]; [done|].
  rewrite forallb_app.
  destruct (accessStore_paths this rec handling σ1 evs1 Hev1)
    as (Hlookup & _).
  rewrite Hlookup; cbn.
  - revert Hsign. apply forallb_impl. by intros [].
  - destruct Hno as [?|Hid]; [by left|right].
    apply buildCacheRecord_Ok in Hb as (_ & _ & Hrec).
    apply generateCacheRecord_Ok in Hrec as (_ & _ & Hidentity & _).
    rewrite Hid in Hidentity. by destruct Hidentity.
Qed.

(** X10.  When the refresh guard finds the account in the store, the record
    is handed to [saveCacheRecord]. *)
Theorem refresh_of_known_account_is_written this serverTokenResponse authority
    resourceRequestMethod resourceRequestUri cachedNonce cachedState
    requestScopes oboAssertion handling σ evs key found :
  let run := handleServerTokenResponse this serverTokenResponse authority
               resourceRequestMethod resourceRequestUri cachedNonce cachedState
               requestScopes oboAssertion handling σ in
  trace run.2 = trace σ ++ evs →
  GetAccount key (Fine (Some found)) ∈ evs →
  ∃ idTokenObj requestStateObj cacheRecord σ1 reply,
    buildCacheRecord this serverTokenResponse authority cachedNonce cachedState
      requestScopes oboAssertion σ
    = (Ok (idTokenObj, requestStateObj, cacheRecord), σ1)
    ∧ SaveCacheRecord cacheRecord reply ∈ evs.
Proof.
  intros run Htrace Hin.
  destruct (handleServerTokenResponse_parts _ _ _ _ _ _ _ _ _ _ _ _ Htrace)
    as [(e & σ1 & _ & -> & _)
       |(tok & rso & rec & σ1 & evs1 & evs2 & Hb & _ & _ & -> & Hev1 & _
         & Hsign & _)]; [by apply elem_of_nil in Hin|].
  apply elem_of_app in Hin as [Hin|Hin];
    [|by apply (forallb_elem_of _ _ _ Hsign) in Hin].
  destruct (accessStore_paths this rec handling σ1 evs1 Hev1)
    as (_ & Hsave & _).
  destruct (Hsave _ _ Hin) as [reply Hsaved].
  exists tok, rso, rec, σ1, reply. split; [done|].
  apply elem_of_app. by left.
Qed.

(** X11.  When [beforeCacheAccess] fails the store is neither queried nor
    written, [afterCacheAccess] is still invoked, and the call fails with
    an error of the plug-in. *)
Theorem failed_acquisition_skips_store this serverTokenResponse authority
    resourceRequestMethod resourceRequestUri cachedNonce cachedState
    requestScopes oboAssertion handling σ evs c what :
  let run := handleServerTokenResponse this serverTokenResponse authority
               resourceRequestMethod resourceRequestUri cachedNonce cachedState
               requestScopes oboAssertion handling σ in
  trace run.2 = trace σ ++ evs →
  BeforeCacheAccess c (Failed what) ∈ evs →
  (∃ after, evs = [BeforeCacheAccess c (Failed what);
                   AfterCacheAccess c after])
  ∧ ∃ what', run.1 = Throw (Raised cachePlugin what').
Proof.
  intros run Htrace Hin.
  destruct (handleServerTokenResponse_parts _ _ _ _ _ _ _ _ _ _ _ _ Htrace)
    as [(e & σ1 & _ & -> & _)
       |(tok & rso & rec & σ1 & evs1 & evs2 & _ & _ & _ & -> & Hev1 & _
         & Hsign & Hrun)]; [by apply elem_of_nil in Hin|].
  apply elem_of_app in Hin as [Hin|Hin];
    [|by apply (forallb_elem_of _ _ _ Hsign) in Hin].
  destruct (accessStore_paths this rec handling σ1 evs1 Hev1)
    as (_ & _ & Hfailed & _).
  destruct (Hfailed _ _ Hin) as (Hnostore & what' & Hthrow).
  destruct Hrun as [(e & He & Hrun & ->)|[(? & He & _)|(He & _)]];
    [|congruence|congruence].
  rewrite app_nil_r.
  split; [|exists what'; unfold run; rewrite Hrun; cbn; congruence].
  destruct (persistencePlugin this) as [plugin|] eqn:Hp;
    [destruct (serializableCache this) as [cache|] eqn:Hc|].
  - destruct (accessStore_hooks this plugin cache rec handling σ1 Hp Hc)
      as (before & mid & after & Hev & Hmid & _).
    rewrite Hev1 in Hev. apply app_inv_head in Hev as ->.
    cbn in Hnostore. destruct mid as [|ev mid].
    + apply elem_of_cons in Hin as [[= <- <-]|Hin]; [eauto|].
      apply elem_of_cons in Hin as [[=]|Hin]. by apply elem_of_nil in Hin.
    + cbn in Hmid, Hnostore. apply andb_true_iff in Hmid as [Hev _].
      apply andb_true_iff in Hnostore as [Hev' _]. by rewrite Hev in Hev'.
  - destruct (accessStore_paths this rec handling σ1 evs1 Hev1)
      as (_ & _ & _ & _ & _ & Hhooks & _).
    by apply (forallb_elem_of _ _ _ (Hhooks (or_intror Hc))) in Hin.
  - destruct (accessStore_paths this rec handling σ1 evs1 Hev1)
      as (_ & _ & _ & _ & _ & Hhooks & _).
    by apply (forallb_elem_of _ _ _ (Hhooks (or_introl Hp))) in Hin.
Qed.

Lemma filter_none {A} (f : A → bool) (l : list A) :
  forallb (λ x, negb (f x)) l = true → List.filter f l = [].
Proof.
  induction l as [|x l IH]; cbn; [done|].
  intros [Hx Hl]%andb_true_iff. destruct (f x); [done|]. by apply IH.
Qed.

Lemma filter_elem_of_length {A} (f : A → bool) (l : list A) x :
  x ∈ l → f x = true → 1 ≤ length (List.filter f l).
Proof.
  induction l as [|y l IH]; intros Hin Hx; [by apply elem_of_nil in Hin|].
  apply elem_of_cons in Hin as [<-|Hin]; cbn.
  - rewrite Hx. cbn. lia.
  - destruct (f y); cbn; [lia|]. by apply IH.
Qed.

(** The errors with which the record is not built. *)
Lemma buildCacheRecord_Throw this serverTokenResponse authority cachedNonce
    cachedState requestScopes oboAssertion σ e σ1 :
  buildCacheRecord this serverTokenResponse authority cachedNonce cachedState
    requestScopes oboAssertion σ = (Throw e, σ1) →
  e = NonceMismatchError ∨ e = InvalidCacheEnvironmentError
  ∨ e = ClientInfoEmptyError
  ∨ ∃ who what, e = Raised who what
      ∧ who ∈ [clientInfoDecoder; idTokenDecoder; stateParser; accountFactory;
               scopeSetFactory].
Proof.
  unfold buildCacheRecord. intros Hrun.
  apply bind_Throw_inv in Hrun as [Hid|(tok & σa & Hid & Hrun)].
  { apply identify_Throw in Hid as [->|(what & [->| ->])]; [by left|..];
      do 3 right; eexists _, _; (split; [done|in_list]). }
  apply bind_Throw_inv in Hrun as [Hst|(rso & σb & Hst & Hrun)].
  { rewrite parseCachedState_spec in Hst.
    repeat case_match; simplify_eq.
    do 3 right. eexists _, _. split; [done|in_list]. }
  apply bind_Throw_inv in Hrun as [Hrec|(? & ? & _ & ?)]; [|done].
  apply generateCacheRecord_Throw in Hrec
    as [[_ ->]|[(_ & Ht & [[-> ->]|(token & -> & Hacct)])
               |(_ & _ & what & _ & ->)]].
  - auto.
  - apply identify_Ok in Hid as (? & _ & Htok & _).
    rewrite decodeIdToken_spec, Ht in Htok.
    repeat case_match; simplify_eq.
  - apply accountRule_Throw in Hacct as [->|[what ->]]; [auto|].
    do 3 right. eexists _, _. split; [done|in_list].
  - do 3 right. eexists _, _. split; [done|in_list].
Qed.

(** A failure of the signer is the only event of the assembly. *)
Lemma generateAuthenticationResult_signer cryptoObj cacheRecord idTokenObj
    fromTokenCache requestState resourceRequestMethod resourceRequestUri σ what :
  let run := generateAuthenticationResult cryptoObj cacheRecord idTokenObj
               fromTokenCache requestState resourceRequestMethod
               resourceRequestUri σ in
  run.1 = Throw (Raised popSigner what) →
  ∃ cached, accessToken cacheRecord = Some cached
    ∧ at_tokenType cached = Some POP
    ∧ trace run.2
      = trace σ ++ [SignPopToken (at_secret cached) resourceRequestMethod
                      resourceRequestUri (Failed what)].
Proof.
  intros run. subst run. unfold generateAuthenticationResult. eff.
  explode; cbn; intros [=]; subst.
  match goal with
  | Hpop : bool_decide _ = true |- _ => apply bool_decide_eq_true in Hpop
  end.
  eauto.
Qed.

(** The part of the result that is read off the id token object and the app
    metadata. *)
Lemma generateAuthenticationResult_identity cryptoObj cacheRecord idTokenObj
    fromTokenCache requestState resourceRequestMethod resourceRequestUri σ
    result σ' :
  generateAuthenticationResult cryptoObj cacheRecord idTokenObj fromTokenCache
    requestState resourceRequestMethod resourceRequestUri σ = (Ok result, σ') →
  res_idTokenClaims result = claims <$> idTokenObj
  ∧ match idTokenObj with
    | Some token =>
        res_uniqueId result = js_or (oid (claims token)) (sub (claims token))
        ∧ res_tenantId result = tid (claims token)
        ∧ res_idToken result = rawToken token
    | None =>
        res_uniqueId result = Some "" ∧ res_tenantId result = Some ""
        ∧ res_idToken result = Some ""
    end.
Proof.
  unfold generateAuthenticationResult. eff. intros Hrun.
  explode; split_and!; eauto.
Qed.

(** X12.  A call hands at most one record to [saveCacheRecord], and it
    returns a result only after the store acknowledged the record the call
    built. *)
Theorem a_result_follows_one_write this serverTokenResponse authority
    resourceRequestMethod resourceRequestUri cachedNonce cachedState
    requestScopes oboAssertion handling σ evs :
  let run := handleServerTokenResponse this serverTokenResponse authority
               resourceRequestMethod resourceRequestUri cachedNonce cachedState
               requestScopes oboAssertion handling σ in
  trace run.2 = trace σ ++ evs →
  length (List.filter isSaveEvent evs) ≤ 1
  ∧ ∀ result, run.1 = Ok (Some result) →
      ∃ idTokenObj requestStateObj cacheRecord σ1,
        buildCacheRecord this serverTokenResponse authority cachedNonce
          cachedState requestScopes oboAssertion σ
        = (Ok (idTokenObj, requestStateObj, cacheRecord), σ1)
        ∧ SaveCacheRecord cacheRecord (Fine tt) ∈ evs
        ∧ length (List.filter isSaveEvent evs) = 1.
Proof.
  intros run Htrace.
  destruct (handleServerTokenResponse_parts _ _ _ _ _ _ _ _ _ _ _ _ Htrace)
    as [(e & σ1 & _ & -> & Hrun & _)
       |(tok & rso & rec & σ1 & evs1 & evs2 & Hb & _ & _ & -> & Hev1 & _
         & Hsign & Hrun)].
  { split; [cbn; lia|]. intros result Hres. unfold run in Hres.
    by rewrite Hrun in Hres. }
  destruct (accessStore_paths this rec handling σ1 evs1 Hev1)
    as (_ & _ & _ & Hone & Hreturn & _ & _ & Hcont).
  assert (List.filter isSaveEvent evs2 = []) as Hnone.
  { apply filter_none. revert Hsign. apply forallb_impl. by intros []. }
  rewrite List.filter_app, Hnone, app_nil_r.
  split; [done|]. intros result Hres. unfold run in Hres.
  destruct Hrun as [(e & _ & Hrun & _)|[(v & Hv & Hrun & _)|(Hc & _)]].
  - by rewrite Hrun in Hres.
  - rewrite Hrun in Hres. injection Hres as ->.
    destruct (accessStore_events this rec handling σ1)
      as (_ & _ & _ & _ & Hnull & _).
    by apply Hnull in Hv.
  - exists tok, rso, rec, σ1. split; [done|].
    assert (SaveCacheRecord rec (Fine tt) ∈ evs1) as Hin.
    { destruct (Hcont Hc) as [before [->|[c ->]]];
        apply elem_of_app; right; in_list. }
    split; [apply elem_of_app; by left|].
    pose proof (filter_elem_of_length isSaveEvent _ _ Hin eq_refl). lia.
Qed.

(** X13.  A call returns [null] only through the refresh guard: it was
    handling a refresh-token response with an id token, the account was
    looked up and not found, and nothing was handed to [saveCacheRecord]. *)
Theorem null_only_from_refresh_guard this serverTokenResponse authority
    resourceRequestMethod resourceRequestUri cachedNonce cachedState
    requestScopes oboAssertion handling σ evs :
  let run := handleServerTokenResponse this serverTokenResponse authority
               resourceRequestMethod resourceRequestUri cachedNonce cachedState
               requestScopes oboAssertion handling σ in
  trace run.2 = trace σ ++ evs →
  run.1 = Ok None →
  handling = true
  ∧ truthy (id_token serverTokenResponse) = true
  ∧ (∃ key, GetAccount key (Fine None) ∈ evs)
  ∧ forallb (λ ev, negb (isSaveEvent ev)) evs = true
  ∧ forallb (λ ev, negb (isSignEvent ev)) evs = true.
Proof.
  intros run Htrace Hres. unfold run in Hres.
  destruct (handleServerTokenResponse_parts _ _ _ _ _ _ _ _ _ _ _ _ Htrace)
    as [(e & σ1 & _ & -> & Hrun & _)
       |(tok & rso & rec & σ1 & evs1 & evs2 & Hb & _ & _ & -> & Hev1 & Hnosign
         & Hsign & Hrun)]; [by rewrite Hrun in Hres|].
  destruct (accessStore_paths this rec handling σ1 evs1 Hev1)
    as (Hlookup & _ & _ & _ & Hreturn & _).
  destruct Hrun as [(e & _ & Hrun & _)|[(v & Hv & Hrun & ->)|(_ & _ & Hrun)]].
  - by rewrite Hrun in Hres.
  - rewrite app_nil_r.
    destruct (Hreturn _ Hv) as (-> & Hnosave & key & Hin).
    split; [done|]. split; [|eauto].
    destruct (truthy (id_token serverTokenResponse)) eqn:Hid; [done|].
    apply buildCacheRecord_Ok in Hb as (_ & _ & Hrec).
    apply generateCacheRecord_Ok in Hrec as (_ & _ & Hidentity & _).
    rewrite Hid in Hidentity. destruct Hidentity as [_ Hacct].
    by apply (forallb_elem_of _ _ _ (Hlookup (or_intror Hacct))) in Hin.
  - rewrite Hrun in Hres. cbn [fst] in Hres.
    by destruct ((generateAuthenticationResult _ _ _ _ _ _ _ _).1).
Qed.

(** X14.  The record is written before the access token is signed: when the
    call fails with an error of the signer, the response was of the PoP
    scheme, the store has acknowledged the record, and the failed signature
    is the last event. *)
Theorem signer_failure_follows_write this serverTokenResponse authority
    resourceRequestMethod resourceRequestUri cachedNonce cachedState
    requestScopes oboAssertion handling σ evs what :
  let run := handleServerTokenResponse this serverTokenResponse authority
               resourceRequestMethod resourceRequestUri cachedNonce cachedState
               requestScopes oboAssertion handling σ in
  trace run.2 = trace σ ++ evs →
  run.1 = Throw (Raised popSigner what) →
  token_type serverTokenResponse = Some POP
  ∧ ∃ idTokenObj requestStateObj cacheRecord σ1 before,
      buildCacheRecord this serverTokenResponse authority cachedNonce
        cachedState requestScopes oboAssertion σ
      = (Ok (idTokenObj, requestStateObj, cacheRecord), σ1)
      ∧ SaveCacheRecord cacheRecord (Fine tt) ∈ before
      ∧ evs = before
              ++ [SignPopToken (access_token serverTokenResponse)
                    resourceRequestMethod resourceRequestUri (Failed what)].
Proof.
  intros run Htrace Hres. unfold run in Hres.
  destruct (handleServerTokenResponse_parts _ _ _ _ _ _ _ _ _ _ _ _ Htrace)
    as [(e & σ1 & Hb & -> & Hrun & _)
       |(tok & rso & rec & σ1 & evs1 & evs2 & Hb & _ & _ & -> & Hev1 & Hnosign
         & Hsign & Hrun)].
  { rewrite Hrun in Hres. injection Hres as ->.
    apply buildCacheRecord_Throw in Hb
      as [?|[?|[?|(who & what' & [= <- <-] & Hin)]]]; [done..|].
    set_unfold in Hin. naive_solver. }
  destruct (accessStore_paths this rec handling σ1 evs1 Hev1)
    as (_ & _ & _ & _ & _ & _ & Hthrow & Hcont).
  destruct Hrun as [(e & He & Hrun & _)|[(v & _ & Hrun & _)|(Hc & Hev2 & Hrun)]].
  - rewrite Hrun in Hres. injection Hres as ->.
    destruct (Hthrow _ He) as [? [?|?]]; done.
  - by rewrite Hrun in Hres.
  - rewrite Hrun in Hres. cbn [fst] in Hres.
    assert ((generateAuthenticationResult (cryptoObj this) rec tok false rso
               resourceRequestMethod resourceRequestUri
               (accessStore this rec handling σ1).2).1
            = Throw (Raised popSigner what)) as Hsigner.
    { by destruct ((generateAuthenticationResult _ _ _ _ _ _ _ _).1);
        simplify_eq. }
    apply generateAuthenticationResult_signer in Hsigner
      as (cached & Hcached & Htype & Hlast).
    rewrite Hlast in Hev2. apply app_inv_head in Hev2 as <-.
    apply buildCacheRecord_Ok in Hb as Hparts. destruct Hparts as (_ & _ & Hrec).
    apply generateCacheRecord_Ok in Hrec as (_ & _ & _ & Hat & _).
    destruct (truthy (access_token serverTokenResponse)); [|congruence].
    destruct Hat as (sc & _ & Hat). rewrite Hat in Hcached.
    injection Hcached as <-. cbn in Htype |- *.
    split; [done|]. exists tok, rso, rec, σ1, evs1. split; [done|].
    split; [|done].
    destruct (Hcont Hc) as [before [->|[c ->]]];
      apply elem_of_app; right; in_list.
Qed.

(** X15.  The errors of a call: [NonceMismatchError],
    [InvalidCacheEnvironmentError] and [ClientInfoEmptyError] are the ones
    it raises itself; any other error is that of one of the collaborators it
    calls. *)
Theorem errors_of_a_call this serverTokenResponse authority
    resourceRequestMethod resourceRequestUri cachedNonce cachedState
    requestScopes oboAssertion handling σ e :
  let run := handleServerTokenResponse this serverTokenResponse authority
               resourceRequestMethod resourceRequestUri cachedNonce cachedState
               requestScopes oboAssertion handling σ in
  run.1 = Throw e →
  e = NonceMismatchError ∨ e = InvalidCacheEnvironmentError
  ∨ e = ClientInfoEmptyError
  ∨ ∃ who what, e = Raised who what
      ∧ who ∈ [clientInfoDecoder; idTokenDecoder; stateParser; accountFactory;
               scopeSetFactory; cacheStore; cachePlugin; popSigner].
Proof.
  intros run Hres. unfold run in Hres.
  pose proof (handleServerTokenResponse_cases this serverTokenResponse
    authority resourceRequestMethod resourceRequestUri cachedNonce cachedState
    requestScopes oboAssertion handling σ) as Hcases. cbn zeta in Hcases.
  destruct (buildCacheRecord _ _ _ _ _ _ _ _) as [[[[tok rso] rec]|e'] σ1]
    eqn:Hb.
  2:{ rewrite Hcases in Hres. injection Hres as ->.
      apply buildCacheRecord_Throw in Hb
        as [?|[?|[?|(who & what & -> & Hin)]]]; auto.
      do 3 right. exists who, what. split; [done|].
      set_unfold in Hin. set_unfold. naive_solver. }
  destruct (accessStore_events this rec handling σ1) as (evs1 & Hev1 & _).
  destruct (accessStore_paths this rec handling σ1 evs1 Hev1)
    as (_ & _ & _ & _ & _ & _ & Hthrow & _).
  destruct (accessStore _ _ _ _) as [[[|result]|e'] σ2].
  - pose proof (generateAuthenticationResult_events (cryptoObj this) rec tok
      false rso resourceRequestMethod resourceRequestUri σ2)
      as (evs2 & _ & _ & Hwho & Hraised).
    destruct (generateAuthenticationResult _ _ _ _ _ _ _ _) as [[res|e'] σ3];
      rewrite Hcases in Hres; [done|]. injection Hres as ->.
    destruct (Hraised _ eq_refl) as (who & what & ->).
    do 3 right. exists who, what. split; [done|].
    destruct (Hwho _ _ eq_refl) as [-> | ->]; in_list.
  - by rewrite Hcases in Hres.
  - rewrite Hcases in Hres. injection Hres as ->.
    destruct (Hthrow _ eq_refl) as [what [->| ->]];
      do 3 right; eexists _, _; (split; [done|in_list]).
Qed.

(** X16.  The errors of the mapping to cache entities come before the
    cache: a call that fails with [InvalidCacheEnvironmentError], with
    [ClientInfoEmptyError] or with an error of the account factory has
    called neither the store nor the plug-in nor the signer, and has left
    the world as it was. *)
Theorem mapping_errors_precede_cache this serverTokenResponse authority
    resourceRequestMethod resourceRequestUri cachedNonce cachedState
    requestScopes oboAssertion handling σ evs e :
  let run := handleServerTokenResponse this serverTokenResponse authority
               resourceRequestMethod resourceRequestUri cachedNonce cachedState
               requestScopes oboAssertion handling σ in
  trace run.2 = trace σ ++ evs →
  run.1 = Throw e →
  (e = InvalidCacheEnvironmentError ∨ e = ClientInfoEmptyError
   ∨ ∃ what, e = Raised accountFactory what) →
  evs = [] ∧ world run.2 = world σ.
Proof.
  intros run Htrace Hres He. unfold run in Hres.
  destruct (handleServerTokenResponse_parts _ _ _ _ _ _ _ _ _ _ _ _ Htrace)
    as [(e' & σ1 & Hb & -> & Hrun & Hw)
       |(tok & rso & rec & σ1 & evs1 & evs2 & Hb & _ & _ & -> & Hev1 & Hnosign
         & Hsign & Hrun)].
  { unfold run. by rewrite Hrun. }
  exfalso.
  destruct (accessStore_paths this rec handling σ1 evs1 Hev1)
    as (_ & _ & _ & _ & _ & _ & Hthrow & _).
  destruct Hrun as [(e' & He' & Hrun & _)|[(v & _ & Hrun & _)|(_ & _ & Hrun)]].
  - rewrite Hrun in Hres. injection Hres as ->.
    destruct (Hthrow _ He') as [what [->| ->]]; naive_solver.
  - by rewrite Hrun in Hres.
  - rewrite Hrun in Hres. cbn [fst] in Hres.
    pose proof (generateAuthenticationResult_events (cryptoObj this) rec tok
      false rso resourceRequestMethod resourceRequestUri
      (accessStore this rec handling σ1).2) as (_ & _ & _ & Hwho & Hraised).
    cbn zeta in Hwho, Hraised.
    destruct ((generateAuthenticationResult _ _ _ _ _ _ _ _).1) as [res|e'];
      [done|]. injection Hres as ->.
    destruct (Hraised _ eq_refl) as (who & what & ->).
    destruct (Hwho _ _ eq_refl) as [-> | ->]; naive_solver.
Qed.

(** X17.  For an authority whose environment is empty every call fails, and
    it fails before the store, the plug-in or the signer is called. *)
Theorem empty_environment_never_reaches_cache this serverTokenResponse
    authority resourceRequestMethod resourceRequestUri cachedNonce cachedState
    requestScopes oboAssertion handling σ :
  let run := handleServerTokenResponse this serverTokenResponse authority
               resourceRequestMethod resourceRequestUri cachedNonce cachedState
               requestScopes oboAssertion handling σ in
  isEmpty (generateEnvironmentFromAuthority authority) = true →
  (∃ e, run.1 = Throw e)
  ∧ trace run.2 = trace σ ∧ world run.2 = world σ.
Proof.
  intros run Henv. unfold run.
  pose proof (handleServerTokenResponse_cases this serverTokenResponse
    authority resourceRequestMethod resourceRequestUri cachedNonce cachedState
    requestScopes oboAssertion handling σ) as Hcases. cbn zeta in Hcases.
  pose proof (silent_buildCacheRecord this serverTokenResponse authority
    cachedNonce cachedState requestScopes oboAssertion σ) as [Hw Ht].
  destruct (buildCacheRecord _ _ _ _ _ _ _ _) as [[[[tok rso] rec]|e] σ1]
    eqn:Hb.
  - apply buildCacheRecord_Ok in Hb as (_ & _ & Hrec).
    apply generateCacheRecord_Ok in Hrec as (_ & Hne & _). congruence.
  - rewrite Hcases. cbn in *. eauto.
Qed.

(** The failures inside the store access. *)
Lemma accessStore_failures this cacheRecord handling σ evs :
  let run := accessStore this cacheRecord handling σ in
  trace run.2 = trace σ ++ evs →
  (∀ key what, GetAccount key (Failed what) ∈ evs →
     forallb (λ ev, negb (isSaveEvent ev)) evs = true
     ∧ (run.1 = Throw (Raised cacheStore what)
        ∨ ∃ what', run.1 = Throw (Raised cachePlugin what')))
  ∧ (∀ c what, AfterCacheAccess c (Failed what) ∈ evs →
       run.1 = Throw (Raised cachePlugin what)
       ∧ last evs = Some (AfterCacheAccess c (Failed what))).
Proof.
  intros run. subst run. unfold accessStore. eff. explode.
  all: cbn; intros Htrace; list_eq Htrace.
  all: repeat match goal with u : unit |- _ => destruct u end.
  all: split.
  all: intros ? ? Hin; set_unfold in Hin; destruct_or?; simplify_eq.
  all: split; eauto.
Qed.

(** The store access of a handler without persistence, past the refresh
    guard: the write and nothing else. *)
Lemma accessStore_plain this cacheRecord handling σ :
  persistencePlugin this = None ∨ serializableCache this = None →
  handling = false ∨ account cacheRecord = None →
  let written := saveCacheRecord (cacheStorage this) cacheRecord (world σ) in
  accessStore this cacheRecord handling σ
  = (match written.1 with
     | Fine _ => Ok Continue
     | Failed what => Throw (Raised cacheStore what)
     end,
     set_world written.2 (SaveCacheRecord cacheRecord written.1)
       (set_cacheContext None σ)).
Proof.
  intros Hcfg Hguard written. subst written. unfold accessStore. eff.
  assert (match persistencePlugin this, serializableCache this with
          | Some _, Some _ => False
          | _, _ => True
          end) as Hnone.
  { destruct Hcfg as [-> | ->]; [done|by destruct (persistencePlugin this)]. }
  assert (match handling, account cacheRecord with
          | true, Some _ => False
          | _, _ => True
          end) as Hpast.
  { destruct Hguard as [-> | ->]; [done|by destruct handling]. }
  destruct (persistencePlugin this), (serializableCache this); try done.
  all: destruct handling, (account cacheRecord); try done.
  all: cbn.
  all: by destruct (saveCacheRecord _ _ _) as [[[]|what] w].
Qed.

(** A result is assembled from the record the call built. *)
Lemma result_is_assembled this serverTokenResponse authority
    resourceRequestMethod resourceRequestUri cachedNonce cachedState
    requestScopes oboAssertion handling σ result :
  let run := handleServerTokenResponse this serverTokenResponse authority
               resourceRequestMethod resourceRequestUri cachedNonce cachedState
               requestScopes oboAssertion handling σ in
  run.1 = Ok (Some result) →
  ∃ idTokenObj requestStateObj cacheRecord σ1 σ2 σ3,
    buildCacheRecord this serverTokenResponse authority cachedNonce cachedState
      requestScopes oboAssertion σ
    = (Ok (idTokenObj, requestStateObj, cacheRecord), σ1)
    ∧ world σ1 = world σ
    ∧ generateAuthenticationResult (cryptoObj this) cacheRecord idTokenObj
        false requestStateObj resourceRequestMethod resourceRequestUri σ2
      = (Ok result, σ3).
Proof.
  intros run Hres. unfold run in Hres.
  pose proof (handleServerTokenResponse_cases this serverTokenResponse
    authority resourceRequestMethod resourceRequestUri cachedNonce cachedState
    requestScopes oboAssertion handling σ) as Hcases. cbn zeta in Hcases.
  pose proof (silent_buildCacheRecord this serverTokenResponse authority
    cachedNonce cachedState requestScopes oboAssertion σ) as [Hw Ht].
  destruct (buildCacheRecord _ _ _ _ _ _ _ _) as [[[[tok rso] rec]|e] σ1]
    eqn:Hb; [|by rewrite Hcases in Hres].
  destruct (accessStore_events this rec handling σ1)
    as (evs1 & _ & _ & _ & Hnull & _).
  destruct (accessStore this rec handling σ1) as [[[|v]|e] σ2].
  - destruct (generateAuthenticationResult _ _ _ _ _ _ _ _)
      as [[res|e] σ3] eqn:Hgar; rewrite Hcases in Hres; [|done].
    injection Hres as ->. eauto 10.
  - rewrite Hcases in Hres. injection Hres as ->.
    by specialize (Hnull _ eq_refl).
  - by rewrite Hcases in Hres.
Qed.

(** X18.  The result of a call for a response with an access token, when
    the baseline timestamp and the lifetimes of the response are not
    negative and end within the seconds a date can hold: its expirations
    are the dates of the baseline timestamp plus the lifetimes, 1000
    milliseconds for each second; it is not from the cache; its token type
    is that of the response when the response names one; its access token
    is that of the response unless the response is of the PoP scheme; and
    its scopes are those of the response (of the request when the response
    declares none), printed and parsed again. *)
Theorem result_reflects_response this serverTokenResponse authority
    resourceRequestMethod resourceRequestUri cachedNonce cachedState
    requestScopes oboAssertion handling σ result (lifetime extended : Z) :
  let run := handleServerTokenResponse this serverTokenResponse authority
               resourceRequestMethod resourceRequestUri cachedNonce cachedState
               requestScopes oboAssertion handling σ in
  let baseline := baselineTimestamp this cachedState (world σ) in
  run.1 = Ok (Some result) →
  truthy (access_token serverTokenResponse) = true →
  expires_in serverTokenResponse = Some lifetime →
  ext_expires_in serverTokenResponse = Some extended →
  (0 ≤ baseline)%Z → (0 ≤ lifetime)%Z → (0 ≤ extended)%Z →
  (baseline + lifetime + extended ≤ 8640000000000)%Z →
  res_expiresOn result = Some (DateOf ((baseline + lifetime) * 1000))
  ∧ res_extExpiresOn result
    = Some (DateOf ((baseline + lifetime + extended) * 1000))
  ∧ res_fromCache result = false
  ∧ (truthy (token_type serverTokenResponse) = true →
     res_tokenType result = token_type serverTokenResponse)
  ∧ (token_type serverTokenResponse ≠ Some POP →
     res_accessToken result = access_token serverTokenResponse)
  ∧ ∃ declared reparsed,
      responseScopesOf serverTokenResponse requestScopes = Fine declared
      ∧ ScopeSet_fromString (Some (printScopes declared)) = Fine reparsed
      ∧ res_scopes result = asArray reparsed.
Proof.
  intros run baseline Hres Hat Hexp Hext Hb Hl He Hbound.
  apply result_is_assembled in Hres
    as (tok & rso & rec & σ1 & σ2 & σ3 & Hbuilt & Hw & Hgar).
  apply buildCacheRecord_Ok in Hbuilt as (_ & Hst & Hrec).
  apply generateCacheRecord_Ok in Hrec as (_ & _ & _ & Hcached & _).
  rewrite Hat, Hexp, Hext in Hcached. destruct Hcached as (sc & Hsc & Hcached).
  apply generateAuthenticationResult_Ok in Hgar as (_ & _ & Hfrom & Hfields).
  rewrite Hcached in Hfields.
  cbn [at_expiresOn at_extendedExpiresOn at_tokenType at_target at_secret
       createAccessTokenEntity] in Hfields.
  rewrite (baselineOf_parsed _ _ _ _ _ Hst), Hw in Hfields.
  fold baseline in Hfields.
  destruct (expirations_exact baseline lifetime extended) as [Hsum Hsums];
    try (unfold exactInteger; lia).
  rewrite Hsums, Hsum, !newDate_seconds in Hfields. unfold dateOfSeconds in Hfields.
  destruct (Z.leb_spec (Z.abs (baseline + lifetime)) 8640000000000); [|lia].
  destruct (Z.leb_spec (Z.abs (baseline + lifetime + extended)) 8640000000000);
    [|lia].
  destruct Hfields as (-> & -> & -> & (reparsed & Hre & ->) & Htoken).
  split_and!; try done.
  - intros Hnot. rewrite bool_decide_false in Htoken by done. by destruct Htoken.
  - eauto.
Qed.

(** X19.  The result of a call for a response without an access token has
    an empty access token and token type, no scopes and no expirations, and
    the signer has not been called. *)
Theorem result_without_access_token this serverTokenResponse authority
    resourceRequestMethod resourceRequestUri cachedNonce cachedState
    requestScopes oboAssertion handling σ evs result :
  let run := handleServerTokenResponse this serverTokenResponse authority
               resourceRequestMethod resourceRequestUri cachedNonce cachedState
               requestScopes oboAssertion handling σ in
  trace run.2 = trace σ ++ evs →
  run.1 = Ok (Some result) →
  truthy (access_token serverTokenResponse) = false →
  res_accessToken result = Some "" ∧ res_tokenType result = Some ""
  ∧ res_scopes result = []
  ∧ res_expiresOn result = None ∧ res_extExpiresOn result = None
  ∧ forallb (λ ev, negb (isSignEvent ev)) evs = true.
Proof.
  intros run Htrace Hres Hat.
  destruct (handleServerTokenResponse_parts _ _ _ _ _ _ _ _ _ _ _ _ Htrace)
    as [(e & σ1 & _ & _ & Hrun & _)
       |(tok & rso & rec & σ1 & evs1 & evs2 & Hb & _ & _ & -> & Hev1 & Hnosign
         & Hsign & Hrun)]; unfold run in Hres;
    [by rewrite Hrun in Hres|].
  apply buildCacheRecord_Ok in Hb as (_ & _ & Hrec).
  apply generateCacheRecord_Ok in Hrec as (_ & _ & _ & Hcached & _).
  rewrite Hat in Hcached.
  destruct Hrun as [(e & _ & Hrun & _)|[(v & Hv & Hrun & _)|(_ & Hev2 & Hrun)]].
  - by rewrite Hrun in Hres.
  - rewrite Hrun in Hres. injection Hres as ->.
    destruct (accessStore_events this rec handling σ1)
      as (_ & _ & _ & _ & Hnull & _).
    by apply Hnull in Hv.
  - rewrite Hrun in Hres. cbn [fst] in Hres.
    destruct (generateAuthenticationResult _ _ _ _ _ _ _ _)
      as [[res|e] σ3] eqn:Hgar; cbn [fst snd] in *; [|done].
    injection Hres as ->.
    apply generateAuthenticationResult_Ok in Hgar as (_ & _ & _ & Hfields).
    rewrite Hcached in Hfields.
    destruct Hfields as (-> & -> & -> & -> & -> & ->).
    split_and!; try done.
    rewrite <- (app_nil_r (trace _)) in Hev2 at 1.
    apply app_inv_head in Hev2 as <-. by rewrite app_nil_r.
Qed.

(** X20.  The identity in the result of a call.  For a response with an id
    token it is read off the decoded token, whose nonce was accepted: the
    raw token, the claims, [oid] (or [sub]) as unique id, [tid] as tenant,
    and the account information of the account of the account rules.
    Without an id token these are empty or [null].  The state is the user
    state of the parsed request state, or empty. *)
Theorem result_identity this serverTokenResponse authority
    resourceRequestMethod resourceRequestUri cachedNonce cachedState
    requestScopes oboAssertion handling σ result :
  let run := handleServerTokenResponse this serverTokenResponse authority
               resourceRequestMethod resourceRequestUri cachedNonce cachedState
               requestScopes oboAssertion handling σ in
  run.1 = Ok (Some result) →
  (if truthy (id_token serverTokenResponse)
   then ∃ token cachedAccount,
     newAuthToken (id_token serverTokenResponse) (cryptoObj this) = Fine token
     ∧ nonceAccepted cachedNonce token
     ∧ accountRule this serverTokenResponse token authority oboAssertion
       = Ok cachedAccount
     ∧ res_idToken result = rawToken token
     ∧ res_idTokenClaims result = Some (claims token)
     ∧ res_uniqueId result = js_or (oid (claims token)) (sub (claims token))
     ∧ res_tenantId result = tid (claims token)
     ∧ res_account result = Some (getAccountInfo cachedAccount)
   else res_idToken result = Some "" ∧ res_idTokenClaims result = None
        ∧ res_uniqueId result = Some "" ∧ res_tenantId result = Some ""
        ∧ res_account result = None)
  ∧ (if truthy cachedState
     then ∃ requestStateObj,
       parseRequestState (cryptoObj this) cachedState = Fine requestStateObj
       ∧ res_state result = userRequestState requestStateObj
     else res_state result = Some "").
Proof.
  intros run Hres.
  apply result_is_assembled in Hres
    as (tok & rso & rec & σ1 & σ2 & σ3 & Hb & Hw & Hgar).
  apply buildCacheRecord_Ok in Hb as (Hid & Hst & Hrec).
  apply identify_Ok in Hid as (σa & _ & Htok & _).
  rewrite decodeIdToken_spec in Htok. rewrite parseCachedState_spec in Hst.
  apply generateCacheRecord_Ok in Hrec as (_ & _ & Hidentity & _).
  apply generateAuthenticationResult_identity in Hgar as Hident.
  destruct Hident as (Hclaims & Hident).
  apply generateAuthenticationResult_Ok in Hgar as (Hacct & Hstate & _).
  split.
  - destruct (truthy (id_token serverTokenResponse)).
    + destruct Hidentity as (token & acct & -> & Hrule & _ & Hrec).
      rewrite Hrec in Hacct. destruct Hident as (? & ? & ?).
      exists token, acct.
      destruct (newAuthToken _ _) as [token'|]; [|by simplify_eq].
      destruct (truthy cachedNonce && _) eqn:Hnonce; [by simplify_eq|].
      assert (token' = token) as -> by by simplify_eq.
      split_and!; try done.
      unfold nonceAccepted. rewrite truthy_isEmpty in Hnonce.
      destruct (isEmpty cachedNonce); [by left|right].
      cbn in Hnonce. apply bool_decide_eq_false in Hnonce.
      by destruct (decide (nonce (claims token) = cachedNonce)).
    + assert (tok = None) as -> by by simplify_eq.
      destruct Hidentity as [_ Hnone]. rewrite Hnone in Hacct.
      destruct Hident as (? & ? & ?). done.
  - destruct (truthy cachedState).
    + destruct (parseRequestState _ _) as [parsed|]; [|by simplify_eq].
      assert (rso = Some parsed) as -> by by simplify_eq. eauto.
    + by assert (rso = None) as -> by by simplify_eq.
Qed.

(** X21.  A lookup of the account that fails is not followed by a write:
    nothing is handed to [saveCacheRecord], the signer is not called, and
    the call fails with the error of the lookup, or with one of the
    plug-in. *)
Theorem failed_lookup_prevents_write this serverTokenResponse authority
    resourceRequestMethod resourceRequestUri cachedNonce cachedState
    requestScopes oboAssertion handling σ evs key what :
  let run := handleServerTokenResponse this serverTokenResponse authority
               resourceRequestMethod resourceRequestUri cachedNonce cachedState
               requestScopes oboAssertion handling σ in
  trace run.2 = trace σ ++ evs →
  GetAccount key (Failed what) ∈ evs →
  forallb (λ ev, negb (isSaveEvent ev)) evs = true
  ∧ forallb (λ ev, negb (isSignEvent ev)) evs = true
  ∧ (run.1 = Throw (Raised cacheStore what)
     ∨ ∃ what', run.1 = Throw (Raised cachePlugin what')).
Proof.
  intros run Htrace Hin.
  destruct (handleServerTokenResponse_parts _ _ _ _ _ _ _ _ _ _ _ _ Htrace)
    as [(e & σ1 & _ & -> & _)
       |(tok & rso & rec & σ1 & evs1 & evs2 & _ & _ & _ & -> & Hev1 & Hnosign
         & Hsign & Hrun)]; [by apply elem_of_nil in Hin|].
  apply elem_of_app in Hin as [Hin|Hin];
    [|by apply (forallb_elem_of _ _ _ Hsign) in Hin].
  destruct (accessStore_failures this rec handling σ1 evs1 Hev1)
    as (Hlookup & _).
  destruct (Hlookup _ _ Hin) as (Hnosave & Hthrow).
  destruct Hrun as [(e & He & Hrun & ->)|[(v & He & _)|(He & _)]];
    [|destruct Hthrow as [?|[? ?]]; congruence..].
  rewrite app_nil_r. unfold run. rewrite Hrun. cbn [fst].
  split; [done|]. split; [done|].
  destruct Hthrow as [Ht|[what' Ht]]; rewrite He in Ht; injection Ht as ->;
    eauto.
Qed.

(** An assembly that does not call the signer leaves the state as it is. *)
Lemma generateAuthenticationResult_quiet cryptoObj cacheRecord idTokenObj
    fromTokenCache requestState resourceRequestMethod resourceRequestUri σ :
  let run := generateAuthenticationResult cryptoObj cacheRecord idTokenObj
               fromTokenCache requestState resourceRequestMethod
               resourceRequestUri σ in
  trace run.2 = trace σ → run.2 = σ.
Proof.
  intros run. subst run. unfold generateAuthenticationResult. eff.
  explode; cbn; try done.
  all: intros Habs; rewrite <- (app_nil_r (trace σ)) in Habs at 2;
    by apply app_inv_head in Habs.
Qed.

(** X22.  A handler without persistence that is past the refresh guard
    does one thing to the world: the write.  When the store refuses the
    record the call fails with the error of the store, in the world the
    store left; when it accepts it, only the signer is called afterwards. *)
Theorem write_without_persistence this serverTokenResponse authority
    resourceRequestMethod resourceRequestUri cachedNonce cachedState
    requestScopes oboAssertion handling σ idTokenObj requestStateObj
    cacheRecord σ1 :
  let run := handleServerTokenResponse this serverTokenResponse authority
               resourceRequestMethod resourceRequestUri cachedNonce cachedState
               requestScopes oboAssertion handling σ in
  persistencePlugin this = None ∨ serializableCache this = None →
  handling = false ∨ truthy (id_token serverTokenResponse) = false →
  buildCacheRecord this serverTokenResponse authority cachedNonce cachedState
    requestScopes oboAssertion σ
  = (Ok (idTokenObj, requestStateObj, cacheRecord), σ1) →
  let written := saveCacheRecord (cacheStorage this) cacheRecord (world σ) in
  (∀ what, written.1 = Failed what →
     run.1 = Throw (Raised cacheStore what)
     ∧ world run.2 = written.2
     ∧ trace run.2 = trace σ ++ [SaveCacheRecord cacheRecord (Failed what)])
  ∧ (written.1 = Fine tt →
     ∃ signed,
       trace run.2 = trace σ ++ SaveCacheRecord cacheRecord (Fine tt) :: signed
       ∧ forallb isSignEvent signed = true
       ∧ (signed = [] → world run.2 = written.2)).
Proof.
  intros run Hcfg Hguard Hb written.
  pose proof (handleServerTokenResponse_cases this serverTokenResponse
    authority resourceRequestMethod resourceRequestUri cachedNonce cachedState
    requestScopes oboAssertion handling σ) as Hcases. cbn zeta in Hcases.
  pose proof (silent_buildCacheRecord this serverTokenResponse authority
    cachedNonce cachedState requestScopes oboAssertion σ) as [Hw Ht].
  rewrite Hb in Hcases, Hw, Ht. cbn [snd] in Hw, Ht.
  assert (handling = false ∨ account cacheRecord = None) as Hpast.
  { destruct Hguard as [?|Hid]; [by left|right].
    apply buildCacheRecord_Ok in Hb as (_ & _ & Hrec).
    apply generateCacheRecord_Ok in Hrec as (_ & _ & Hidentity & _).
    rewrite Hid in Hidentity. by destruct Hidentity. }
  rewrite (accessStore_plain this cacheRecord handling σ1 Hcfg Hpast) in Hcases.
  rewrite Hw in Hcases. fold written in Hcases.
  destruct written as [[[]|what] w]; cbn [fst snd] in *.
  - split; [done|]. intros _.
    pose proof (generateAuthenticationResult_events (cryptoObj this)
      cacheRecord idTokenObj false requestStateObj resourceRequestMethod
      resourceRequestUri
      (set_world w (SaveCacheRecord cacheRecord (Fine ()))
         (set_cacheContext None σ1))) as (signed & Hsigned & Hsign & _).
    cbn zeta in Hsigned.
    assert (run.2 = (generateAuthenticationResult (cryptoObj this)
               cacheRecord idTokenObj false requestStateObj
               resourceRequestMethod resourceRequestUri
               (set_world w (SaveCacheRecord cacheRecord (Fine ()))
                  (set_cacheContext None σ1))).2) as Hsame.
    { unfold run.
      by destruct (generateAuthenticationResult _ _ _ _ _ _ _ _) as [[?|?] ?];
        rewrite Hcases. }
    exists signed. rewrite Hsame, Hsigned. cbn. rewrite Ht, <- app_assoc.
    split; [done|]. split; [done|]. intros ->.
    rewrite app_nil_r in Hsigned.
    by rewrite (generateAuthenticationResult_quiet _ _ _ _ _ _ _ _ Hsigned).
  - split; [|done]. intros ? [= <-]. unfold run. rewrite Hcases. cbn.
    by rewrite Ht.
Qed.

(** X23.  The home account identifier is a field of the handler: when the
    [client_info] of a response decodes to a pair with an empty part, an
    identifier the handler holds from an earlier response is kept, the [sub]
    claim is not consulted, and the credentials of the new record carry the
    identifier of the earlier response. *)
Theorem held_identifier_survives_partial_client_info this serverTokenResponse
    authority cachedNonce cachedState requestScopes oboAssertion σ idTokenObj
    requestStateObj cacheRecord σ1 info :
  buildCacheRecord this serverTokenResponse authority cachedNonce cachedState
    requestScopes oboAssertion σ
  = (Ok (idTokenObj, requestStateObj, cacheRecord), σ1) →
  truthy (client_info serverTokenResponse) = true →
  buildClientInfo (client_info serverTokenResponse) (cryptoObj this)
  = Fine info →
  (isEmpty (uid info) || isEmpty (utid info)) = true →
  truthy (homeAccountIdentifier σ) = true →
  homeAccountIdentifier σ1 = homeAccountIdentifier σ
  ∧ clientInfo σ1 = Some info
  ∧ (∀ entity, idToken cacheRecord = Some entity →
       it_homeAccountId entity = homeAccountIdentifier σ)
  ∧ (∀ entity, accessToken cacheRecord = Some entity →
       at_homeAccountId entity = homeAccountIdentifier σ)
  ∧ (∀ entity, refreshToken cacheRecord = Some entity →
       rt_homeAccountId entity = homeAccountIdentifier σ).
Proof.
  intros Hb Hp Hinfo Hpartial Hheld.
  apply buildCacheRecord_Ok in Hb as (Hid & _ & Hrec).
  apply identify_Ok in Hid as (σa & Hci & _ & Hsub).
  rewrite homeAccountIdFromClientInfo_spec, Hp, Hinfo in Hci.
  rewrite homeAccountIdFromSubClaim_spec in Hsub.
  apply generateCacheRecord_Ok in Hrec as (_ & _ & Hit & Hat & Hrt & _).
  assert (σa = set_clientInfo (Some info) σ) as ->.
  { destruct (isEmpty (uid info)), (isEmpty (utid info));
      try discriminate; cbn in Hci; by injection Hci as <-. }
  cbn in Hsub. rewrite Hheld in Hsub. injection Hsub as <-. cbn in *.
  split_and!; try done.
  - intros entity He. destruct (truthy (id_token serverTokenResponse)).
    + destruct Hit as (? & ? & _ & _ & Hent & _). rewrite Hent in He.
      by simplify_eq.
    + destruct Hit as [Hent _]. congruence.
  - intros entity He. destruct (truthy (access_token serverTokenResponse)).
    + destruct Hat as (? & _ & Hent). rewrite Hent in He. by simplify_eq.
    + congruence.
  - intros entity He. rewrite Hrt in He.
    destruct (truthy (refresh_token serverTokenResponse)); by simplify_eq.
Qed.

(** X24.  [generateCacheRecord] fails with [ClientInfoEmptyError] exactly
    for a response with an id token and an empty [client_info], when the
    environment is not empty, the authority is not ADFS and its protocol
    mode is AAD.  An ADFS authority never needs [client_info]. *)
Theorem client_info_empty_error_iff this serverTokenResponse token authority
    libraryState requestScopes oboAssertion σ :
  (generateCacheRecord this serverTokenResponse (Some token) authority
     libraryState requestScopes oboAssertion σ).1 = Throw ClientInfoEmptyError
  ↔ isEmpty (generateEnvironmentFromAuthority authority) = false
    ∧ truthy (id_token serverTokenResponse) = true
    ∧ authorityType authority = Default
    ∧ isEmpty (client_info serverTokenResponse) = true
    ∧ protocolMode authority = "AAD".
Proof.
  destruct (generateCacheRecord this serverTokenResponse (Some token) authority
              libraryState requestScopes oboAssertion σ) as [[rec|e] σ']
    eqn:Hrun; cbn [fst].
  - split; [done|]. intros (_ & Hid & Hty & Hci & Hmode). exfalso.
    apply generateCacheRecord_Ok in Hrun as (_ & _ & Hidentity & _).
    rewrite Hid in Hidentity.
    destruct Hidentity as (token' & acct & [= <-] & Hrule & _).
    unfold accountRule in Hrule. rewrite Hty, Hci, Hmode in Hrule. done.
  - apply generateCacheRecord_Throw in Hrun as Hwhy.
    split.
    + intros [= ->].
      destruct Hwhy as [[_ ?]|[(Henv & Hid & [[? _]|(token' & [= <-] & Hrule)])
                              |(_ & _ & ? & _ & ?)]]; try done.
      unfold accountRule, outcome_of in Hrule.
      destruct (authorityType authority); [|by case_match].
      destruct (isEmpty (client_info serverTokenResponse)) eqn:Hci; cbn in Hrule.
      * destruct (String.eqb_spec (protocolMode authority) "AAD"); [done|].
        rewrite truthy_isEmpty, Hci in Hrule. cbn in Hrule. by case_match.
      * repeat case_match; simplify_eq.
    + intros (Henv & Hid & Hty & Hci & Hmode). f_equal.
      destruct Hwhy as [[? _]|[(_ & _ & [[? _]|(token' & [= <-] & Hrule)])
                              |(_ & Hat & what & Hsc & ->)]]; try congruence.
      * unfold accountRule in Hrule. rewrite Hty, Hci, Hmode in Hrule.
        cbn in Hrule. congruence.
      * exfalso. unfold generateCacheRecord in Hrun.
        rewrite Henv in Hrun. rewrite !truthy_isEmpty in Hid.
        apply bind_Throw_inv in Hrun as [Hthrow|(identity & σa & Hok & _)].
        -- destruct (isEmpty (id_token serverTokenResponse)); [done|].
           cbn [negb] in Hthrow.
           apply bind_Throw_inv in Hthrow as [?|(? & ? & Hget & Hthrow)];
             [done|]. unfold get in Hget. simplify_eq.
           apply bind_Throw_inv in Hthrow as [Hacct|(? & ? & _ & ?)]; [|done].
           rewrite generateAccountEntity_spec in Hacct.
           unfold accountRule in Hacct. rewrite Hty, Hci, Hmode in Hacct.
           cbn in Hacct. by simplify_eq.
        -- destruct (isEmpty (id_token serverTokenResponse)); [done|].
           cbn [negb] in Hok.
           apply bind_Ok_inv in Hok as (? & ? & Hget & Hok).
           unfold get in Hget. simplify_eq.
           apply bind_Ok_inv in Hok as (? & ? & Hacct & _).
           rewrite generateAccountEntity_spec in Hacct.
           unfold accountRule in Hacct. rewrite Hty, Hci, Hmode in Hacct.
           cbn in Hacct. by simplify_eq.
Qed.

(** X25.  A failure of [afterCacheAccess] is the outcome of the call,
    whatever the store access did before: the call fails with the error of
    the hook, which is its last event, so that no result is assembled even
    when the record has been written. *)
Theorem failed_release_is_the_outcome this serverTokenResponse authority
    resourceRequestMethod resourceRequestUri cachedNonce cachedState
    requestScopes oboAssertion handling σ evs c what :
  let run := handleServerTokenResponse this serverTokenResponse authority
               resourceRequestMethod resourceRequestUri cachedNonce cachedState
               requestScopes oboAssertion handling σ in
  trace run.2 = trace σ ++ evs →
  AfterCacheAccess c (Failed what) ∈ evs →
  run.1 = Throw (Raised cachePlugin what)
  ∧ last evs = Some (AfterCacheAccess c (Failed what)).
Proof.
  intros run Htrace Hin.
  destruct (handleServerTokenResponse_parts _ _ _ _ _ _ _ _ _ _ _ _ Htrace)
    as [(e & σ1 & _ & -> & _)
       |(tok & rso & rec & σ1 & evs1 & evs2 & _ & _ & _ & -> & Hev1 & Hnosign
         & Hsign & Hrun)]; [by apply elem_of_nil in Hin|].
  apply elem_of_app in Hin as [Hin|Hin];
    [|by apply (forallb_elem_of _ _ _ Hsign) in Hin].
  destruct (accessStore_failures this rec handling σ1 evs1 Hev1)
    as (_ & Hafter).
  destruct (Hafter _ _ Hin) as (Hthrow & Hlast).
  unfold run.
  destruct Hrun as [(e & He & -> & ->)|[(v & He & _)|(He & _)]];
    [|congruence..].
  rewrite app_nil_r. split; [|done]. cbn. congruence.
Qed.
End ResponseHandler.
End ResponseHandler.

(* ===================================================================== *)
(** ** A concrete deployment *)
(* ===================================================================== *)

(** Collaborators small enough to run: the properties above are applied to
    them at concrete inputs. *)
Module Scenario.
Import ResponseHandler.

(** Accounts, keyed by home account id, environment and realm. *)
Record Account := {
  acct_home : option string;
  acct_environment : option string;
  acct_realm : option string
}.

(** The world: the keys of the accounts in the store, the number of records
    written to it, the clock, and the number of snapshots the persistence
    plug-in has taken. *)
Record World := {
  accountKeys : list string;
  written : nat;
  clock : Z;
  snapshots : nat
}.

(** Modelled from the spec: [ScopeSet] (not among the sources) is the set
    abstraction of a scope string: the space-separated scopes, in order;
    an empty set of scopes is refused. *)
Fixpoint splitScopes (s : string) (current : string) : list string :=
  match s with
  | EmptyString => [current]
  | String c rest =>
      if Ascii.eqb c Ascii.Space then current :: splitScopes rest ""
      else splitScopes rest (current +:+ String c "")
  end.

Definition nonEmptyScopes (l : list string) : Reply (list string) :=
  match List.filter (λ scope, negb (String.eqb scope "")) l with
  | [] => Failed "empty_input_scopes_error"
  | scopes => Fine scopes
  end.

Definition accountKey (a : Account) : string :=
  template (acct_home a) +:+ "-" +:+ template (acct_environment a) +:+ "-"
  +:+ template (acct_realm a).

#[local] Instance scheme : AuthenticationScheme := {| POP := "pop" |}.

#[local] Instance imports :
    @Imports World unit Account Account (list string) := {|
  (* the strings below carry no percent escape *)
  decodeURIComponent s := Fine s;
  isInteractionRequiredError e d s :=
    match e with
    | Some code =>
        String.eqb code "interaction_required"
        || String.eqb code "consent_required"
        || String.eqb code "login_required"
    | None => false
    end;
  (* eyJ1aWQiOiJ1MSIsInV0aWQiOiJ0MSJ9 is base64 for {"uid":"u1","utid":"t1"},
     eyJ1aWQiOiIiLCJ1dGlkIjoidDEifQ== for {"uid":"","utid":"t1"} *)
  buildClientInfo raw _ :=
    match raw with
    | Some "eyJ1aWQiOiJ1MSIsInV0aWQiOiJ0MSJ9" =>
        Fine {| uid := Some "u1"; utid := Some "t1" |}
    | Some "eyJ1aWQiOiIiLCJ1dGlkIjoidDEifQ==" =>
        Fine {| uid := Some ""; utid := Some "t1" |}
    | _ => Failed "client_info_decoding_error"
    end;
  newAuthToken raw _ :=
    match raw with
    | Some "IDT1" =>
        Fine {| rawToken := raw;
                claims := {| nonce := Some "n1"; sub := Some "sub1";
                             oid := None; tid := Some "t1" |} |}
    | _ => Failed "token_parsing_error"
    end;
  parseRequestState _ state :=
    match state with
    | Some "STATE1" =>
        Fine {| userRequestState := Some "user-state";
                libraryState := Some {| ls_id := "id1"; ts := 1000 |} |}
    | _ => Failed "invalid_state"
    end;
  generateEnvironmentFromAuthority authority :=
    Some (canonicalAuthority authority);
  createAccount raw authority token _ _ :=
    Fine {| acct_home := Some "u1.t1";
            acct_environment := Some (canonicalAuthority authority);
            acct_realm := tid (claims token) |};
  createGenericAccount authority token _ :=
    Fine {| acct_home := sub (claims token);
            acct_environment := Some (canonicalAuthority authority);
            acct_realm := Some "" |};
  generateAccountKey := accountKey;
  getAccountInfo a := a;
  ScopeSet_fromString scopes :=
    nonEmptyScopes (splitScopes (default "" scopes) "");
  ScopeSet_new := nonEmptyScopes;
  printScopes := String.concat " ";
  asArray scopes := scopes;
  nowSeconds := clock;
  signPopToken _ secret method uri w :=
    (Fine (Some ("signed(" +:+ template secret +:+ "," +:+ template method
                 +:+ "," +:+ template uri +:+ ")")), w)
|}.

Definition store : @CacheManager World Account := {|
  getAccount key w :=
    Fine (if bool_decide (key ∈ accountKeys w)
          then Some {| acct_home := None; acct_environment := None;
                       acct_realm := None |}
          else None);
  saveCacheRecord cacheRecord w :=
    (Fine tt,
     {| accountKeys :=
          match account cacheRecord with
          | Some a => accountKey a :: accountKeys w
          | None => accountKeys w
          end;
        written := S (written w); clock := clock w;
        snapshots := snapshots w |})
|}.

(** A plug-in that takes a snapshot of the cache after each access. *)
Definition snapshotPlugin : @ICachePlugin World unit := {|
  beforeCacheAccess _ w := (Fine tt, w);
  afterCacheAccess _ w :=
    (Fine tt,
     {| accountKeys := accountKeys w; written := written w; clock := clock w;
        snapshots := S (snapshots w) |})
|}.

(** A plug-in whose medium is full: it cannot write the cache out. *)
Definition fullDiskPlugin : @ICachePlugin World unit := {|
  beforeCacheAccess _ w := (Fine tt, w);
  afterCacheAccess _ w := (Failed "ENOSPC", w)
|}.

Definition handlerWith (plugin : option (@ICachePlugin World unit))
    : @ResponseHandler.ResponseHandler World unit unit Account := {|
  clientId := "client-1";
  cacheStorage := store;
  cryptoObj := tt;
  serializableCache := Some tt;
  persistencePlugin := plugin
|}.

Definition contoso : Authority := {|
  authorityType := Default;
  protocolMode := "AAD";
  tenant := Some "t1";
  canonicalAuthority := "login.contoso.test"
|}.

(** A response to a refresh-token request for the account [u1.t1]. *)
Definition refreshed : ServerAuthorizationTokenResponse := {|
  token_type := Some "Bearer"; scope := Some "User.Read Mail.Read";
  expires_in := Some 3600%Z; ext_expires_in := Some 7200%Z;
  access_token := Some "AT2"; refresh_token := Some "RT2";
  id_token := Some "IDT1";
  client_info := Some "eyJ1aWQiOiJ1MSIsInV0aWQiOiJ0MSJ9";
  foci := None; error := None; error_description := None;
  error_codes := None; suberror := None; timestamp := None;
  trace_id := None; correlation_id := None
|}.

(** A new handler, and a store from which the account has been removed. *)
Definition fresh (keys : list string) : @State World unit Account := {|
  world := {| accountKeys := keys; written := 0; clock := 5000;
              snapshots := 0 |};
  trace := [];
  clientInfo := None;
  homeAccountIdentifier := None;
  cacheContext := None
|}.

Definition context : @TokenCacheContext unit :=
  {| tokenCache := tt; hasChanged := true |}.

Definition refreshedKey : string := "u1.t1-login.contoso.test-t1".

(** The record the refreshed response is mapped to when the request was
    sent at time 1000 (the timestamp of the library state). *)
Definition refreshedRecord : @CacheRecord Account := {|
  account := Some {| acct_home := Some "u1.t1";
                     acct_environment := Some "login.contoso.test";
                     acct_realm := Some "t1" |};
  idToken := Some {| it_homeAccountId := Some "u1.t1";
                     it_environment := Some "login.contoso.test";
                     it_secret := Some "IDT1"; it_clientId := "client-1";
                     it_realm := Some "t1"; it_oboAssertion := None |};
  accessToken := Some {| at_homeAccountId := Some "u1.t1";
                         at_environment := Some "login.contoso.test";
                         at_secret := Some "AT2"; at_clientId := "client-1";
                         at_realm := Some "t1";
                         at_target := Some "User.Read Mail.Read";
                         at_expiresOn := Num 4600;
                         at_extendedExpiresOn := Num 11800;
                         at_tokenType := Some "Bearer";
                         at_oboAssertion := None |};
  refreshToken := Some {| rt_homeAccountId := Some "u1.t1";
                          rt_environment := Some "login.contoso.test";
                          rt_secret := Some "RT2"; rt_clientId := "client-1";
                          rt_familyId := None; rt_oboAssertion := None |};
  appMetadata := None
|}.

Definition refreshedToken : AuthToken := {|
  rawToken := Some "IDT1";
  claims := {| nonce := Some "n1"; sub := Some "sub1"; oid := None;
               tid := Some "t1" |}
|}.

Definition refreshedState : RequestStateObject := {|
  userRequestState := Some "user-state";
  libraryState := Some {| ls_id := "id1"; ts := 1000 |}
|}.

(** The refreshed response, handled as a refresh-token response (or not)
    by a handler with the given plug-in, over a store with the given
    accounts. *)
Definition handleRefreshed (plugin : option (@ICachePlugin World unit))
    (handling : bool) (keys : list string) :=
  handleServerTokenResponse (handlerWith plugin) refreshed contoso None None
    (Some "n1") (Some "STATE1") None None handling (fresh keys).

(** The account was removed from the store: with a working plug-in the
    refresh asks the store for the key of the account, writes nothing and
    returns [null]. *)
Lemma refresh_guard_witness :
  let this := handlerWith (Some snapshotPlugin) in
  let run := handleRefreshed (Some snapshotPlugin) true [] in
  getAccount (cacheStorage this) refreshedKey (world (fresh [])) = Fine None
  ∧ trace run.2 = [BeforeCacheAccess context (Fine tt);
                   GetAccount refreshedKey (Fine None);
                   AfterCacheAccess context (Fine tt)]
  ∧ run.1 = Ok None
  ∧ written (world run.2) = 0.
Proof.
  intros this run.
  assert (∃ σ1,
            buildCacheRecord this refreshed contoso (Some "n1")
              (Some "STATE1") None None (fresh [])
            = (Ok (Some refreshedToken, Some refreshedState, refreshedRecord),
               σ1)) as [σ1 Hbuilt] by (eexists; vm_compute; reflexivity).
  pose proof (refresh_guard_writes_nothing this refreshed contoso None None
                (Some "n1") (Some "STATE1") None None (fresh []) _ _ _ _ _
                Hbuilt eq_refl) as Hguard.
  destruct (Hguard (Fine tt) (world (fresh [])) eq_refl eq_refl)
    as (evs & Htrace & -> & _ & Hworld & Hres).
  split; [reflexivity|]. split; [exact Htrace|]. split; [exact Hres|].
  exact (eq_trans (f_equal written Hworld) eq_refl).
Defined.

(** The same refresh with a plug-in whose [afterCacheAccess] fails: the
    record names an account, the lookup of its key finds no account, nothing
    is written, and yet the call does not return [null]: it fails with the
    error of the hook. *)
Lemma refresh_guard_null_overridden :
  let this := handlerWith (Some fullDiskPlugin) in
  let run := handleRefreshed (Some fullDiskPlugin) true [] in
  (∃ σ1,
     buildCacheRecord this refreshed contoso (Some "n1") (Some "STATE1") None
       None (fresh [])
     = (Ok (Some refreshedToken, Some refreshedState, refreshedRecord), σ1)
     ∧ (∃ cachedAccount,
          account refreshedRecord = Some cachedAccount
          ∧ generateAccountKey cachedAccount = refreshedKey)
     ∧ getAccount (cacheStorage this) refreshedKey (world σ1) = Fine None)
  ∧ GetAccount refreshedKey (Fine None) ∈ trace run.2
  ∧ forallb (λ ev, negb (isSaveEvent ev)) (trace run.2) = true
  ∧ run.1 = Throw (Raised cachePlugin "ENOSPC")
  ∧ run.1 ≠ Ok None.
Proof.
  intros this run. split_and!.
  - eexists. split; [vm_compute; reflexivity|].
    split; [eexists; split; reflexivity | reflexivity].
  - apply list_elem_of_further, list_elem_of_here.
  - reflexivity.
  - reflexivity.
  - discriminate.
Qed.

(** A first login with the snapshot plug-in: the hooks bracket the write. *)
Lemma hooks_witness :
  let run := handleRefreshed (Some snapshotPlugin) false [] in
  let evs := trace run.2 in
  persistencePlugin (handlerWith (Some snapshotPlugin)) = Some snapshotPlugin
  ∧ serializableCache (handlerWith (Some snapshotPlugin)) = Some tt
  ∧ trace run.2 = trace (fresh []) ++ evs
  ∧ (∃ c reply, BeforeCacheAccess c reply ∈ evs)
  ∧ ∃ before mid after post,
      evs = BeforeCacheAccess context before :: mid
              ++ AfterCacheAccess context after :: post
      ∧ forallb isStoreEvent mid = true
      ∧ forallb isSignEvent post = true.
Proof.
  intros run evs.
  assert (trace run.2 = trace (fresh []) ++ evs) as Htrace by reflexivity.
  assert (∃ c reply, BeforeCacheAccess c reply ∈ evs) as Hin
    by (exists context, (Fine tt); apply list_elem_of_here).
  split; [reflexivity|]. split; [reflexivity|].
  split; [exact Htrace|]. split; [exact Hin|].
  destruct (hooks_are_matched (handlerWith (Some snapshotPlugin))
              snapshotPlugin tt refreshed contoso None None (Some "n1")
              (Some "STATE1") None None false (fresh []) evs
              eq_refl eq_refl Htrace Hin)
    as (before & mid & after & post & Hevs & Hmid & Hpost & _).
  exists before, mid, after, post. split_and!; assumption.
Defined.

(** The scenarios of validation: a state that does not match, and an
    [interaction_required] error of the token endpoint. *)
Lemma validation_witness :
  let this := handlerWith None in
  let hash := {| hash_code := Some "code"; hash_client_info := None;
                 hash_state := Some "abc"; hash_error := None;
                 hash_error_description := None; hash_suberror := None |} in
  let response := {| token_type := None; scope := None; expires_in := None;
                     ext_expires_in := None; access_token := None;
                     refresh_token := None; id_token := None;
                     client_info := None; foci := None;
                     error := Some "interaction_required";
                     error_description := None; error_codes := None;
                     suberror := None; timestamp := None; trace_id := None;
                     correlation_id := None |} in
  (validateServerAuthorizationCodeResponse this hash (Some "xyz") tt
     (fresh [])).1 = Throw StateMismatchError
  ∧ (validateTokenResponse this response (fresh [])).1
    = Throw (InteractionRequiredAuthError (Some "interaction_required")
               None None)
  ∧ validateTokenResponse this bearerResponse (fresh []) = (Ok tt, fresh []).
Proof.
  intros this hash response.
  destruct (validation_errors this hash (Some "xyz") tt response (fresh []))
    as (Hmismatch & _ & (_ & Hrequired & _) & _).
  destruct (validation_errors this hash (Some "xyz") tt bearerResponse
              (fresh [])) as (_ & _ & (_ & _ & _ & Hnone) & _).
  split; [|split].
  - apply Hmismatch. exists "abc", "xyz". by split_and!.
  - by apply Hrequired.
  - by apply Hnone.
Defined.

(** A nonce that does not match: the call fails before the store is
    touched. *)
Lemma nonce_witness :
  let run := handleServerTokenResponse (handlerWith (Some snapshotPlugin))
               refreshed contoso None None (Some "n2") (Some "STATE1") None
               None false (fresh []) in
  run.1 = Throw NonceMismatchError
  ∧ world run.2 = world (fresh []) ∧ trace run.2 = [].
Proof.
  intros run.
  destruct (validation_precedes_cache (handlerWith (Some snapshotPlugin))
              refreshed contoso None None (Some "n2") (Some "STATE1") None
              None false (fresh [])) as [Hnonce _].
  edestruct Hnonce with (token := refreshedToken)
    as (Hrun & Hworld & Htrace);
    [reflexivity|reflexivity|reflexivity|reflexivity|discriminate|].
  fold run in Hrun. rewrite Hrun. by split_and!.
Defined.


(** A response whose [client_info] decodes to an empty [uid]. *)
Definition partial : ServerAuthorizationTokenResponse := {|
  token_type := Some "Bearer"; scope := Some "User.Read";
  expires_in := Some 3600%Z; ext_expires_in := Some 7200%Z;
  access_token := Some "AT3"; refresh_token := None;
  id_token := Some "IDT1";
  client_info := Some "eyJ1aWQiOiIiLCJ1dGlkIjoidDEifQ==";
  foci := None; error := None; error_description := None;
  error_codes := None; suberror := None; timestamp := None;
  trace_id := None; correlation_id := None
|}.

(** In a new handler it gives no identifier, and the [sub] claim is used. *)
Example partial_client_info_falls_back_to_sub :
  homeAccountIdentifier
    (buildCacheRecord (handlerWith None) partial contoso (Some "n1") None
       None None (fresh [])).2
  = Some "sub1".
Proof. reflexivity. Qed.

(** The identifier is a field of the handler, which such a response does not
    assign: a handler that has processed the refreshed response before
    keeps the identifier of that response. *)
Example reused_handler_keeps_identifier :
  let earlier := (handleRefreshed None false []).2 in
  homeAccountIdentifier earlier = Some "u1.t1"
  ∧ homeAccountIdentifier
      (buildCacheRecord (handlerWith None) partial contoso (Some "n1") None
         None None earlier).2
    = Some "u1.t1".
Proof. split; reflexivity. Qed.


(** The expiration of the access token of the refreshed response. *)
Lemma access_token_expiration_witness :
  let run := handleRefreshed (Some snapshotPlugin) false [] in
  trace run.2 = trace (fresh []) ++ trace run.2
  ∧ SaveCacheRecord refreshedRecord (Fine tt) ∈ trace run.2
  ∧ baselineTimestamp (handlerWith (Some snapshotPlugin)) (Some "STATE1")
      (world (fresh [])) = 1000%Z
  ∧ ∃ cached,
      accessToken refreshedRecord = Some cached
      ∧ at_expiresOn cached = Num (1000 + 3600)
      ∧ at_extendedExpiresOn cached = Num (1000 + 3600 + 7200).
Proof.
  intros run.
  assert (trace run.2 = trace (fresh []) ++ trace run.2) as Htrace
    by reflexivity.
  assert (SaveCacheRecord refreshedRecord (Fine tt) ∈ trace run.2) as Hin
    by (apply list_elem_of_further, list_elem_of_here).
  split; [exact Htrace|]. split; [exact Hin|]. split; [reflexivity|].
  apply (access_token_expiration (handlerWith (Some snapshotPlugin))
           refreshed contoso None None (Some "n1") (Some "STATE1") None None
           false (fresh []) (trace run.2) refreshedRecord (Fine tt)
           3600 7200 Htrace Hin eq_refl eq_refl eq_refl);
    unfold exactInteger; by vm_compute.
Defined.

(** A token that never expires, as some servers say it: [expires_in] is
    2^53 - 1.  The request was sent at 5000 (no state was cached), and the
    expiration that is cached is not 5000 more than [expires_in]: the sum
    is rounded to the next double. *)
Definition everlasting : ServerAuthorizationTokenResponse := {|
  token_type := Some "Bearer"; scope := Some "User.Read";
  expires_in := Some 9007199254740991%Z; ext_expires_in := Some 7200%Z;
  access_token := Some "AT6"; refresh_token := None; id_token := None;
  client_info := None; foci := None; error := None;
  error_description := None; error_codes := None; suberror := None;
  timestamp := None; trace_id := None; correlation_id := None
|}.

Lemma expiration_is_rounded :
  let this := handlerWith None in
  let run := handleServerTokenResponse this everlasting contoso None None
               None None None None false (fresh []) in
  truthy (access_token everlasting) = true
  ∧ expires_in everlasting = Some 9007199254740991%Z
  ∧ ext_expires_in everlasting = Some 7200%Z
  ∧ baselineTimestamp this None (world (fresh [])) = 5000%Z
  ∧ ∃ saved cached,
      trace run.2 = [SaveCacheRecord saved (Fine tt)]
      ∧ accessToken saved = Some cached
      ∧ at_expiresOn cached = Num 9007199254745992
      ∧ at_expiresOn cached ≠ Num (5000 + 9007199254740991)
      ∧ at_extendedExpiresOn cached = Num 9007199254753192
      ∧ at_extendedExpiresOn cached ≠ Num (5000 + 9007199254740991 + 7200).
Proof.
  intros this run.
  split; [reflexivity|]. split; [reflexivity|]. split; [reflexivity|].
  split; [reflexivity|].
  eexists _, _. split; [vm_compute; reflexivity|].
  split; [reflexivity|].
  split; [vm_compute; reflexivity|]. split; [vm_compute; discriminate|].
  split; [vm_compute; reflexivity|]. vm_compute; discriminate.
Qed.

(** The record of the refreshed response has the four entities the response
    has material for. *)
Lemma cache_record_witness :
  ∃ cacheRecord,
    generateCacheRecord (handlerWith None) refreshed (Some refreshedToken)
      contoso None None None (fresh [])
    = (Ok cacheRecord, fresh [])
    ∧ is_Some (idToken cacheRecord) ∧ is_Some (account cacheRecord)
    ∧ is_Some (accessToken cacheRecord) ∧ is_Some (refreshToken cacheRecord)
    ∧ appMetadata cacheRecord = None.
Proof.
  destruct (cache_record_slots (handlerWith None) refreshed
              (Some refreshedToken) contoso None None None (fresh []))
    as (_ & Hslots & _ & Htotal).
  destruct Htotal as [cacheRecord Hrun].
  - reflexivity.
  - intros _. eexists _, _. split; reflexivity.
  - intros _. eexists. reflexivity.
  - exists cacheRecord. split; [exact Hrun|].
    destruct (Hslots cacheRecord) as (Hid & Hacct & _ & Hat & _ & Hrt & Ham);
      [by rewrite Hrun|].
    split_and!; [by apply Hid|by apply Hacct|by apply Hat|by apply Hrt|].
    destruct (appMetadata cacheRecord) eqn:Hmeta; [|done].
    by destruct Ham as [Ham _]; specialize (Ham ltac:(eauto)).
Defined.

(** The bearer response of the scenario through the whole call, at time
    5000: a record with nothing but an access token, a result with no
    account, the scopes [User.Read], and the expirations 8600 s and
    15800 s as dates. *)
Lemma bearer_scenario_witness :
  ∃ result σ2,
    handleServerTokenResponse (handlerWith None) bearerResponse contoso None
      None None None None None false (fresh [])
    = (Ok (Some result), σ2)
    ∧ res_account result = None
    ∧ res_scopes result = ["User.Read"]
    ∧ res_accessToken result = Some "AT1"
    ∧ res_expiresOn result = Some (DateOf 8600000)
    ∧ res_extExpiresOn result = Some (DateOf 15800000).
Proof.
  destruct (authentication_result tt refreshedRecord None false None None None
              (fresh [])) as (_ & _ & _ & Hscenario).
  destruct (Hscenario (handlerWith None) contoso None None None None
              ["User.Read"])
    as (requestStateObj & built & σ1 & Hbuilt & Honly & Hresult);
    [reflexivity|discriminate|reflexivity|reflexivity|reflexivity
    |discriminate|].
  vm_compute in Hbuilt. injection Hbuilt as <- <- <-.
  edestruct Hresult as (result & Hrun & Haccount & Hscopes);
    [vm_compute; reflexivity|].
  exists result. eexists. split; [exact Hrun|].
  split; [exact Haccount|]. split; [exact Hscopes|].
  vm_compute in Hrun. injection Hrun as <-.
  split; [reflexivity|]. split; reflexivity.
Defined.

(** *** Further scenarios *)

(** A plug-in that cannot take the lock of the cache. *)
Definition lockedPlugin : @ICachePlugin World unit := {|
  beforeCacheAccess _ w := (Failed "EACCES", w);
  afterCacheAccess _ w := (Fine tt, w)
|}.

(** A store that cannot be reached. *)
Definition offlineStore : @CacheManager World Account := {|
  getAccount _ _ := Failed "offline";
  saveCacheRecord _ w := (Failed "offline", w)
|}.

Definition offlineHandler
    : @ResponseHandler.ResponseHandler World unit unit Account := {|
  clientId := "client-1";
  cacheStorage := offlineStore;
  cryptoObj := tt;
  serializableCache := None;
  persistencePlugin := None
|}.

(** The collaborators of the deployment, with a signer that has lost its
    key. *)
Definition keyless : @Imports World unit Account Account (list string) := {|
  decodeURIComponent := decodeURIComponent;
  isInteractionRequiredError := isInteractionRequiredError;
  buildClientInfo := buildClientInfo;
  newAuthToken := newAuthToken;
  parseRequestState := parseRequestState;
  generateEnvironmentFromAuthority := generateEnvironmentFromAuthority;
  createAccount := createAccount;
  createGenericAccount := createGenericAccount;
  generateAccountKey := generateAccountKey;
  getAccountInfo := getAccountInfo;
  ScopeSet_fromString := ScopeSet_fromString;
  ScopeSet_new := ScopeSet_new;
  printScopes := printScopes;
  asArray := asArray;
  nowSeconds := nowSeconds;
  signPopToken _ _ _ _ w := (Failed "no_signing_key", w)
|}.

(** A response of the PoP scheme. *)
Definition bound : ServerAuthorizationTokenResponse := {|
  token_type := Some "pop"; scope := Some "User.Read";
  expires_in := Some 3600%Z; ext_expires_in := Some 7200%Z;
  access_token := Some "AT4"; refresh_token := None; id_token := None;
  client_info := None; foci := None; error := None;
  error_description := None; error_codes := None; suberror := None;
  timestamp := None; trace_id := None; correlation_id := None
|}.

(** A response with an id token and nothing else. *)
Definition signedIn : ServerAuthorizationTokenResponse := {|
  token_type := None; scope := None; expires_in := None;
  ext_expires_in := None; access_token := None; refresh_token := None;
  id_token := Some "IDT1";
  client_info := Some "eyJ1aWQiOiJ1MSIsInV0aWQiOiJ0MSJ9";
  foci := None; error := None; error_description := None;
  error_codes := None; suberror := None; timestamp := None;
  trace_id := None; correlation_id := None
|}.

(** A response with an id token and no [client_info]. *)
Definition anonymous : ServerAuthorizationTokenResponse := {|
  token_type := Some "Bearer"; scope := Some "User.Read";
  expires_in := Some 3600%Z; ext_expires_in := Some 7200%Z;
  access_token := Some "AT5"; refresh_token := None;
  id_token := Some "IDT1"; client_info := None;
  foci := None; error := None; error_description := None;
  error_codes := None; suberror := None; timestamp := None;
  trace_id := None; correlation_id := None
|}.

(** An authority without a host. *)
Definition nowhere : Authority := {|
  authorityType := Default;
  protocolMode := "AAD";
  tenant := None;
  canonicalAuthority := ""
|}.

(** A response whose state is the string [undefined] is not a mismatch for
    a request without a state. *)
Lemma states_witness :
  let hash := {| hash_code := Some "code"; hash_client_info := None;
                 hash_state := Some "undefined"; hash_error := None;
                 hash_error_description := None; hash_suberror := None |} in
  template (hash_state hash) = template None
  ∧ (validateServerAuthorizationCodeResponse (handlerWith None) hash None tt
       (fresh [])).1 ≠ Throw StateMismatchError.
Proof.
  intros hash. split; [reflexivity|].
  apply states_are_compared_as_printed. reflexivity.
Defined.

(** Without a plug-in the first login calls the store only. *)
Lemma no_plugin_witness :
  let run := handleRefreshed None false [] in
  trace run.2 = [SaveCacheRecord refreshedRecord (Fine tt)]
  ∧ forallb (λ ev, negb (isHookEvent ev)) (trace run.2) = true.
Proof.
  intros run. split; [reflexivity|].
  apply (hooks_need_plugin_and_cache (handlerWith None) refreshed contoso None
           None (Some "n1") (Some "STATE1") None None false (fresh [])
           (trace run.2)); [reflexivity|by left].
Defined.

(** A first login does not look the account up. *)
Lemma first_login_witness :
  let run := handleRefreshed (Some snapshotPlugin) false [] in
  trace run.2 = trace (fresh []) ++ trace run.2
  ∧ forallb (λ ev, negb (isLookupEvent ev)) (trace run.2) = true.
Proof.
  intros run. split; [reflexivity|].
  apply (lookup_only_when_refreshing (handlerWith (Some snapshotPlugin))
           refreshed contoso None None (Some "n1") (Some "STATE1") None None
           false (fresh []) (trace run.2)); [reflexivity|by left].
Defined.

(** A refresh for an account that is still in the store is written. *)
Lemma known_account_witness :
  let run := handleRefreshed (Some snapshotPlugin) true [refreshedKey] in
  let found := {| acct_home := None; acct_environment := None;
                  acct_realm := None |} in
  GetAccount refreshedKey (Fine (Some found)) ∈ trace run.2
  ∧ ∃ cacheRecord reply, SaveCacheRecord cacheRecord reply ∈ trace run.2.
Proof.
  intros run found.
  assert (trace run.2 = trace (fresh [refreshedKey]) ++ trace run.2) as Htrace
    by reflexivity.
  assert (GetAccount refreshedKey (Fine (Some found)) ∈ trace run.2) as Hin
    by (apply list_elem_of_further, list_elem_of_here).
  split; [exact Hin|].
  destruct (refresh_of_known_account_is_written _ _ _ _ _ _ _ _ _ _ _ _ _ _
              Htrace Hin) as (_ & _ & cacheRecord & _ & reply & _ & Hsaved).
  by exists cacheRecord, reply.
Defined.

(** The lock of the cache cannot be taken: the store is left alone. *)
Lemma locked_cache_witness :
  let run := handleRefreshed (Some lockedPlugin) false [] in
  BeforeCacheAccess context (Failed "EACCES") ∈ trace run.2
  ∧ (∃ after, trace run.2 = [BeforeCacheAccess context (Failed "EACCES");
                             AfterCacheAccess context after])
  ∧ ∃ what, run.1 = Throw (Raised cachePlugin what).
Proof.
  intros run.
  assert (trace run.2 = trace (fresh []) ++ trace run.2) as Htrace
    by reflexivity.
  assert (BeforeCacheAccess context (Failed "EACCES") ∈ trace run.2) as Hin
    by apply list_elem_of_here.
  split; [exact Hin|].
  exact (failed_acquisition_skips_store _ _ _ _ _ _ _ _ _ _ _ _ _ _
           Htrace Hin).
Defined.

(** The first login returns a result, after one write. *)
Lemma one_write_witness :
  let run := handleRefreshed (Some snapshotPlugin) false [] in
  (∃ result, run.1 = Ok (Some result))
  ∧ length (List.filter isSaveEvent (trace run.2)) = 1.
Proof.
  intros run.
  assert (trace run.2 = trace (fresh []) ++ trace run.2) as Htrace
    by reflexivity.
  assert (∃ result, run.1 = Ok (Some result)) as [result Hres]
    by (eexists; reflexivity).
  split; [by exists result|].
  destruct (a_result_follows_one_write _ _ _ _ _ _ _ _ _ _ _ _ Htrace)
    as [_ Hwritten].
  destruct (Hwritten result Hres) as (_ & _ & _ & _ & _ & _ & Hone).
  exact Hone.
Defined.

(** The refresh for the removed account returned [null] through the
    guard. *)
Lemma null_result_witness :
  let run := handleRefreshed (Some snapshotPlugin) true [] in
  run.1 = Ok None
  ∧ (∃ key, GetAccount key (Fine None) ∈ trace run.2)
  ∧ forallb (λ ev, negb (isSaveEvent ev)) (trace run.2) = true.
Proof.
  intros run.
  assert (trace run.2 = trace (fresh []) ++ trace run.2) as Htrace
    by reflexivity.
  assert (run.1 = Ok None) as Hres by reflexivity.
  split; [exact Hres|].
  destruct (null_only_from_refresh_guard _ _ _ _ _ _ _ _ _ _ _ _ Htrace Hres)
    as (_ & _ & Hlookup & Hnosave & _).
  by split.
Defined.

(** A PoP response with a signer that has lost its key: the call fails
    after the record has been written. *)
Lemma keyless_signer_witness :
  let run := @handleServerTokenResponse World unit unit Account Account
               (list string) scheme keyless (handlerWith None) bound contoso
               (Some "GET") (Some "https://api.contoso.test/me") None None
               None None false (fresh []) in
  run.1 = Throw (Raised popSigner "no_signing_key")
  ∧ written (world run.2) = 1
  ∧ ∃ cacheRecord before,
      SaveCacheRecord cacheRecord (Fine tt) ∈ before
      ∧ trace run.2
        = before ++ [SignPopToken (Some "AT4") (Some "GET")
                       (Some "https://api.contoso.test/me")
                       (Failed "no_signing_key")].
Proof.
  intros run.
  assert (trace run.2 = trace (fresh []) ++ trace run.2) as Htrace
    by reflexivity.
  assert (run.1 = Throw (Raised popSigner "no_signing_key")) as Hres
    by reflexivity.
  split; [exact Hres|]. split; [reflexivity|].
  destruct (@signer_failure_follows_write World unit unit Account Account
              (list string) scheme keyless _ _ _ _ _ _ _ _ _ _ _ _ _
              Htrace Hres)
    as (_ & _ & _ & cacheRecord & _ & before & _ & Hsaved & Hevs).
  by exists cacheRecord, before.
Defined.

(** The error of the plug-in whose medium is full is one of the errors of
    a call. *)
Lemma errors_witness :
  let run := handleRefreshed (Some fullDiskPlugin) false [] in
  run.1 = Throw (Raised cachePlugin "ENOSPC")
  ∧ (Raised cachePlugin "ENOSPC" = NonceMismatchError
     ∨ Raised cachePlugin "ENOSPC" = InvalidCacheEnvironmentError
     ∨ Raised cachePlugin "ENOSPC" = ClientInfoEmptyError
     ∨ ∃ who what, Raised cachePlugin "ENOSPC" = Raised who what
         ∧ who ∈ [clientInfoDecoder; idTokenDecoder; stateParser;
                  accountFactory; scopeSetFactory; cacheStore; cachePlugin;
                  popSigner]).
Proof.
  intros run.
  assert (run.1 = Throw (Raised cachePlugin "ENOSPC")) as Hres by reflexivity.
  split; [exact Hres|].
  exact (errors_of_a_call _ _ _ _ _ _ _ _ _ _ _ _ Hres).
Defined.

(** An id token without [client_info] under the AAD protocol mode: the
    call fails before the cache. *)
Lemma client_info_missing_witness :
  let run := handleServerTokenResponse (handlerWith (Some snapshotPlugin))
               anonymous contoso None None (Some "n1") None None None false
               (fresh []) in
  run.1 = Throw ClientInfoEmptyError
  ∧ trace run.2 = [] ∧ world run.2 = world (fresh []).
Proof.
  intros run.
  assert (trace run.2 = trace (fresh []) ++ trace run.2) as Htrace
    by reflexivity.
  assert (run.1 = Throw ClientInfoEmptyError) as Hres by reflexivity.
  split; [exact Hres|].
  apply (mapping_errors_precede_cache _ _ _ _ _ _ _ _ _ _ _ _ _ Htrace Hres).
  right. by left.
Defined.

(** An authority without a host has an empty environment. *)
Lemma empty_environment_witness :
  let run := handleServerTokenResponse (handlerWith (Some snapshotPlugin))
               refreshed nowhere None None (Some "n1") (Some "STATE1") None
               None false (fresh []) in
  isEmpty (generateEnvironmentFromAuthority nowhere) = true
  ∧ (∃ e, run.1 = Throw e)
  ∧ trace run.2 = trace (fresh []) ∧ world run.2 = world (fresh []).
Proof.
  intros run. split; [reflexivity|].
  apply (empty_environment_never_reaches_cache
           (handlerWith (Some snapshotPlugin)) refreshed nowhere None None
           (Some "n1") (Some "STATE1") None None false (fresh [])).
  reflexivity.
Defined.

(** The result of the first login: the request was sent at 1000, the token
    lives 3600 seconds and 7200 more. *)
Lemma result_witness :
  let run := handleRefreshed None false [] in
  ∃ result,
    run.1 = Ok (Some result)
    ∧ res_expiresOn result = Some (DateOf 4600000)
    ∧ res_extExpiresOn result = Some (DateOf 11800000)
    ∧ res_tokenType result = Some "Bearer"
    ∧ res_accessToken result = Some "AT2".
Proof.
  intros run.
  assert (∃ result, run.1 = Ok (Some result)) as [result Hres]
    by (eexists; reflexivity).
  exists result. split; [exact Hres|].
  destruct (result_reflects_response (handlerWith None) refreshed contoso
              None None (Some "n1") (Some "STATE1") None None false (fresh [])
              result 3600 7200 Hres eq_refl eq_refl eq_refl)
    as (Hexp & Hext & _ & Htype & Htoken & _); try by vm_compute.
  split; [exact Hexp|]. split; [exact Hext|]. split; [by apply Htype|].
  apply Htoken. discriminate.
Defined.

(** A sign-in without an access token still returns a result. *)
Lemma signed_in_witness :
  let run := handleServerTokenResponse (handlerWith None) signedIn contoso
               None None (Some "n1") None None None false (fresh []) in
  ∃ result,
    run.1 = Ok (Some result)
    ∧ res_accessToken result = Some "" ∧ res_scopes result = []
    ∧ res_expiresOn result = None.
Proof.
  intros run.
  assert (trace run.2 = trace (fresh []) ++ trace run.2) as Htrace
    by reflexivity.
  assert (∃ result, run.1 = Ok (Some result)) as [result Hres]
    by (eexists; reflexivity).
  exists result. split; [exact Hres|].
  destruct (result_without_access_token _ _ _ _ _ _ _ _ _ _ _ _ _
              Htrace Hres eq_refl) as (Htoken & _ & Hscopes & Hexp & _).
  by split_and!.
Defined.

(** The identity in the result of the first login. *)
Lemma identity_witness :
  let run := handleRefreshed None false [] in
  ∃ result,
    run.1 = Ok (Some result)
    ∧ res_uniqueId result = Some "sub1"
    ∧ res_tenantId result = Some "t1"
    ∧ res_idToken result = Some "IDT1"
    ∧ res_state result = Some "user-state".
Proof.
  intros run.
  assert (∃ result, run.1 = Ok (Some result)) as [result Hres]
    by (eexists; reflexivity).
  exists result. split; [exact Hres|].
  destruct (result_identity (handlerWith None) refreshed contoso None None
              (Some "n1") (Some "STATE1") None None false (fresh []) result
              Hres) as [Hid Hstate].
  cbn in Hid, Hstate.
  destruct Hid as (token & acct & [= <-] & _ & _ & Hraw & _ & Huid & Htid & _).
  destruct Hstate as (parsed & [= <-] & Hstate).
  by split_and!.
Defined.

(** A refresh over a store that cannot be reached: the lookup fails and
    nothing is written. *)
Lemma offline_lookup_witness :
  let run := handleServerTokenResponse offlineHandler refreshed contoso None
               None (Some "n1") (Some "STATE1") None None true (fresh []) in
  GetAccount refreshedKey (Failed "offline") ∈ trace run.2
  ∧ forallb (λ ev, negb (isSaveEvent ev)) (trace run.2) = true
  ∧ run.1 = Throw (Raised cacheStore "offline").
Proof.
  intros run.
  assert (trace run.2 = trace (fresh []) ++ trace run.2) as Htrace
    by reflexivity.
  assert (GetAccount refreshedKey (Failed "offline") ∈ trace run.2) as Hin
    by apply list_elem_of_here.
  split; [exact Hin|].
  destruct (failed_lookup_prevents_write _ _ _ _ _ _ _ _ _ _ _ _ _ _
              Htrace Hin) as (Hnosave & _ & _).
  split; [exact Hnosave|reflexivity].
Defined.

(** A first login over that store: the write fails, and its error is the
    error of the call. *)
Lemma offline_write_witness :
  let run := handleServerTokenResponse offlineHandler refreshed contoso None
               None (Some "n1") (Some "STATE1") None None false (fresh []) in
  run.1 = Throw (Raised cacheStore "offline")
  ∧ trace run.2 = [SaveCacheRecord refreshedRecord (Failed "offline")].
Proof.
  intros run.
  assert (∃ σ1,
            buildCacheRecord offlineHandler refreshed contoso (Some "n1")
              (Some "STATE1") None None (fresh [])
            = (Ok (Some refreshedToken, Some refreshedState, refreshedRecord),
               σ1)) as [σ1 Hbuilt] by (eexists; vm_compute; reflexivity).
  destruct (write_without_persistence offlineHandler refreshed contoso None
              None (Some "n1") (Some "STATE1") None None false (fresh [])
              _ _ _ _ (or_introl eq_refl) (or_introl eq_refl) Hbuilt)
    as [Hfailed _].
  destruct (Hfailed "offline" eq_refl) as (Hres & _ & Htrace).
  by split.
Defined.

(** A handler that has processed the refreshed response keeps its
    identifier for a response whose [client_info] has an empty [uid]. *)
Lemma held_identifier_witness :
  let earlier := (handleRefreshed None false []).2 in
  let build := buildCacheRecord (handlerWith None) partial contoso
                 (Some "n1") None None None earlier in
  homeAccountIdentifier earlier = Some "u1.t1"
  ∧ homeAccountIdentifier build.2 = Some "u1.t1".
Proof.
  intros earlier build. split; [reflexivity|].
  assert (∃ idTokenObj requestStateObj cacheRecord,
            build = (Ok (idTokenObj, requestStateObj, cacheRecord), build.2))
    as (tok & rso & rec & Hbuilt) by (eexists _, _, _; reflexivity).
  destruct (held_identifier_survives_partial_client_info (handlerWith None)
              partial contoso (Some "n1") None None None earlier tok rso rec
              build.2 {| uid := Some ""; utid := Some "t1" |}
              Hbuilt eq_refl eq_refl eq_refl eq_refl) as [Hkept _].
  exact Hkept.
Defined.

(** The medium of the plug-in is full: the first login is written to the
    store, and yet the call fails with the error of the hook. *)
Lemma full_disk_witness :
  let run := handleRefreshed (Some fullDiskPlugin) false [] in
  AfterCacheAccess context (Failed "ENOSPC") ∈ trace run.2
  ∧ SaveCacheRecord refreshedRecord (Fine tt) ∈ trace run.2
  ∧ run.1 = Throw (Raised cachePlugin "ENOSPC").
Proof.
  intros run.
  assert (trace run.2 = trace (fresh []) ++ trace run.2) as Htrace
    by reflexivity.
  assert (AfterCacheAccess context (Failed "ENOSPC") ∈ trace run.2) as Hin
    by (do 2 apply list_elem_of_further; apply list_elem_of_here).
  split; [exact Hin|].
  split; [apply list_elem_of_further, list_elem_of_here|].
  destruct (failed_release_is_the_outcome _ _ _ _ _ _ _ _ _ _ _ _ _ _
              Htrace Hin) as [Hres _].
  exact Hres.
Defined.
End Scenario.

(** A client of a token endpoint that throttles one of its paths. *)
Module Endpoint.
Import BaseClient.

#[local] Instance headerNames : HeaderNames := {|
  CONTENT_TYPE := "Content-Type";
  X_CLIENT_CURR_TELEM := "x-client-current-telemetry";
  X_CLIENT_LAST_TELEM := "x-client-last-telemetry"
|}.

#[local] Instance paramKeys : AADServerParamKeys := {|
  X_CLIENT_SKU := "x-client-SKU";
  X_CLIENT_VER := "x-client-VER";
  X_CLIENT_OS := "x-client-OS";
  X_CLIENT_CPU := "x-client-CPU"
|}.

#[local] Instance constants : Constants := {|
  URL_FORM_CONTENT_TYPE := "application/x-www-form-urlencoded;charset=utf-8"
|}.

(** The world: the number of requests whose telemetry is still cached. *)
Definition manager : @ServerTelemetryManager nat := {|
  clearTelemetryCache pending := (Fine tt, 0)
|}.

Definition answer (status : Z) : @NetworkResponse unit :=
  {| headers := ∅; body := tt; status := status |}.

(** The transport: every request adds to the cached telemetry. *)
Definition wire : @BaseClient.NetworkManager nat unit unit := {|
  sendPostRequest _ tokenEndpoint _ pending :=
    (Fine (answer (if String.eqb tokenEndpoint "https://sts.test/throttled"
                   then 429 else 200)),
     S pending)
|}.

Definition client : @BaseClient.BaseClient nat unit unit := {|
  config := {| libraryInfo := {| sku := "msal.js.common"; version := "2.0.0";
                                 cpu := ""; os := "" |};
               serverTelemetryManager := Some manager |};
  networkManager := wire
|}.

Definition idle (pending : nat) : @State nat unit :=
  {| world := pending; trace := [] |}.

(** A status of 200 clears the telemetry cache. *)
Lemma telemetry_cleared_witness :
  let run := executePostToTokenEndpoint client "https://sts.test/token"
               "grant_type=refresh_token" ∅ tt (idle 3) in
  serverTelemetryManager (config client) = Some manager
  ∧ sendPostRequest wire tt "https://sts.test/token"
      {| req_body := "grant_type=refresh_token"; req_headers := ∅ |} 3
    = (Fine (answer 200), 4)
  ∧ ClearTelemetryCache ∈ trace run.2
  ∧ world run.2 = 0.
Proof.
  intros run.
  pose proof (telemetry_cleared_iff_acknowledged client manager
                "https://sts.test/token" "grant_type=refresh_token" ∅ tt
                (idle 3) (answer 200) 4 eq_refl eq_refl) as Hclear.
  cbv zeta in Hclear. fold run in Hclear.
  split; [reflexivity|]. split; [reflexivity|].
  destruct run as [r σ'].
  destruct Hclear as (evs & Htrace & _ & Hcleared & _).
  destruct Hcleared as [-> Hworld]; [cbn; lia|].
  cbn [snd]. rewrite Htrace, Hworld. split; [|reflexivity].
  apply list_elem_of_further, list_elem_of_here.
Defined.

(** A status of 429 leaves it as it is. *)
Example telemetry_kept_when_throttled :
  let run := executePostToTokenEndpoint client "https://sts.test/throttled"
               "grant_type=refresh_token" ∅ tt (idle 3) in
  run.1 = Ok (answer 429) ∧ world run.2 = 4
  ∧ ClearTelemetryCache ∉ trace run.2.
Proof.
  split; [reflexivity|]. split; [reflexivity|]. intros Hin.
  apply elem_of_cons in Hin as [?|Hin]; [discriminate|].
  by apply elem_of_nil in Hin.
Qed.

(** The headers of a token request of this client. *)
Lemma token_request_headers_witness :
  (CONTENT_TYPE ∉ [X_CLIENT_SKU; X_CLIENT_VER; X_CLIENT_OS; X_CLIENT_CPU;
                   X_CLIENT_CURR_TELEM; X_CLIENT_LAST_TELEM])
  ∧ createDefaultTokenRequestHeaders client
    = ({[ "Content-Type" := "application/x-www-form-urlencoded;charset=utf-8" ]}
       : gmap string string)
  ∧ createDefaultTokenRequestHeaders client !! "x-client-SKU" = None
  ∧ createDefaultTokenRequestHeaders client !! "x-client-current-telemetry"
    = None.
Proof.
  assert (CONTENT_TYPE ∉ [X_CLIENT_SKU; X_CLIENT_VER; X_CLIENT_OS;
                          X_CLIENT_CPU; X_CLIENT_CURR_TELEM;
                          X_CLIENT_LAST_TELEM]) as Hdistinct.
  { intros Hin.
    repeat (apply elem_of_cons in Hin as [Hin|Hin]; [discriminate|]).
    by apply elem_of_nil in Hin. }
  split; [exact Hdistinct|].
  destruct (token_request_headers_content_type_only client Hdistinct)
    as (Heq & _ & Hnone & _).
  split; [exact Heq|].
  rewrite Forall_forall in Hnone.
  split; apply Hnone; repeat constructor.
Defined.

(** *** Further scenarios *)

(** A transport whose peer refuses the connection. *)
Definition downWire : @BaseClient.NetworkManager nat unit unit := {|
  sendPostRequest _ _ _ pending := (Failed "ECONNREFUSED", pending)
|}.

Definition offlineClient : @BaseClient.BaseClient nat unit unit := {|
  config := config client;
  networkManager := downWire
|}.

(** A client that keeps no telemetry. *)
Definition plainClient : @BaseClient.BaseClient nat unit unit := {|
  config := {| libraryInfo := libraryInfo (config client);
               serverTelemetryManager := None |};
  networkManager := wire
|}.

(** A telemetry manager whose cache cannot be cleared. *)
Definition stuckManager : @ServerTelemetryManager nat := {|
  clearTelemetryCache pending := (Failed "telemetry_cache_locked", pending)
|}.

Definition stuckClient : @BaseClient.BaseClient nat unit unit := {|
  config := {| libraryInfo := libraryInfo (config client);
               serverTelemetryManager := Some stuckManager |};
  networkManager := wire
|}.

(** The connection is refused: the telemetry stays cached. *)
Lemma connection_refused_witness :
  let run := executePostToTokenEndpoint offlineClient "https://sts.test/token"
               "grant_type=refresh_token" ∅ tt (idle 3) in
  run.1 = Throw (Raised network "ECONNREFUSED")
  ∧ world run.2 = 3 ∧ length (trace run.2) = 1.
Proof.
  intros run. unfold run.
  rewrite (network_failure_keeps_telemetry offlineClient
             "https://sts.test/token" "grant_type=refresh_token" ∅ tt (idle 3)
             "ECONNREFUSED" 3 eq_refl).
  by split_and!.
Defined.

(** Without a telemetry manager a status of 200 clears nothing. *)
Lemma no_manager_witness :
  let run := executePostToTokenEndpoint plainClient "https://sts.test/token"
               "grant_type=refresh_token" ∅ tt (idle 3) in
  run.1 = Ok (answer 200) ∧ world run.2 = 4 ∧ length (trace run.2) = 1.
Proof.
  intros run. unfold run.
  rewrite (no_manager_never_clears plainClient "https://sts.test/token"
             "grant_type=refresh_token" ∅ tt (idle 3) (answer 200) 4
             eq_refl eq_refl).
  by split_and!.
Defined.

(** The telemetry cache cannot be cleared: the response with status 200 is
    lost. *)
Lemma stuck_telemetry_witness :
  let run := executePostToTokenEndpoint stuckClient "https://sts.test/token"
               "grant_type=refresh_token" ∅ tt (idle 3) in
  run.1 = Throw (Raised telemetry "telemetry_cache_locked")
  ∧ world run.2 = 4.
Proof.
  intros run. unfold run.
  rewrite (clear_failure_loses_response stuckClient stuckManager
             "https://sts.test/token" "grant_type=refresh_token" ∅ tt (idle 3)
             (answer 200) 4 4 "telemetry_cache_locked" eq_refl eq_refl);
    [by split|cbn; lia|discriminate|reflexivity].
Defined.
End Endpoint.
